(** * FSAS attendance session engine: QR tokens, session lifecycle,
      rotation timers and attendance recording.

    A shallow embedding of
      - backend/qr-code-generator.js   (QRCodeGenerator),
      - backend/attendance-api.js      (POST /api/attendance/scan),
      - the session routes             (activate, pause, resume, complete,
                                        cancel, completeSessionAutomatically,
                                        startQRCodeRotation, stopQRCodeRotation),
      - the class-management routes    (PUT /api/sessions/:sessionId,
                                        POST /api/sessions/:sessionId/attendance),
      - database/final-optimized-schema.sql (UNIQUE constraints, the
                                        attendance-count trigger),
    and, for the further properties, of
      - the other QR routes            (GET .../qr, .../qr-code,
                                        .../qr-code-legacy),
      - the instructor override and the backfill of absent rows,
      - the session template generator (generateSessionTemplates),
      - the enrollment routes          (enroll, self-enroll, unenroll, with
                                        the enrollment-count trigger),
      - the student statistics         (GET /api/attendance/student/:id/stats).

    Conventions.  Instants are integers (milliseconds since the epoch, [Z]);
    every [Date.now()] / [new Date()] read is an explicit argument.  Random
    draws ([crypto.randomBytes]) are explicit arguments too.  The Supabase
    client is modelled as a reliable store: a call fails only where the
    schema makes it fail (a UNIQUE violation, [.single()] on a row count
    other than one).  A handler, the timeout callback and a rotation
    tick each run to completion before the next one starts; the one
    place where the turns of overlapping requests are interleaved is the
    scan handler, around its duplicate check and its insert. *)

From Stdlib Require Import ZArith Lia.
From Stdlib.Strings Require Import Ascii Byte.
From stdpp Require Import base option list gmap strings pretty sorting.

Local Open Scope string_scope.
Local Open Scope list_scope.
Local Open Scope Z_scope.

(** ** JavaScript values carried by a scanned payload *)

(** The fields of a parsed QR payload are primitives; numbers are the
    integers (timestamps are produced by [Date.now()]). *)
Inductive JsVal :=
| JUndefined
| JNull
| JBool (b : bool)
| JNum (z : Z)
| JStr (s : string).

(** [!v] is [negb (truthy v)]. *)
Definition truthy (v : JsVal) : bool :=
  match v with
  | JUndefined | JNull => false
  | JBool b => b
  | JNum z => negb (z =? 0)
  | JStr s => negb (String.eqb s EmptyString)
  end.

(** String conversion as done by a template literal. *)
Definition js_to_string (v : JsVal) : string :=
  match v with
  | JUndefined => "undefined"
  | JNull => "null"
  | JBool true => "true"
  | JBool false => "false"
  | JNum z => pretty z
  | JStr s => s
  end.

(** [v1 !== v2] is [negb (strict_eq v1 v2)]. *)
Definition strict_eq (v1 v2 : JsVal) : bool :=
  match v1, v2 with
  | JUndefined, JUndefined => true
  | JNull, JNull => true
  | JBool a, JBool b => Bool.eqb a b
  | JNum a, JNum b => a =? b
  | JStr a, JStr b => String.eqb a b
  | _, _ => false
  end.

(** [buf.toString('hex')] *)
Definition hex_digit (n : N) : Ascii.ascii :=
  match n with
  | 0%N => "0" | 1%N => "1" | 2%N => "2" | 3%N => "3"
  | 4%N => "4" | 5%N => "5" | 6%N => "6" | 7%N => "7"
  | 8%N => "8" | 9%N => "9" | 10%N => "a" | 11%N => "b"
  | 12%N => "c" | 13%N => "d" | 14%N => "e" | _ => "f"
  end%char.

Fixpoint toHex (buf : list Byte.byte) : string :=
  match buf with
  | [] => EmptyString
  | b :: rest =>
      let n := Byte.to_N b in
      String (hex_digit (n / 16)%N) (String (hex_digit (n mod 16)%N) (toHex rest))
  end.

(** ** QRCodeGenerator (backend/qr-code-generator.js) *)

Record QrData := mkQrData {
  sessionId : JsVal;
  timestamp : JsVal;
  nonce : JsVal;
  signature : JsVal;
  expiresAt : JsVal
}.

(** What [JSON.parse] handed to [validateQR]: something that is not an
    object (or is null), or an object read through the five fields. *)
Inductive Parsed :=
| PNotObject
| PObject (o : QrData).

(** The object returned by [generateSecureQR]; the rendered image
    ([qr_code]) is left out, nothing below reads it. *)
Record SecureQR := mkSecureQR {
  qr_data : QrData;
  expires_at : string;
  session_id : string;
  secret : string
}.

Inductive Validation :=
| Invalid (error : string)
| Valid (sessionId : JsVal) (timestamp : JsVal).

Record RotatingQR := mkRotatingQR {
  rq_secret : string;
  rq_expires_at : string;
  rq_data : string;
  rq_sessionId : string;
  rq_timestamp : Z
}.

(** ** The store (database/final-optimized-schema.sql) *)

(** A [class_sessions] row; the primary key [id] is the key of the table
    map.  [date] is in days and the two times in milliseconds since
    midnight, so that [new Date(`${date}T${start_time}`)] is
    [date * 86400000 + start_time]. *)
Record ClassSession := mkClassSession {
  class_instance_id : string;
  date : Z;
  start_time : Z;
  end_time : Z;
  status : string;
  notes : option string;
  qr_secret : option string;
  qr_expires_at : option string;
  is_active : bool;
  attendance_count : Z;
  updated_at : Z
}.

Record Enrollment := mkEnrollment {
  enr_student_id : string;
  enr_class_instance_id : string;
  enr_status : string
}.

Record AttendanceRecord := mkAttendanceRecord {
  rec_id : nat;
  rec_session_id : string;
  rec_student_id : string;
  scanned_at : Z;
  rec_status : string;
  minutes_late : Z;
  device_fingerprint : option string;
  ip_address : option string;
  qr_secret_used : option string
}.

Record Notification := mkNotification {
  ntf_user_id : string;
  ntf_type : string;
  ntf_title : string
}.

(** What [global.io] was asked to emit. *)
Inductive Event :=
| session_status_update (sessionId status : string)
| session_activated (sessionId : string)
| session_completed (sessionId : string)
| qr_code_update (room sessionId expires_at : string) (time_remaining : option Z)
| attendance_update (room sessionId studentId status : string)
    (scanned_at attendanceCount totalStudents attendanceRate : Z)
| dashboard_attendance_update (room sessionId : string)
    (attendanceCount totalStudents attendanceRate : Z).

(** The store together with the process state of the server: the
    [activeRotations] map, the live [setInterval] timers (handle to the
    session id its callback closes over), the pending one-hour
    [setTimeout] callbacks and the events emitted so far. *)
Record World := mkWorld {
  class_instances : gmap string string;
  class_sessions : gmap string ClassSession;
  students : list (string * string);
  enrollments : list Enrollment;
  attendance_records : list AttendanceRecord;
  notifications : list Notification;
  activeRotations : gmap string nat;
  intervals : gmap nat string;
  next_timer : nat;
  timeouts : list string;
  io : bool;
  emitted : list Event
}.

Definition set_class_sessions (f : gmap string ClassSession -> gmap string ClassSession)
    (w : World) : World :=
  mkWorld (class_instances w) (f (class_sessions w)) (students w) (enrollments w)
    (attendance_records w) (notifications w) (activeRotations w) (intervals w)
    (next_timer w) (timeouts w) (io w) (emitted w).

Definition set_attendance_records (l : list AttendanceRecord) (w : World) : World :=
  mkWorld (class_instances w) (class_sessions w) (students w) (enrollments w)
    l (notifications w) (activeRotations w) (intervals w)
    (next_timer w) (timeouts w) (io w) (emitted w).

Definition add_notifications (l : list Notification) (w : World) : World :=
  mkWorld (class_instances w) (class_sessions w) (students w) (enrollments w)
    (attendance_records w) (notifications w ++ l) (activeRotations w) (intervals w)
    (next_timer w) (timeouts w) (io w) (emitted w).

Definition set_timers (rot : gmap string nat) (live : gmap nat string) (next : nat)
    (w : World) : World :=
  mkWorld (class_instances w) (class_sessions w) (students w) (enrollments w)
    (attendance_records w) (notifications w) rot live next (timeouts w) (io w)
    (emitted w).

Definition set_timeouts (l : list string) (w : World) : World :=
  mkWorld (class_instances w) (class_sessions w) (students w) (enrollments w)
    (attendance_records w) (notifications w) (activeRotations w) (intervals w)
    (next_timer w) l (io w) (emitted w).

(** [if (global.io) { global.io.emit(...) ... }] *)
Definition emit (evs : list Event) (w : World) : World :=
  mkWorld (class_instances w) (class_sessions w) (students w) (enrollments w)
    (attendance_records w) (notifications w) (activeRotations w) (intervals w)
    (next_timer w) (timeouts w) (io w)
    (if io w then emitted w ++ evs else emitted w).

(** [.single()]: exactly one row, or an error. *)
Definition single {A} (rows : list A) : option A :=
  match rows with
  | [x] => Some x
  | _ => None
  end.

(** [.update(fields).eq('id', sessionId)] *)
Definition update_session (sessionId : string) (f : ClassSession -> ClassSession)
    (w : World) : World :=
  set_class_sessions (alter f sessionId) w.

(** [.from('class_sessions').select('*').eq('id', sessionId).eq('status', st).single()] *)
Definition session_with_status (sessionId st : string) (w : World) : option ClassSession :=
  match class_sessions w !! sessionId with
  | Some session => if String.eqb (status session) st then Some session else None
  | None => None
  end.

(** *** [attendance_records]: UNIQUE(session_id, student_id) and the
    attendance-count trigger *)

Definition rec_key (r : AttendanceRecord) : string * string :=
  (rec_session_id r, rec_student_id r).

(** The rows of a session: [.eq('session_id', sessionId)]. *)
Definition records_of_session (sessionId : string) (l : list AttendanceRecord)
    : list AttendanceRecord :=
  filter (fun r => rec_session_id r = sessionId) l.

(** The rows of a (session, student) pair. *)
Definition records_of (k : string * string) (l : list AttendanceRecord)
    : list AttendanceRecord :=
  filter (fun r => rec_key r = k) l.

Definition with_id (i : nat) (r : AttendanceRecord) : AttendanceRecord :=
  mkAttendanceRecord i (rec_session_id r) (rec_student_id r) (scanned_at r)
    (rec_status r) (minutes_late r) (device_fingerprint r) (ip_address r)
    (qr_secret_used r).

(** One INSERT statement: the rows are added one after the other, each
    checked against UNIQUE(session_id, student_id); a violation rejects
    the whole statement.  The primary key is drawn fresh. *)
Fixpoint accept_rows (table rows : list AttendanceRecord)
    : option (list AttendanceRecord) :=
  match rows with
  | [] => Some table
  | r :: rest =>
      if bool_decide (records_of (rec_key r) table = [])
      then accept_rows (table ++ [with_id (length table) r]) rest
      else None
  end.

Definition set_attendance_count (n : Z) (s : ClassSession) : ClassSession :=
  mkClassSession (class_instance_id s) (date s) (start_time s) (end_time s)
    (status s) (notes s) (qr_secret s) (qr_expires_at s) (is_active s) n
    (updated_at s).

(** [update_session_attendance_count()], the trigger AFTER INSERT OR
    UPDATE ... FOR EACH ROW: the count of the session of the row is
    recomputed. *)
Definition recount (sessionId : string) (w : World) : World :=
  let n := Z.of_nat (length (records_of_session sessionId (attendance_records w))) in
  update_session sessionId (set_attendance_count n) w.

Definition run_trigger (rows : list AttendanceRecord) (w : World) : World :=
  foldr (fun r => recount (rec_session_id r)) w rows.

(** [.from('attendance_records').insert(rows)]; [None] is [insertError]. *)
Definition insert_attendance (rows : list AttendanceRecord) (w : World) : option World :=
  match accept_rows (attendance_records w) rows with
  | Some table => Some (run_trigger rows (set_attendance_records table w))
  | None => None
  end.

(** The row of an insert that names only these columns; the others take
    their defaults. *)
Definition new_record (sessionId studentId : string) (at_ : Z) (st : string)
    (late : Z) (device ip qr : option string) : AttendanceRecord :=
  mkAttendanceRecord 0 sessionId studentId at_ st late device ip qr.

Definition QR_EXPIRY_SECONDS : Z := 30.

Section Engine.
Set Default Proof Using "Type".
(** [process.env.QR_SECRET || 'fsas_qr_secret_key_2024_secure'] *)
Variable QR_SECRET : string.
(** [crypto.createHmac('sha256', key).update(data).digest('hex')] *)
Variable hmac_sha256_hex : string -> string -> string.
(** [new Date(ms).toISOString()] and [new Date(str).getTime()]
    ([None] is NaN). *)
Variable toISOString : Z -> string.
Variable Date_parse : string -> option Z.

Definition generateSecureQR (now : Z) (nonceBytes secretBytes : list Byte.byte)
    (sessionId : string) : SecureQR :=
  let timestamp := now in
  let nonce := toHex nonceBytes in
  let qrCodeSecret := toHex secretBytes in
  let data := sessionId +:+ "-" +:+ pretty timestamp +:+ "-" +:+ nonce in
  let signature := hmac_sha256_hex QR_SECRET data in
  let qrData :=
    {| sessionId := JStr sessionId;
       timestamp := JNum timestamp;
       nonce := JStr nonce;
       signature := JStr signature;
       expiresAt := JStr (toISOString (timestamp + QR_EXPIRY_SECONDS * 1000)) |} in
  {| qr_data := qrData;
     expires_at := toISOString (timestamp + QR_EXPIRY_SECONDS * 1000);
     session_id := sessionId;
     secret := qrCodeSecret |}.

(** [new Date(v).getTime()] for a truthy primitive [v]. *)
Definition Date_getTime (v : JsVal) : option Z :=
  match v with
  | JStr s => Date_parse s
  | JNum z => if Z.abs z <=? 8640000000000000 then Some z else None
  | JBool true => Some 1
  | JBool false | JNull => Some 0
  | JUndefined => None
  end.

(** The loop over [requiredFields]: the first falsy field is reported. *)
Definition missing_field (q : QrData) : option string :=
  if negb (truthy (sessionId q)) then Some "sessionId"
  else if negb (truthy (timestamp q)) then Some "timestamp"
  else if negb (truthy (nonce q)) then Some "nonce"
  else if negb (truthy (signature q)) then Some "signature"
  else if negb (truthy (expiresAt q)) then Some "expiresAt"
  else None.

(** [validateQR]; [now] and [currentTime] are its two clock reads. *)
Definition validateQR (now currentTime : Z) (qrData : Parsed) : Validation :=
  match qrData with
  | PNotObject => Invalid "Invalid QR code format"
  | PObject q =>
      match missing_field q with
      | Some field => Invalid ("Missing required field: " +:+ field)
      | None =>
          match timestamp q with
          | JNum qrTimestamp =>
              if qrTimestamp <=? 0 then Invalid "Invalid timestamp format"
              else
                match Date_getTime (expiresAt q) with
                | None => Invalid "Invalid expiry date format"
                | Some expiresAt =>
                    if expiresAt <? now then Invalid "QR code has expired"
                    else if 30000 <? currentTime - qrTimestamp
                    then Invalid "QR code is too old"
                    else
                      let data := js_to_string (sessionId q) +:+ "-" +:+
                                  js_to_string (timestamp q) +:+ "-" +:+
                                  js_to_string (nonce q) in
                      let expectedSignature := hmac_sha256_hex QR_SECRET data in
                      if negb (strict_eq (JStr expectedSignature) (signature q))
                      then Invalid "Invalid QR code signature"
                      else Valid (sessionId q) (timestamp q)
                end
          | _ => Invalid "Invalid timestamp format"
          end
      end
  end.

Definition generateRotatingQR (now : Z) (sessionId : string) : RotatingQR :=
  let timestamp := now / 30000 * 30000 in
  let data := sessionId +:+ ":" +:+ pretty timestamp in
  let secret := hmac_sha256_hex QR_SECRET data in
  {| rq_secret := secret;
     rq_expires_at := toISOString (timestamp + 30000);
     rq_data := data;
     rq_sessionId := sessionId;
     rq_timestamp := timestamp |}.

(** ** Rotation timers (QR CODE ROTATION MANAGEMENT) *)

(** [setInterval(...)] returns a fresh handle; the old entry of the map,
    if any, is overwritten and its interval is not cleared. *)
Definition startQRCodeRotation (sessionId : string) (w : World) : World :=
  let rotationInterval := next_timer w in
  set_timers (<[sessionId := rotationInterval]> (activeRotations w))
             (<[rotationInterval := sessionId]> (intervals w))
             (S rotationInterval) w.

Definition stopQRCodeRotation (sessionId : string) (w : World) : World :=
  match activeRotations w !! sessionId with
  | Some interval =>
      set_timers (delete sessionId (activeRotations w))
                 (delete interval (intervals w))
                 (next_timer w) w
  | None => w
  end.

Definition set_qr (sec exp : option string) (s : ClassSession) : ClassSession :=
  mkClassSession (class_instance_id s) (date s) (start_time s) (end_time s)
    (status s) (notes s) sec exp (is_active s) (attendance_count s) (updated_at s).

Definition time_remaining_of (now : Z) (expires : string) : option Z :=
  match Date_parse expires with
  | Some e => Some (Z.max 0 ((e - now) / 1000))
  | None => None
  end.

(** One firing of the interval callback of handle [h]; a cleared
    interval does not fire. *)
Definition rotation_tick (now : Z) (nonceBytes secretBytes : list Byte.byte)
    (h : nat) (w : World) : World :=
  match intervals w !! h with
  | None => w
  | Some sessionId =>
      let qrData := generateSecureQR now nonceBytes secretBytes sessionId in
      let w := update_session sessionId
                 (set_qr (Some (secret qrData)) (Some (expires_at qrData))) w in
      emit [qr_code_update ("session-" +:+ sessionId) sessionId (expires_at qrData)
              (time_remaining_of now (expires_at qrData))] w
  end.

(** ** Session lifecycle (SESSION MANAGEMENT ENDPOINTS) *)

(** [res.json({success: true, ...})], or [res.status(code).json({success:
    false, error})]; a caught exception answers 500. *)
Inductive Reply :=
| Json200
| Status (code : Z) (error : string).

Definition store_error : string := "store error".

(** [notes || null] *)
Definition notes_or_null (n : option string) : option string :=
  match n with
  | Some s => if String.eqb s EmptyString then None else Some s
  | None => None
  end.

(** [.from('enrollments').select('student_id')
      .eq('class_instance_id', c).eq('status', 'active')] *)
Definition enrolledStudents (c : string) (w : World) : list Enrollment :=
  filter (fun e => enr_class_instance_id e = c /\ enr_status e = "active")
         (enrollments w).

Definition notifyStudentsSessionActivated (sessionId : string) (w : World) : World :=
  match class_sessions w !! sessionId with
  | None => w
  | Some session =>
      match class_instances w !! class_instance_id session with
      | None => w
      | Some _ =>
          let enrollments := enrolledStudents (class_instance_id session) w in
          add_notifications
            ((fun e => mkNotification (enr_student_id e) "system"
                         "Class session has started!") <$> enrollments) w
      end
  end.

Definition set_active (sec exp : string) (s : ClassSession) : ClassSession :=
  mkClassSession (class_instance_id s) (date s) (start_time s) (end_time s)
    "active" (notes s) (Some sec) (Some exp) true (attendance_count s)
    (updated_at s).

Definition set_activated (sec exp : string) (n : option string) (now : Z)
    (s : ClassSession) : ClassSession :=
  mkClassSession (class_instance_id s) (date s) (start_time s) (end_time s)
    "active" n (Some sec) (Some exp) true (attendance_count s) now.

(** [{status: st, is_active: false, qr_expires_at: null}] *)
Definition set_closed (st : string) (s : ClassSession) : ClassSession :=
  mkClassSession (class_instance_id s) (date s) (start_time s) (end_time s)
    st (notes s) (qr_secret s) None false (attendance_count s) (updated_at s).

Definition set_cancelled (n : option string) (s : ClassSession) : ClassSession :=
  mkClassSession (class_instance_id s) (date s) (start_time s) (end_time s)
    "cancelled" n (qr_secret s) None false (attendance_count s) (updated_at s).

(** POST /api/sessions/:sessionId/activate *)
Definition activate (now : Z) (nonceBytes secretBytes : list Byte.byte)
    (sessionId : string) (notes : option string) (w : World) : Reply * World :=
  match session_with_status sessionId "scheduled" w with
  | None => (Status 400 "Session not found or already activated", w)
  | Some session =>
      let qrData := generateSecureQR now nonceBytes secretBytes sessionId in
      let w := update_session sessionId
                 (set_activated (secret qrData) (expires_at qrData)
                    (notes_or_null notes) now) w in
      let w := startQRCodeRotation sessionId w in
      let w := set_timeouts (timeouts w ++ [sessionId]) w in
      let w := notifyStudentsSessionActivated sessionId w in
      let w := emit [session_status_update sessionId "active";
                     session_activated sessionId] w in
      (Json200, w)
  end.

(** The reconciliation block shared, word for word, by the two
    completion paths. *)
Definition existingRecords (sessionId : string) (w : World) : list AttendanceRecord :=
  records_of_session sessionId (attendance_records w).

Definition studentsNeedingRecords (enrolledStudents : list Enrollment)
    (existingRecords : list AttendanceRecord) : list Enrollment :=
  let existingStudentIds := rec_student_id <$> existingRecords in
  filter (fun enrollment => enr_student_id enrollment ∉ existingStudentIds)
         enrolledStudents.

Definition absentRecords (sessionId : string) (now : Z)
    (studentsNeedingRecords : list Enrollment) : list AttendanceRecord :=
  (fun enrollment =>
     new_record sessionId (enr_student_id enrollment) now "absent" 0 None None None)
  <$> studentsNeedingRecords.

(** [if (studentsNeedingRecords.length > 0) { insert(absentRecords) }] *)
Definition insert_absent (sessionId : string) (now : Z) (session : ClassSession)
    (w : World) : option World :=
  let enrolled := enrolledStudents (class_instance_id session) w in
  let needing := studentsNeedingRecords enrolled (existingRecords sessionId w) in
  match needing with
  | [] => Some w
  | _ => insert_attendance (absentRecords sessionId now needing) w
  end.

(** What an async function without a result did. *)
Inductive Outcome :=
| Returned
| Thrown.

(** [completeSessionAutomatically], the body of the one-hour timeout. *)
Definition completeSessionAutomatically (now : Z) (sessionId : string) (w : World)
    : Outcome * World :=
  match session_with_status sessionId "active" w with
  | None => (Returned, w)
  | Some session =>
      let w := stopQRCodeRotation sessionId w in
      match insert_absent sessionId now session w with
      | None => (Thrown, w)
      | Some w =>
          let w := update_session sessionId (set_closed "completed") w in
          let w := emit [session_status_update sessionId "completed";
                         session_completed sessionId] w in
          (Returned, w)
      end
  end.

(** POST /api/sessions/:sessionId/complete *)
Definition complete (now : Z) (sessionId : string) (w : World) : Reply * World :=
  let w := stopQRCodeRotation sessionId w in
  match class_sessions w !! sessionId with
  | None => (Status 500 store_error, w)
  | Some session =>
      match insert_absent sessionId now session w with
      | None => (Status 500 store_error, w)
      | Some w =>
          let w := update_session sessionId (set_closed "completed") w in
          let w := emit [session_status_update sessionId "completed";
                         session_completed sessionId] w in
          (Json200, w)
      end
  end.

(** POST /api/sessions/:sessionId/pause *)
Definition pause (sessionId : string) (w : World) : Reply * World :=
  match session_with_status sessionId "active" w with
  | None => (Status 400 "Session not found or not active", w)
  | Some session =>
      let w := stopQRCodeRotation sessionId w in
      let w := update_session sessionId (set_closed "paused") w in
      (Json200, w)
  end.

(** POST /api/sessions/:sessionId/resume *)
Definition resume (now : Z) (nonceBytes secretBytes : list Byte.byte)
    (sessionId : string) (w : World) : Reply * World :=
  match session_with_status sessionId "paused" w with
  | None => (Status 400 "Session not found or not paused", w)
  | Some session =>
      let qrData := generateSecureQR now nonceBytes secretBytes sessionId in
      let w := update_session sessionId
                 (set_active (secret qrData) (expires_at qrData)) w in
      let w := startQRCodeRotation sessionId w in
      (Json200, w)
  end.

(** POST /api/sessions/:sessionId/cancel *)
Definition cancel (sessionId : string) (notes : option string) (w : World)
    : Reply * World :=
  let w := stopQRCodeRotation sessionId w in
  match class_sessions w !! sessionId with
  | None => (Status 500 store_error, w)
  | Some _ =>
      (Json200, update_session sessionId (set_cancelled (notes_or_null notes)) w)
  end.

(** One pending [setTimeout] callback (the [i]-th) fires; its own
    try/catch logs whatever the completion throws. *)
Definition fire_timeout (now : Z) (i : nat) (w : World) : World :=
  match timeouts w !! i with
  | None => w
  | Some sessionId =>
      (completeSessionAutomatically now sessionId
         (set_timeouts (delete i (timeouts w)) w)).2
  end.

(** ** Class-management routes *)

(** The body of PUT /api/sessions/:sessionId; an absent (or falsy)
    field is [None].  [notes] is copied whenever it is not undefined,
    null included. *)
Record UpdateBody := mkUpdateBody {
  body_status : option string;
  body_notes : option (option string);
  body_date : option Z;
  body_start_time : option Z;
  body_end_time : option Z
}.

Definition updateData (b : UpdateBody) (s : ClassSession) : ClassSession :=
  mkClassSession (class_instance_id s)
    (default (date s) (body_date b))
    (default (start_time s) (body_start_time b))
    (default (end_time s) (body_end_time b))
    (match body_status b with
     | Some st => if String.eqb st EmptyString then status s else st
     | None => status s
     end)
    (default (notes s) (body_notes b))
    (qr_secret s) (qr_expires_at s) (is_active s) (attendance_count s)
    (updated_at s).

(** PUT /api/sessions/:sessionId *)
Definition put_session (sessionId : string) (b : UpdateBody) (w : World)
    : Reply * World :=
  match class_sessions w !! sessionId with
  | None => (Status 500 store_error, w)
  | Some _ => (Json200, update_session sessionId (updateData b) w)
  end.

Definition sessionStartTime (session : ClassSession) : Z :=
  date session * 86400000 + start_time session.

Record AttendanceBody := mkAttendanceBody {
  body_student_id : string;
  body_device_fingerprint : option string;
  body_ip_address : option string;
  body_qr_secret_used : option string
}.

Inductive AttendanceReply :=
| Recorded (attendance_record : AttendanceRecord)
| Refused (code : Z) (error : string).

(** POST /api/sessions/:sessionId/attendance *)
Definition post_attendance (now : Z) (sessionId : string) (b : AttendanceBody)
    (w : World) : AttendanceReply * World :=
  match class_sessions w !! sessionId with
  | None => (Refused 400 "Session is not active or cancelled", w)
  | Some session =>
      if negb (is_active session && negb (String.eqb (status session) "cancelled"))
      then (Refused 400 "Session is not active or cancelled", w)
      else
        match single (filter (fun e => enr_student_id e = body_student_id b
                                       /\ enr_class_instance_id e = class_instance_id session
                                       /\ enr_status e = "active") (enrollments w)) with
        | None => (Refused 400 "Student not enrolled in this class", w)
        | Some enrollment =>
            let sessionStart := sessionStartTime session in
            let minutesLate := Z.max 0 ((now - sessionStart) / (1000 * 60)) in
            let status := if 5 <? minutesLate then "late" else "present" in
            let row := new_record sessionId (body_student_id b) now status minutesLate
                         (body_device_fingerprint b) (body_ip_address b)
                         (body_qr_secret_used b) in
            match insert_attendance [row] w with
            | None => (Refused 500 store_error, w)
            | Some w' =>
                (Recorded (with_id (length (attendance_records w)) row), w')
            end
        end
  end.

(** GET /api/sessions/:sessionId/qr: a scheduled session is opened with
    a first token (the signed payload goes to the client only); no
    rotation is started. *)
Definition get_session_qr (now : Z) (nonceBytes secretBytes : list Byte.byte)
    (sessionId : string) (w : World) : Reply * World :=
  match session_with_status sessionId "scheduled" w with
  | None => (Status 404 "Session not found or cancelled", w)
  | Some session =>
      let timestamp := now in
      let qrCodeSecret := toHex secretBytes in
      let expiresAt := toISOString (timestamp + 30 * 1000) in
      (Json200, update_session sessionId (set_active qrCodeSecret expiresAt) w)
  end.

(** ** Instructor override *)

Definition validStatuses : list string := ["present"; "late"; "absent"; "excused"].

Definition set_rec_status (st : string) (r : AttendanceRecord) : AttendanceRecord :=
  mkAttendanceRecord (rec_id r) (rec_session_id r) (rec_student_id r) (scanned_at r)
    st (minutes_late r) (device_fingerprint r) (ip_address r) (qr_secret_used r).

(** [.update({status, ...}).eq('id', id)]; the audit columns
    ([status_changed_at], [status_change_reason]) are left out of the
    rows. *)
Definition update_record_status (id : nat) (st : string) (l : list AttendanceRecord)
    : list AttendanceRecord :=
  (fun r => if Nat.eqb (rec_id r) id then set_rec_status st r else r) <$> l.

(** PATCH /api/sessions/:sessionId/attendance/:studentNumber *)
Definition patch_attendance (now : Z) (sessionId studentNumber st : string)
    (w : World) : Reply * World :=
  if negb (bool_decide (st ∈ validStatuses))
  then (Status 400 "Invalid status. Must be one of: present, late, absent, excused", w)
  else
    match session_with_status sessionId "completed" w with
    | None => (Status 400 "Session not found or not completed", w)
    | Some session =>
        match single (filter (fun s => s.1 = studentNumber) (students w)) with
        | None => (Status 400 "Student not found", w)
        | Some student =>
            let studentUuid := student.2 in
            match single (records_of (sessionId, studentUuid) (attendance_records w)) with
            | Some existingRecord =>
                (Json200,
                 run_trigger [existingRecord]
                   (set_attendance_records
                      (update_record_status (rec_id existingRecord) st
                         (attendance_records w)) w))
            | None =>
                match insert_attendance
                        [new_record sessionId studentUuid now st 0 None None None] w with
                | None => (Status 500 store_error, w)
                | Some w' => (Json200, w')
                end
            end
        end
    end.

(** ** POST /api/attendance/scan (backend/attendance-api.js) *)

(** [req.body.qrData]: absent, a string that [JSON.parse] rejects, or a
    value (given as such or parsed from a string). *)
Inductive QrInput :=
| QrMissing
| QrUnparseable
| QrValue (p : Parsed).

(** [body_studentId] is the empty string when the field is absent. *)
Record ScanRequest := mkScanRequest {
  body_qrData : QrInput;
  body_studentId : string;
  header_user_agent : option string;
  req_ip : option string
}.

Inductive ScanResult :=
| ScanRefused (code : Z) (error : string)
| ScanAlreadyRecorded (id : nat) (at_ : Z) (st : string)
| ScanRecorded (attendance : AttendanceRecord) (minutes_late : Z).

(** What the handler holds once the token, the session, the student and
    the enrollment have been looked up. *)
Record Attempt := mkAttempt {
  att_sessionId : string;
  att_session : ClassSession;
  att_professor_id : string;
  att_studentId : string;
  att_user_id : string;
  att_device : option string;
  att_ip : option string
}.

Definition att_key (a : Attempt) : string * string :=
  (att_sessionId a, att_user_id a).

(** From the request to the enrollment check. *)
Definition scan_resolve (now currentTime : Z) (req : ScanRequest) (w : World)
    : ScanResult + Attempt :=
  match body_qrData req with
  | QrMissing => inl (ScanRefused 400 "QR data and student ID are required")
  | qrData =>
      if String.eqb (body_studentId req) EmptyString
      then inl (ScanRefused 400 "QR data and student ID are required")
      else
        match qrData with
        | QrMissing | QrUnparseable => inl (ScanRefused 400 "Invalid QR code format")
        | QrValue parsedQRData =>
            match validateQR now currentTime parsedQRData with
            | Invalid error =>
                inl (ScanRefused 400
                       (if String.eqb error EmptyString then "Invalid QR code" else error))
            | Valid sid _ =>
                let sessionId := js_to_string sid in
                match session_with_status sessionId "active" w with
                | None => inl (ScanRefused 404 "Session not found or not active")
                | Some session =>
                    match class_instances w !! class_instance_id session with
                    | None => inl (ScanRefused 404 "Session not found or not active")
                    | Some professor_id =>
                        match single (filter (fun st => st.1 = body_studentId req)
                                        (students w)) with
                        | None => inl (ScanRefused 404 "Student record not found")
                        | Some studentRecord =>
                            match single
                                    (filter (fun e =>
                                               enr_student_id e = studentRecord.2
                                               /\ enr_class_instance_id e
                                                  = class_instance_id session)
                                       (enrollments w)) with
                            | None =>
                                inl (ScanRefused 403 "You are not enrolled in this class")
                            | Some enrollment =>
                                inr (mkAttempt sessionId session professor_id
                                       (body_studentId req) studentRecord.2
                                       (Some (default "unknown" (header_user_agent req)))
                                       (req_ip req))
                            end
                        end
                    end
                end
            end
        end
  end.

(** "Check if student has already scanned for this session" *)
Definition scan_duplicate_check (a : Attempt) (w : World) : option ScanResult :=
  match single (records_of (att_key a) (attendance_records w)) with
  | Some existingAttendance =>
      Some (ScanAlreadyRecorded (rec_id existingAttendance)
              (scanned_at existingAttendance) (rec_status existingAttendance))
  | None => None
  end.

Definition attended (r : AttendanceRecord) : Prop :=
  rec_status r = "present" \/ rec_status r = "late" \/ rec_status r = "excused".

(** [Math.round((attendedCount / totalStudents) * 100)] *)
Definition attendanceRate (attendedCount totalStudents : Z) : Z :=
  if 0 <? totalStudents
  then (200 * attendedCount + totalStudents) / (2 * totalStudents)
  else 0.

(** From the lateness computation to the answer; [currentTime] is the
    [new Date()] read after the duplicate check. *)
Definition scan_record (currentTime : Z) (a : Attempt) (w : World)
    : ScanResult * World :=
  let session := att_session a in
  let sessionId := att_sessionId a in
  let minutesLate := (currentTime - sessionStartTime session) / (1000 * 60) in
  let isLate := 5 <? minutesLate in
  let row := new_record sessionId (att_user_id a) currentTime
               (if isLate then "late" else "present")
               (if isLate then minutesLate else 0)
               (att_device a) (att_ip a) None in
  match insert_attendance [row] w with
  | None => (ScanRefused 500 "Failed to record attendance", w)
  | Some w1 =>
      let attendanceRecord := with_id (length (attendance_records w)) row in
      let w2 := update_session sessionId
                  (set_attendance_count (attendance_count session + 1)) w1 in
      let attendanceRecords := records_of_session sessionId (attendance_records w2) in
      let attendedCount := Z.of_nat (length (filter attended attendanceRecords)) in
      let totalStudents := Z.of_nat (length attendanceRecords) in
      let rate := attendanceRate attendedCount totalStudents in
      let w3 := emit [attendance_update ("session-" +:+ sessionId) sessionId
                        (att_studentId a) (rec_status attendanceRecord)
                        (scanned_at attendanceRecord) attendedCount totalStudents rate;
                      dashboard_attendance_update
                        ("professor-" +:+ att_professor_id a) sessionId
                        attendedCount totalStudents rate] w2 in
      let w4 := add_notifications
                  [mkNotification (att_user_id a) "attendance_recorded"
                     "Attendance recorded successfully!"] w3 in
      (ScanRecorded attendanceRecord minutesLate, w4)
  end.

(** The handler run without interruption; [now] and [currentTime] are
    the clock reads of [validateQR], [scanTime] the later [new Date()]. *)
Definition scan (now currentTime scanTime : Z) (req : ScanRequest) (w : World)
    : ScanResult * World :=
  match scan_resolve now currentTime req w with
  | inl r => (r, w)
  | inr a =>
      match scan_duplicate_check a w with
      | Some r => (r, w)
      | None => scan_record scanTime a w
      end
  end.

(** *** Overlapping scan requests

    Every [await] is a point where another request may run.  A request
    that has passed the enrollment check is [Waiting]; its duplicate
    check reads the table and, when it finds nothing, fixes
    [currentTime] ([Checked]); the insert and what follows it run in a
    later turn. *)
Inductive Phase :=
| Waiting
| Checked (currentTime : Z)
| Done (r : ScanResult).

Record Thread := mkThread {
  attempt : Attempt;
  phase : Phase
}.

Definition thread_step (now : Z) (t : Thread) (w : World) : Thread * World :=
  match phase t with
  | Waiting =>
      match scan_duplicate_check (attempt t) w with
      | Some r => (mkThread (attempt t) (Done r), w)
      | None => (mkThread (attempt t) (Checked now), w)
      end
  | Checked currentTime =>
      let rw := scan_record currentTime (attempt t) w in
      (mkThread (attempt t) (Done rw.1), rw.2)
  | Done _ => (t, w)
  end.

(** Thread [i] takes its next turn at clock reading [now]. *)
Definition pool_step (st : list Thread * World) (turn : nat * Z)
    : list Thread * World :=
  match st.1 !! turn.1 with
  | Some t =>
      let tw := thread_step turn.2 t st.2 in
      (<[turn.1 := tw.1]> st.1, tw.2)
  | None => st
  end.

Definition run_pool (schedule : list (nat * Z)) (st : list Thread * World)
    : list Thread * World :=
  foldl pool_step st schedule.

(** ** Further routes *)

Definition set_enrollments (l : list Enrollment) (w : World) : World :=
  mkWorld (class_instances w) (class_sessions w) (students w) l
    (attendance_records w) (notifications w) (activeRotations w) (intervals w)
    (next_timer w) (timeouts w) (io w) (emitted w).

Definition set_dropped (e : Enrollment) : Enrollment :=
  mkEnrollment (enr_student_id e) (enr_class_instance_id e) "dropped".

(** POST /api/class-instances/:instanceId/unenroll: the enrollment of the
    student in the class is marked dropped; with [.single()] anything
    but one matching row is an error and nothing is written.  The
    student is told when the class can be read back. *)
Definition unenroll (instanceId student_id : string) (w : World) : Reply * World :=
  match single (filter (fun e => enr_class_instance_id e = instanceId
                                 /\ enr_student_id e = student_id) (enrollments w)) with
  | None => (Status 500 store_error, w)
  | Some _ =>
      let w := set_enrollments
                 ((fun e => if decide (enr_class_instance_id e = instanceId
                                       /\ enr_student_id e = student_id)
                            then set_dropped e else e) <$> enrollments w) w in
      let w := match class_instances w !! instanceId with
               | Some _ =>
                   add_notifications
                     [mkNotification student_id "system"
                        "You've been removed from a class"] w
               | None => w
               end in
      (Json200, w)
  end.



(** GET /api/sessions/:sessionId/qr-code-legacy: the rotating code of
    the current 30-second bucket ([None] is the 404). *)
Definition get_qr_code_legacy (now : Z) (sessionId : string) (w : World)
    : option RotatingQR :=
  match session_with_status sessionId "active" w with
  | None => None
  | Some session => Some (generateRotatingQR now sessionId)
  end.

(** What the scan handler reads of a rotating code: it has [sessionId]
    and [timestamp], and no [nonce], [signature] or [expiresAt] (its
    expiry is named [expires_at]). *)
Definition rotating_qr_payload (qr : RotatingQR) : QrData :=
  {| sessionId := JStr (rq_sessionId qr);
     timestamp := JNum (rq_timestamp qr);
     nonce := JUndefined;
     signature := JUndefined;
     expiresAt := JUndefined |}.

(** *** Backfill of absent rows *)

(** [.eq('class_instance_id', classId).eq('status', 'completed')
      .order('date', { ascending: true })] *)
Definition by_date (a b : string * ClassSession) : Prop :=
  date a.2 <= date b.2.

#[global] Instance by_date_dec : RelDecision by_date.
Proof. intros a b. unfold by_date. apply _. Defined.

Definition completed_sessions (classId : string) (w : World)
    : list (string * ClassSession) :=
  merge_sort by_date
    (filter (fun p => class_instance_id p.2 = classId /\ status p.2 = "completed")
       (map_to_list (class_sessions w))).

(** The loop over the sessions; [None] is a thrown [insertError], which
    leaves the rows of the sessions already processed in place.  [now]
    gives the [new Date()] read while the rows of a session are built. *)
Fixpoint backfill_loop (now : string -> Z) (enrolledStudents : list Enrollment)
    (sessions : list (string * ClassSession)) (totalRecordsCreated : nat)
    (w : World) : option nat * World :=
  match sessions with
  | [] => (Some totalRecordsCreated, w)
  | session :: rest =>
      let existingRecords := existingRecords session.1 w in
      let needing := studentsNeedingRecords enrolledStudents existingRecords in
      match needing with
      | [] => backfill_loop now enrolledStudents rest totalRecordsCreated w
      | _ =>
          let rows := absentRecords session.1 (now session.1) needing in
          match insert_attendance rows w with
          | None => (None, w)
          | Some w' =>
              backfill_loop now enrolledStudents rest
                (totalRecordsCreated + length rows) w'
          end
      end
  end.

Inductive BackfillReply :=
| Backfilled (records_created sessions_processed : nat)
| BackfillFailed.

(** POST /api/classes/:classId/backfill-attendance *)
Definition backfill_attendance (now : string -> Z) (classId : string) (w : World)
    : BackfillReply * World :=
  let sessions := completed_sessions classId w in
  let enrolled := enrolledStudents classId w in
  match backfill_loop now enrolled sessions 0 w with
  | (Some total, w') => (Backfilled total (length sessions), w')
  | (None, w') => (BackfillFailed, w')
  end.

(** The payload that GET /api/sessions/:sessionId/qr encodes in the image
    it answers with: the signature covers the secret as well, and there
    is no [expiresAt] field. *)
Definition session_qr_payload (now : Z) (nonceBytes secretBytes : list Byte.byte)
    (sessionId : string) : QrData :=
  let timestamp := now in
  let nonce := toHex nonceBytes in
  let qrCodeSecret := toHex secretBytes in
  let data := sessionId +:+ "-" +:+ pretty timestamp +:+ "-" +:+ nonce
              +:+ "-" +:+ qrCodeSecret in
  let signature := hmac_sha256_hex QR_SECRET data in
  {| sessionId := JStr sessionId;
     timestamp := JNum timestamp;
     nonce := JStr nonce;
     signature := JStr signature;
     expiresAt := JUndefined |}.

(** ** Session templates (SESSION TEMPLATE GENERATION) *)










(** ** GET /api/attendance/student/:studentId/stats
       (backend/attendance-api.js) *)








(** ** Enrollment (class-management routes) *)

(** The columns of [class_instances] that the enrollment routes read;
    the deadline is the instant [new Date(enrollment_deadline)]. *)
Record ClassInstance := mkClassInstance {
  ci_class_code : string;
  ci_is_active : bool;
  ci_enrollment_deadline : Z;
  ci_max_students : Z;
  ci_current_enrollment : Z;
  ci_professor_id : string
}.

(** The store seen by the enrollment routes: the world together with
    these columns. *)
Record Desk := mkDesk {
  desk_classes : gmap string ClassInstance;
  desk_world : World
}.

Definition set_current_enrollment (n : Z) (c : ClassInstance) : ClassInstance :=
  mkClassInstance (ci_class_code c) (ci_is_active c) (ci_enrollment_deadline c)
    (ci_max_students c) n (ci_professor_id c).

Definition active_in (c : string) (l : list Enrollment) : list Enrollment :=
  filter (fun e => enr_class_instance_id e = c /\ enr_status e = "active") l.

(** [update_enrollment_count()], the trigger AFTER INSERT OR UPDATE ...
    FOR EACH ROW on [enrollments]. *)
Definition recount_enrollment (c : string) (d : Desk) : Desk :=
  let n := Z.of_nat (length (active_in c (enrollments (desk_world d)))) in
  mkDesk (alter (set_current_enrollment n) c (desk_classes d)) (desk_world d).

(** One INSERT into [enrollments]: the rows are added one after the
    other, each checked against UNIQUE(student_id, class_instance_id)
    and against the other constraints of the table (its foreign keys
    and NOT NULL columns), given as [other]; a violation rejects the
    whole statement. *)
Fixpoint accept_enrollments (other : Enrollment -> bool)
    (table rows : list Enrollment) : option (list Enrollment) :=
  match rows with
  | [] => Some table
  | r :: rest =>
      if bool_decide ((enr_student_id r, enr_class_instance_id r)
                      ∉ (fun e => (enr_student_id e, enr_class_instance_id e))
                        <$> table)
         && other r
      then accept_enrollments other (table ++ [r]) rest
      else None
  end.

Definition insert_enrollments (other : Enrollment -> bool) (rows : list Enrollment)
    (d : Desk) : option Desk :=
  match accept_enrollments other (enrollments (desk_world d)) rows with
  | Some table =>
      Some (foldr (fun r => recount_enrollment (enr_class_instance_id r))
              (mkDesk (desk_classes d) (set_enrollments table (desk_world d))) rows)
  | None => None
  end.

(** POST /api/class-instances/:instanceId/enroll; [student_ids] is
    [None] when the body holds no array. *)
Definition enroll (other : Enrollment -> bool) (now : Z) (instanceId : string)
    (student_ids : option (list string)) (d : Desk) : Reply * Desk :=
  match student_ids with
  | None | Some [] => (Status 400 "Student IDs array is required", d)
  | Some student_ids =>
      match desk_classes d !! instanceId with
      | None => (Status 404 "Class instance not found", d)
      | Some classInstance =>
          if ci_enrollment_deadline classInstance <? now
          then (Status 400 "Enrollment deadline has passed", d)
          else if ci_max_students classInstance
                  <? ci_current_enrollment classInstance
                     + Z.of_nat (length student_ids)
          then (Status 400 "Not enough capacity for all students", d)
          else
            let enrollmentData :=
              (fun student_id => mkEnrollment student_id instanceId "active")
              <$> student_ids in
            match insert_enrollments other enrollmentData d with
            | None => (Status 500 store_error, d)
            | Some d' => (Json200, d')
            end
      end
  end.

(** POST /api/enroll/self; an absent field is the empty string. *)
Definition self_enroll (other : Enrollment -> bool) (now : Z)
    (class_code student_id : string) (d : Desk) : Reply * Desk :=
  if String.eqb class_code EmptyString || String.eqb student_id EmptyString
  then (Status 400 "Class code and student ID are required", d)
  else
    match single (filter (fun p => ci_class_code p.2 = class_code
                                   /\ ci_is_active p.2 = true)
                    (map_to_list (desk_classes d))) with
    | None => (Status 404 "Invalid class code", d)
    | Some (id, classInstance) =>
        if ci_enrollment_deadline classInstance <? now
        then (Status 400 "Enrollment deadline has passed", d)
        else if ci_max_students classInstance <=? ci_current_enrollment classInstance
        then (Status 400 "Class is full", d)
        else
          match single (filter (fun e => enr_student_id e = student_id
                                         /\ enr_class_instance_id e = id)
                          (enrollments (desk_world d))) with
          | Some existingEnrollment =>
              (Status 400 "Already enrolled in this class", d)
          | None =>
              match insert_enrollments other
                      [mkEnrollment student_id id "active"] d with
              | None => (Status 500 store_error, d)
              | Some d' => (Json200, d')
              end
          end
    end.

(** POST /api/class-instances/:instanceId/unenroll on this store: the
    trigger runs for the row that was updated. *)
Definition desk_unenroll (instanceId student_id : string) (d : Desk) : Reply * Desk :=
  let rw := unenroll instanceId student_id (desk_world d) in
  match rw.1 with
  | Json200 => (Json200, recount_enrollment instanceId (mkDesk (desk_classes d) rw.2))
  | r => (r, d)
  end.

(** * Specification predicates *)

Definition with_expiresAt (forged : JsVal) (q : QrData) : QrData :=
  mkQrData (sessionId q) (timestamp q) (nonce q) (signature q) forged.

(** UNIQUE(session_id, student_id), as a property of a table. *)
Definition unique_records (w : World) : Prop :=
  NoDup (rec_key <$> attendance_records w).

(** UNIQUE(student_id, class_instance_id) on [enrollments]. *)
Definition enr_key (e : Enrollment) : string * string :=
  (enr_student_id e, enr_class_instance_id e).

Definition unique_enrollments (w : World) : Prop :=
  NoDup (enr_key <$> enrollments w).

(** The rows as stored: the primary keys are drawn in order. *)
Fixpoint assign_ids (n : nat) (rows : list AttendanceRecord) : list AttendanceRecord :=
  match rows with
  | [] => []
  | r :: rest => with_id n r :: assign_ids (S n) rest
  end.

(** Two rows that differ at most in [attendance_count]. *)
Definition upto_count (o o' : option ClassSession) : Prop :=
  match o, o' with
  | Some s, Some s' => exists n, s' = set_attendance_count n s
  | None, None => True
  | _, _ => False
  end.

(** A row that has been closed. *)
Definition closed_as (st : string) (s : ClassSession) : Prop :=
  status s = st /\ is_active s = false /\ qr_expires_at s = None.

(** The data-model invariant of a session row. *)
Definition session_ok (s : ClassSession) : Prop :=
  (is_active s = true <-> status s = "active")
  /\ (status s <> "active" -> qr_expires_at s = None).

Definition sessions_ok (w : World) : Prop :=
  forall sid s, class_sessions w !! sid = Some s -> session_ok s.

(** The registry and the live intervals describe each other, and the
    handles in use are below the next one to be drawn. *)
Definition registry_ok (w : World) : Prop :=
  (forall sid h, activeRotations w !! sid = Some h <-> intervals w !! h = Some sid)
  /\ (forall h sid, intervals w !! h = Some sid -> (h < next_timer w)%nat).

(** Only rows in status active are being rotated. *)
Definition rotating_active (w : World) : Prop :=
  forall sid h s,
    activeRotations w !! sid = Some h ->
    class_sessions w !! sid = Some s ->
    status s = "active".

Definition engine_inv (w : World) : Prop :=
  sessions_ok w /\ registry_ok w /\ rotating_active w.


(** The operations of the session engine, run one at a time.  The
    generic PUT /api/sessions/:sessionId is not one of them. *)
Inductive engine_step : World -> World -> Prop :=
| step_activate now nb sb sid notes w :
    engine_step w (activate now nb sb sid notes w).2
| step_pause sid w :
    engine_step w (pause sid w).2
| step_resume now nb sb sid w :
    engine_step w (resume now nb sb sid w).2
| step_complete now sid w :
    engine_step w (complete now sid w).2
| step_cancel sid notes w :
    engine_step w (cancel sid notes w).2
| step_timeout now i w :
    engine_step w (fire_timeout now i w)
| step_tick now nb sb h w :
    engine_step w (rotation_tick now nb sb h w)
| step_scan now currentTime scanTime req w :
    engine_step w (scan now currentTime scanTime req w).2
| step_post_attendance now sid b w :
    engine_step w (post_attendance now sid b w).2
| step_get_session_qr now nb sb sid w :
    engine_step w (get_session_qr now nb sb sid w).2
| step_patch_attendance now sid student st w :
    engine_step w (patch_attendance now sid student st w).2.






(** ** Predicates of the further properties *)

(** [attendance_count] of every session is the number of its rows. *)
Definition counts_ok (w : World) : Prop :=
  forall sid s,
    class_sessions w !! sid = Some s ->
    attendance_count s
    = Z.of_nat (length (records_of_session sid (attendance_records w))).

(** The columns of a session that say when and for which class it is held. *)
Definition same_schedule (s s' : ClassSession) : Prop :=
  class_instance_id s' = class_instance_id s
  /\ date s' = date s
  /\ start_time s' = start_time s
  /\ end_time s' = end_time s.

(** The edges of the status graph. *)
Definition lifecycle_edge (st st' : string) : Prop :=
  st' = st
  \/ (st = "scheduled" /\ st' = "active")
  \/ (st = "active" /\ st' = "paused")
  \/ (st = "paused" /\ st' = "active")
  \/ st' = "completed"
  \/ st' = "cancelled".

Definition closed (s : ClassSession) : Prop :=
  status s = "completed" \/ status s = "cancelled".

(** Everything of an attendance row but its status. *)
Definition row_core (r : AttendanceRecord)
    : nat * (string * string) * Z * Z * option string * option string * option string :=
  (rec_id r, rec_key r, scanned_at r, minutes_late r, device_fingerprint r,
   ip_address r, qr_secret_used r).

(** The engine's operations together with the other routes that write
    to the store, run one at a time. *)
Inductive route_step : World -> World -> Prop :=
| route_engine w w' :
    engine_step w w' -> route_step w w'
| route_put_session sid b w :
    route_step w (put_session sid b w).2
| route_unenroll c u w :
    route_step w (unenroll c u w).2
| route_backfill now c w :
    route_step w (backfill_attendance now c w).2.

(** How one operation may move a session row: it is neither created nor
    deleted, its schedule stays, and its status follows an edge. *)
Definition row_moves (o o' : option ClassSession) : Prop :=
  match o, o' with
  | Some s, Some s' => same_schedule s s' /\ lifecycle_edge (status s) (status s')
  | None, None => True
  | _, _ => False
  end.

(** What the scan handler reads of a session row. *)
Definition session_view (s1 s2 : ClassSession) : Prop :=
  status s1 = status s2
  /\ class_instance_id s1 = class_instance_id s2
  /\ date s1 = date s2
  /\ start_time s1 = start_time s2.

(** Two worlds that the scan handler cannot tell apart before it
    writes: same classes, students and attendance rows, session rows
    alike in what it reads, and the same (student, class) pairs with
    exactly one enrollment row. *)
Definition scan_view (w1 w2 : World) : Prop :=
  class_instances w1 = class_instances w2
  /\ students w1 = students w2
  /\ attendance_records w1 = attendance_records w2
  /\ (forall sid,
         match class_sessions w1 !! sid, class_sessions w2 !! sid with
         | Some s1, Some s2 => session_view s1 s2
         | None, None => True
         | _, _ => False
         end)
  /\ (forall u c,
         is_Some (single (filter (fun e => enr_student_id e = u
                                           /\ enr_class_instance_id e = c)
                            (enrollments w1)))
         <-> is_Some (single (filter (fun e => enr_student_id e = u
                                               /\ enr_class_instance_id e = c)
                                (enrollments w2)))).






(** [current_enrollment] of every class is the number of its active
    enrollments and does not exceed [max_students]. *)
Definition desk_ok (d : Desk) : Prop :=
  forall c ci,
    desk_classes d !! c = Some ci ->
    ci_current_enrollment ci
    = Z.of_nat (length (active_in c (enrollments (desk_world d))))
    /\ ci_current_enrollment ci <= ci_max_students ci.

(** The three enrollment routes, run one at a time. *)
Inductive desk_step (other : Enrollment -> bool) : Desk -> Desk -> Prop :=
| desk_step_enroll now c ids d :
    desk_step other d (enroll other now c ids d).2
| desk_step_self now code u d :
    desk_step other d (self_enroll other now code u d).2
| desk_step_unenroll c u d :
    desk_step other d (desk_unenroll c u d).2.

(** * Properties *)

(** The proofs below that do not mention the runtime functions are
    stated without them. *)
Ltac no_runtime :=
  try clear Date_parse; try clear toISOString;
  try clear hmac_sha256_hex; try clear QR_SECRET.

(** ** Token codec *)

Lemma truthy_JStr (s : string) : s <> EmptyString -> truthy (JStr s) = true.
Proof.
  intros Hs. simpl. apply negb_true_iff. apply String.eqb_neq. exact Hs.
Qed.

Lemma toHex_nonempty (buf : list Byte.byte) : buf <> [] -> toHex buf <> EmptyString.
Proof. destruct buf as [|b rest]; [congruence | discriminate]. Qed.

Lemma strict_eq_refl_str (s : string) : strict_eq (JStr s) (JStr s) = true.
Proof. simpl. apply String.eqb_refl. Qed.

(** A payload whose age exceeds 30 seconds at the second clock read is
    refused whatever its fields hold. *)
Lemma validateQR_too_old (q : QrData) (t0 now currentTime : Z) :
  timestamp q = JNum t0 ->
  30000 < currentTime - t0 ->
  exists error, validateQR now currentTime (PObject q) = Invalid error.
Proof.
  intros Hts Hold. unfold validateQR. rewrite Hts.
  destruct (missing_field q); [eauto|].
  destruct (t0 <=? 0); [eauto|].
  destruct (Date_getTime (expiresAt q)) as [e|]; [|eauto].
  destruct (e <? now); [eauto|].
  assert ((30000 <? currentTime - t0) = true) as -> by (apply Z.ltb_lt; lia).
  eauto.
Qed.

(** C3: a token issued at [t0] verifies at every clock reading up to
    [t0 + 30000] and is refused after it; with the [expiresAt] field
    replaced by anything at all it is still refused once more than 30
    seconds have passed since [timestamp]. *)
Theorem validateQR_window (sid : string) (t0 : Z) (nonceBytes secretBytes : list Byte.byte) :
  sid <> EmptyString ->
  0 < t0 ->
  length nonceBytes = 16%nat ->
  hmac_sha256_hex QR_SECRET
    (sid +:+ "-" +:+ pretty t0 +:+ "-" +:+ toHex nonceBytes) <> EmptyString ->
  toISOString (t0 + 30000) <> EmptyString ->
  Date_parse (toISOString (t0 + 30000)) = Some (t0 + 30000) ->
  let token := qr_data (generateSecureQR t0 nonceBytes secretBytes sid) in
  (forall now currentTime,
      now <= t0 + 30000 -> currentTime <= t0 + 30000 ->
      validateQR now currentTime (PObject token) = Valid (JStr sid) (JNum t0))
  /\ (forall now currentTime,
         t0 + 30000 < now \/ t0 + 30000 < currentTime ->
         exists error, validateQR now currentTime (PObject token) = Invalid error)
  /\ (forall forged now currentTime,
         30000 < currentTime - t0 ->
         exists error,
           validateQR now currentTime (PObject (with_expiresAt forged token))
           = Invalid error).
Proof.
  intros Hsid Ht0 Hlen Hsig Hiso Hparse token.
  assert (Hnonce : toHex nonceBytes <> EmptyString).
  { apply toHex_nonempty. intros ->. discriminate Hlen. }
  assert (Hmiss : missing_field token = None).
  { unfold missing_field, token, generateSecureQR; cbn [qr_data sessionId timestamp nonce signature expiresAt].
    rewrite !truthy_JStr by assumption.
    replace (truthy (JNum t0)) with true; [reflexivity|].
    simpl. symmetry. apply negb_true_iff, Z.eqb_neq. lia. }
  assert (Hexp : Date_getTime (expiresAt token) = Some (t0 + 30000)).
  { unfold token, generateSecureQR; cbn [qr_data expiresAt Date_getTime].
    exact Hparse. }
  assert (Hpos : (t0 <=? 0) = false) by (apply Z.leb_gt; lia).
  repeat split.
  - intros now currentTime Hn Hc.
    unfold validateQR. rewrite Hmiss.
    change (timestamp token) with (JNum t0). cbv beta iota. rewrite Hpos, Hexp.
    assert ((t0 + 30000 <? now) = false) as -> by (apply Z.ltb_ge; lia).
    assert ((30000 <? currentTime - t0) = false) as -> by (apply Z.ltb_ge; lia).
    unfold token, generateSecureQR; cbn [qr_data sessionId timestamp nonce signature js_to_string].
    rewrite strict_eq_refl_str. reflexivity.
  - intros now currentTime [Hn|Hc].
    + unfold validateQR. rewrite Hmiss.
      change (timestamp token) with (JNum t0). cbv beta iota. rewrite Hpos, Hexp.
      assert ((t0 + 30000 <? now) = true) as -> by (apply Z.ltb_lt; lia).
      eauto.
    + apply validateQR_too_old with (t0 := t0); [reflexivity | lia].
  - intros forged now currentTime Hold.
    apply validateQR_too_old with (t0 := t0); [reflexivity | lia].
Qed.

(** C10: two calls of [generateRotatingQR] in the same 30-second bucket
    return the same object, and [expires_at] is the end of the bucket:
    later than the call, at most 30 seconds later, and exactly 30
    seconds later only for a call on a bucket boundary. *)
Theorem generateRotatingQR_bucket (sid : string) (now now' : Z) :
  now / 30000 = now' / 30000 ->
  generateRotatingQR now sid = generateRotatingQR now' sid
  /\ rq_expires_at (generateRotatingQR now sid)
     = toISOString ((now / 30000 + 1) * 30000)
  /\ now < (now / 30000 + 1) * 30000 <= now + 30000
  /\ ((now / 30000 + 1) * 30000 = now + 30000 <-> now mod 30000 = 0).
Proof.
  intros Hb. unfold generateRotatingQR. rewrite Hb.
  split; [reflexivity|]. cbn [rq_expires_at].
  split; [f_equal; lia|].
  pose proof (Z.div_mod now' 30000 ltac:(lia)) as Hdm.
  pose proof (Z.mod_pos_bound now' 30000 ltac:(lia)) as Hm.
  pose proof (Z.div_mod now 30000 ltac:(lia)) as Hdm'.
  pose proof (Z.mod_pos_bound now 30000 ltac:(lia)) as Hm'.
  rewrite Hb in *. lia.
Qed.

(** ** The attendance table *)

Lemma rec_key_with_id (i : nat) (r : AttendanceRecord) :
  rec_key (with_id i r) = rec_key r.
Proof. reflexivity. Qed.

Lemma assign_ids_keys (n : nat) (rows : list AttendanceRecord) :
  rec_key <$> assign_ids n rows = rec_key <$> rows.
Proof.
  revert n. induction rows as [|r rest IH]; intros n; [reflexivity|].
  cbn. f_equal. apply IH.
Qed.

Lemma assign_ids_length (n : nat) (rows : list AttendanceRecord) :
  length (assign_ids n rows) = length rows.
Proof.
  revert n. induction rows as [|r rest IH]; intros n; [reflexivity|].
  cbn. f_equal. apply IH.
Qed.

Lemma assign_ids_Forall (P : AttendanceRecord -> Prop) (n : nat)
    (rows : list AttendanceRecord) :
  (forall i r, P r -> P (with_id i r)) ->
  Forall P rows -> Forall P (assign_ids n rows).
Proof.
  intros HP H. revert n. induction H as [|r rest Hr _ IH]; intros n; cbn.
  - constructor.
  - constructor; [apply HP, Hr | apply IH].
Qed.

Lemma records_of_nil (k : string * string) (table : list AttendanceRecord) :
  records_of k table = [] <-> k ∉ rec_key <$> table.
Proof.
  unfold records_of. induction table as [|x rest IH].
  - split; [intros _ H; inversion H | reflexivity].
  - rewrite fmap_cons, filter_cons, not_elem_of_cons. destruct (decide (rec_key x = k)) as [Hk|Hk].
    + split; [discriminate | intros [Hne _]; congruence].
    + rewrite IH. split; [intros H; split; [congruence | exact H] | intros [_ H]; exact H].
Qed.

Lemma records_of_singleton (r : AttendanceRecord) (table : list AttendanceRecord) :
  NoDup (rec_key <$> table) -> r ∈ table -> records_of (rec_key r) table = [r].
Proof.
  unfold records_of. induction table as [|x rest IH]; intros Hnd Hr.
  - inversion Hr.
  - cbn in Hnd. apply NoDup_cons in Hnd as [Hx Hnd].
    rewrite filter_cons. apply elem_of_cons in Hr as [->|Hr].
    + rewrite decide_True by reflexivity. f_equal.
      apply (proj2 (records_of_nil (rec_key x) rest)). exact Hx.
    + rewrite decide_False.
      * apply IH; assumption.
      * intros Heq. apply Hx. rewrite Heq. apply list_elem_of_fmap. eauto.
Qed.

(** An accepted INSERT appends the rows, in order, with fresh ids. *)
Lemma accept_rows_Some (table rows table' : list AttendanceRecord) :
  accept_rows table rows = Some table' ->
  table' = table ++ assign_ids (length table) rows.
Proof.
  revert table. induction rows as [|r rest IH]; intros table H; cbn in H.
  - injection H as <-. cbn. symmetry. apply app_nil_r.
  - case_bool_decide; [|discriminate].
    apply IH in H. rewrite H, <- app_assoc. cbn.
    rewrite length_app. cbn. rewrite Nat.add_1_r. reflexivity.
Qed.

(** An INSERT is accepted exactly when no row collides with the table or
    with another row of the statement. *)
Lemma accept_rows_is_Some (table rows : list AttendanceRecord) :
  is_Some (accept_rows table rows) <->
  NoDup (rec_key <$> rows) /\ (forall r, r ∈ rows -> rec_key r ∉ rec_key <$> table).
Proof.
  revert table. induction rows as [|r rest IH]; intros table; cbn.
  - split; [intros _; split; [constructor | intros r Hr; inversion Hr] | eauto].
  - case_bool_decide as Hk.
    + rewrite IH. rewrite records_of_nil in Hk. rewrite NoDup_cons.
      split.
      * intros [Hnd Hfresh]. split; [split; [|exact Hnd]|].
        -- intros Hin. apply list_elem_of_fmap in Hin as [r' [Hk' Hr']].
           apply (Hfresh r' Hr'). rewrite fmap_app, elem_of_app. right.
           change (rec_key r' ∈ [rec_key r]). apply list_elem_of_singleton.
           symmetry. exact Hk'.
        -- intros r' Hr'. apply elem_of_cons in Hr' as [->|Hr']; [exact Hk|].
           intros Hin. apply (Hfresh r' Hr'). rewrite fmap_app, elem_of_app.
           left. exact Hin.
      * intros [[Hr Hnd] Hfresh]. split; [exact Hnd|].
        intros r' Hr'. rewrite fmap_app, elem_of_app. intros [Hin|Hin].
        -- apply (Hfresh r'); [right; exact Hr' | exact Hin].
        -- change (rec_key r' ∈ [rec_key r]) in Hin.
           apply list_elem_of_singleton in Hin.
           apply Hr. rewrite <- Hin. apply list_elem_of_fmap. eauto.
    + split; [intros [? ?]; discriminate|].
      intros [_ Hfresh]. exfalso. apply Hk. apply records_of_nil.
      apply Hfresh. left.
Qed.


(** The trigger rewrites [attendance_count] and nothing else. *)
Lemma run_trigger_frame (rows : list AttendanceRecord) (w : World) :
  attendance_records (run_trigger rows w) = attendance_records w
  /\ enrollments (run_trigger rows w) = enrollments w
  /\ students (run_trigger rows w) = students w
  /\ class_instances (run_trigger rows w) = class_instances w
  /\ activeRotations (run_trigger rows w) = activeRotations w
  /\ intervals (run_trigger rows w) = intervals w
  /\ next_timer (run_trigger rows w) = next_timer w
  /\ timeouts (run_trigger rows w) = timeouts w.
Proof.
  induction rows as [|r rest IH]; cbn; [repeat split|exact IH].
Qed.

Lemma insert_attendance_records (rows : list AttendanceRecord) (w w' : World) :
  insert_attendance rows w = Some w' ->
  attendance_records w'
  = attendance_records w ++ assign_ids (length (attendance_records w)) rows.
Proof.
  unfold insert_attendance. intros H.
  destruct (accept_rows (attendance_records w) rows) as [table|] eqn:Ha; [|discriminate].
  injection H as <-. apply accept_rows_Some in Ha as ->.
  apply (run_trigger_frame rows).
Qed.

Lemma insert_attendance_frame (rows : list AttendanceRecord) (w w' : World) :
  insert_attendance rows w = Some w' ->
  enrollments w' = enrollments w
  /\ students w' = students w
  /\ class_instances w' = class_instances w
  /\ activeRotations w' = activeRotations w
  /\ intervals w' = intervals w
  /\ next_timer w' = next_timer w
  /\ timeouts w' = timeouts w.
Proof.
  unfold insert_attendance. intros H.
  destruct (accept_rows (attendance_records w) rows) as [table|]; [|discriminate].
  injection H as <-.
  exact (proj2 (run_trigger_frame rows (set_attendance_records table w))).
Qed.

Lemma insert_attendance_is_Some (rows : list AttendanceRecord) (w : World) :
  is_Some (insert_attendance rows w) <->
  NoDup (rec_key <$> rows)
  /\ (forall r, r ∈ rows -> rec_key r ∉ rec_key <$> attendance_records w).
Proof.
  rewrite <- accept_rows_is_Some. unfold insert_attendance.
  destruct (accept_rows (attendance_records w) rows); split; intros [x Hx]; try discriminate; eauto.
Qed.


(** ** Redemption *)

Lemma single_singleton {A} (x : A) : single [x] = Some x.
Proof. reflexivity. Qed.

(** C2: once the token, the session, the student and the enrollment have
    been accepted, a record already stored for (session, student) makes
    the scan answer 409 with that record's id, time and status, and the
    world is left as it was: no row inserted, [attendance_count]
    untouched, nothing emitted, no notification. *)
Theorem scan_already_recorded (now currentTime scanTime : Z) (req : ScanRequest)
    (w : World) (a : Attempt) (existing : AttendanceRecord) :
  unique_records w ->
  scan_resolve now currentTime req w = inr a ->
  existing ∈ attendance_records w ->
  rec_key existing = att_key a ->
  scan now currentTime scanTime req w
  = (ScanAlreadyRecorded (rec_id existing) (scanned_at existing) (rec_status existing), w).
Proof.
  intros Hu Hres Hin Hkey. unfold scan. rewrite Hres.
  unfold scan_duplicate_check. rewrite <- Hkey.
  rewrite (records_of_singleton existing _ Hu Hin). reflexivity.
Qed.

(** What a scan that reaches the insert stores and answers. *)
Lemma scan_record_fresh (currentTime : Z) (a : Attempt) (w : World) :
  records_of (att_key a) (attendance_records w) = [] ->
  let m := (currentTime - sessionStartTime (att_session a)) / 60000 in
  let r := mkAttendanceRecord (length (attendance_records w)) (att_sessionId a)
             (att_user_id a) currentTime
             (if 5 <? m then "late" else "present")
             (if 5 <? m then m else 0) (att_device a) (att_ip a) None in
  exists w',
    scan_record currentTime a w = (ScanRecorded r m, w')
    /\ attendance_records w' = attendance_records w ++ [r].
Proof.
  intros Hfresh m r. unfold scan_record.
  match goal with |- context [insert_attendance [?row] w] => set (row0 := row) end.
  assert (Hs : is_Some (insert_attendance [row0] w)).
  { apply insert_attendance_is_Some. split.
    - cbn. apply NoDup_singleton.
    - intros x Hx. apply list_elem_of_singleton in Hx as ->.
      apply records_of_nil. exact Hfresh. }
  destruct Hs as [w1 Hw1]. rewrite Hw1.
  eexists. split; [reflexivity|].
  cbn. apply insert_attendance_records in Hw1. rewrite Hw1. reflexivity.
Qed.

Lemma scan_record_conflict (currentTime : Z) (a : Attempt) (w : World) :
  records_of (att_key a) (attendance_records w) <> [] ->
  scan_record currentTime a w = (ScanRefused 500 "Failed to record attendance", w).
Proof.
  intros Hex. unfold scan_record.
  match goal with |- context [insert_attendance [?row] w] => set (row0 := row) end.
  destruct (insert_attendance [row0] w) as [w1|] eqn:Hw1; [|reflexivity].
  exfalso. apply Hex. apply records_of_nil.
  assert (Hs : is_Some (insert_attendance [row0] w)) by (rewrite Hw1; eauto).
  apply insert_attendance_is_Some in Hs as [_ Hs].
  apply (Hs row0). apply list_elem_of_singleton. reflexivity.
Qed.

(** A request that resolves has found its session row, in status active. *)
Lemma scan_resolve_session (now currentTime : Z) (req : ScanRequest) (w : World)
    (a : Attempt) :
  scan_resolve now currentTime req w = inr a ->
  class_sessions w !! att_sessionId a = Some (att_session a)
  /\ status (att_session a) = "active".
Proof.
  unfold scan_resolve. intros H.
  destruct (body_qrData req) as [| |p]; [discriminate| |];
    (destruct (String.eqb (body_studentId req) EmptyString); [discriminate|]);
    [discriminate|].
  destruct (validateQR now currentTime p) as [e|sid ts]; try discriminate.
  unfold session_with_status in H.
  destruct (class_sessions w !! js_to_string sid) as [session|] eqn:Hs; try discriminate.
  destruct (String.eqb (status session) "active") eqn:Hst; try discriminate.
  destruct (class_instances w !! class_instance_id session); try discriminate.
  destruct (single _) as [st|]; try discriminate.
  destruct (single _) as [e|]; try discriminate.
  injection H as <-. cbn. split; [exact Hs | apply String.eqb_eq, Hst].
Qed.


(** ** Reconciliation *)

Lemma NoDup_fmap_filter {A B} (f : A -> B) (P : A -> Prop)
    `{!forall x, Decision (P x)} (l : list A) :
  NoDup (f <$> l) -> NoDup (f <$> filter P l).
Proof.
  intros Hnd. eapply sublist_NoDup; [exact Hnd|].
  apply fmap_sublist, sublist_filter.
Qed.

(** Among the rows of one class, the student identifies the enrollment. *)
Lemma enrolledStudents_NoDup (c : string) (w : World) :
  unique_enrollments w -> NoDup (enr_student_id <$> enrolledStudents c w).
Proof.
  unfold unique_enrollments, enrolledStudents.
  induction (enrollments w) as [|e rest IH]; intros Hnd.
  - constructor.
  - rewrite fmap_cons in Hnd. apply NoDup_cons in Hnd as [He Hnd].
    rewrite filter_cons. destruct (decide _) as [[Hc Hs]|_]; [|apply IH, Hnd].
    rewrite fmap_cons. apply NoDup_cons. split; [|apply IH, Hnd].
    intros Hin. apply list_elem_of_fmap in Hin as [e' [Hid He']].
    apply list_elem_of_filter in He' as [[Hc' _] He'].
    apply He. apply list_elem_of_fmap. exists e'. split; [|exact He'].
    unfold enr_key. congruence.
Qed.

(** Among the rows of one session, the student identifies the record. *)
Lemma existingRecords_NoDup (sessionId : string) (w : World) :
  unique_records w -> NoDup (rec_student_id <$> existingRecords sessionId w).
Proof.
  unfold unique_records, existingRecords, records_of_session.
  induction (attendance_records w) as [|r rest IH]; intros Hnd.
  - constructor.
  - rewrite fmap_cons in Hnd. apply NoDup_cons in Hnd as [Hr Hnd].
    rewrite filter_cons. destruct (decide _) as [Hs|_]; [|apply IH, Hnd].
    rewrite fmap_cons. apply NoDup_cons. split; [|apply IH, Hnd].
    intros Hin. apply list_elem_of_fmap in Hin as [r' [Hid Hr']].
    apply list_elem_of_filter in Hr' as [Hs' Hr'].
    apply Hr. apply list_elem_of_fmap. exists r'. split; [|exact Hr'].
    unfold rec_key. congruence.
Qed.

Lemma absentRecords_students (sessionId : string) (now : Z) (l : list Enrollment) :
  rec_student_id <$> absentRecords sessionId now l = enr_student_id <$> l.
Proof.
  unfold absentRecords. rewrite <- list_fmap_compose. reflexivity.
Qed.

Lemma absentRecords_Forall (sessionId : string) (now : Z) (l : list Enrollment) :
  Forall (fun r => rec_session_id r = sessionId /\ rec_status r = "absent"
                   /\ scanned_at r = now /\ minutes_late r = 0)
         (absentRecords sessionId now l).
Proof.
  unfold absentRecords. apply Forall_fmap, Forall_forall. intros e _. cbn. auto.
Qed.

(** The batch of absent rows never violates the constraint: it names
    distinct students, none of whom has a row for the session. *)
Lemma absentRecords_accepted (sessionId : string) (now : Z) (c : string) (w : World) :
  unique_enrollments w ->
  is_Some (insert_attendance
             (absentRecords sessionId now
                (studentsNeedingRecords (enrolledStudents c w)
                   (existingRecords sessionId w))) w).
Proof.
  intros Hue. apply insert_attendance_is_Some. split.
  - assert (Hnd : NoDup (enr_student_id <$>
                           studentsNeedingRecords (enrolledStudents c w)
                             (existingRecords sessionId w))).
    { apply NoDup_fmap_filter, enrolledStudents_NoDup, Hue. }
    revert Hnd. generalize (studentsNeedingRecords (enrolledStudents c w)
                              (existingRecords sessionId w)).
    intros l. induction l as [|e rest IH]; intros Hnd; [constructor|].
    rewrite fmap_cons in Hnd. apply NoDup_cons in Hnd as [He Hnd].
    unfold absentRecords. rewrite !fmap_cons. apply NoDup_cons.
    split; [|apply IH, Hnd].
    intros Hin. apply He.
    apply list_elem_of_fmap in Hin as [r [Hk Hr]].
    apply list_elem_of_fmap in Hr as [e' [-> He']].
    apply list_elem_of_fmap. exists e'. split; [|exact He'].
    unfold rec_key in Hk. cbn in Hk. congruence.
  - intros r Hr Hin.
    apply list_elem_of_fmap in Hr as [e [-> He]].
    apply list_elem_of_filter in He as [Hlack _]. apply Hlack.
    apply list_elem_of_fmap in Hin as [r' [Hk Hr']].
    apply list_elem_of_fmap. exists r'. unfold rec_key in Hk. cbn in Hk.
    split; [congruence|].
    apply list_elem_of_filter. split; [congruence | exact Hr'].
Qed.

Lemma insert_absent_Some (sessionId : string) (now : Z) (session : ClassSession)
    (w : World) :
  unique_enrollments w ->
  exists w',
    insert_absent sessionId now session w = Some w'
    /\ attendance_records w'
       = attendance_records w
         ++ assign_ids (length (attendance_records w))
              (absentRecords sessionId now
                 (studentsNeedingRecords
                    (enrolledStudents (class_instance_id session) w)
                    (existingRecords sessionId w)))
    /\ enrollments w' = enrollments w
    /\ activeRotations w' = activeRotations w
    /\ intervals w' = intervals w
    /\ next_timer w' = next_timer w.
Proof. no_runtime.
  intros Hue. unfold insert_absent.
  pose proof (absentRecords_accepted sessionId now (class_instance_id session) w Hue)
    as [w' Hw'].
  destruct (studentsNeedingRecords _ _) as [|e rest] eqn:Hneed.
  - exists w. cbn. rewrite app_nil_r. repeat split.
  - exists w'. split; [exact Hw'|].
    split; [apply insert_attendance_records, Hw'|].
    apply insert_attendance_frame in Hw'. tauto.
Qed.

(** The students lacking a row and those having one split the enrolled. *)
Lemma studentsNeedingRecords_length (enrolled : list Enrollment)
    (existing : list AttendanceRecord) :
  (length (studentsNeedingRecords enrolled existing)
   + length (filter (fun e => enr_student_id e ∈ rec_student_id <$> existing) enrolled)
   = length enrolled)%nat.
Proof.
  unfold studentsNeedingRecords.
  pose proof (filter_app_complement
                (fun e => enr_student_id e ∈ rec_student_id <$> existing) enrolled) as Hp.
  apply Permutation_length in Hp. rewrite length_app in Hp.
  rewrite <- Hp. apply Nat.add_comm.
Qed.

(** When every row of the session belongs to an enrolled student, the
    enrolled students having a row are as many as the rows. *)
Lemma covered_students_length (enrolled : list Enrollment)
    (existing : list AttendanceRecord) :
  NoDup (enr_student_id <$> enrolled) ->
  NoDup (rec_student_id <$> existing) ->
  (forall r, r ∈ existing -> rec_student_id r ∈ enr_student_id <$> enrolled) ->
  length (filter (fun e => enr_student_id e ∈ rec_student_id <$> existing) enrolled)
  = length existing.
Proof.
  intros Hne Hnx Hsub.
  rewrite <- (length_fmap enr_student_id), <- (length_fmap rec_student_id existing).
  apply Permutation_length, NoDup_Permutation.
  - apply NoDup_fmap_filter, Hne.
  - exact Hnx.
  - intros x. split.
    + intros Hx. apply list_elem_of_fmap in Hx as [e [-> He]].
      apply list_elem_of_filter in He as [He _]. exact He.
    + intros Hx. pose proof Hx as Hx'.
      apply list_elem_of_fmap in Hx as [r [-> Hr]].
      destruct (proj1 (list_elem_of_fmap _ _ _) (Hsub r Hr)) as [e [Heq He]].
      apply list_elem_of_fmap. exists e. split; [exact Heq|].
      apply list_elem_of_filter. split; [rewrite <- Heq; exact Hx' | exact He].
Qed.

Lemma upto_count_refl (o : option ClassSession) : upto_count o o.
Proof.
  destruct o as [s|]; [|exact I]. exists (attendance_count s). destruct s; reflexivity.
Qed.

Lemma upto_count_trans (o1 o2 o3 : option ClassSession) :
  upto_count o1 o2 -> upto_count o2 o3 -> upto_count o1 o3.
Proof. no_runtime.
  destruct o1 as [s1|], o2 as [s2|], o3 as [s3|]; cbn; try tauto.
  intros [n ->] [n' ->]. exists n'. reflexivity.
Qed.

Lemma upto_count_alter (n : Z) (k sid : string) (m : gmap string ClassSession) :
  upto_count (m !! sid) (alter (set_attendance_count n) k m !! sid).
Proof.
  rewrite lookup_alter. case_decide as Hk; [subst k|apply upto_count_refl].
  destruct (m !! sid) as [s|]; cbn; eauto.
Qed.

Lemma run_trigger_sessions (rows : list AttendanceRecord) (w : World) (sid : string) :
  upto_count (class_sessions w !! sid) (class_sessions (run_trigger rows w) !! sid).
Proof.
  induction rows as [|r rest IH]; cbn; [apply upto_count_refl|].
  eapply upto_count_trans; [exact IH|]. apply upto_count_alter.
Qed.

Lemma insert_attendance_sessions (rows : list AttendanceRecord) (w w' : World)
    (sid : string) :
  insert_attendance rows w = Some w' ->
  upto_count (class_sessions w !! sid) (class_sessions w' !! sid).
Proof.
  unfold insert_attendance. intros H.
  destruct (accept_rows (attendance_records w) rows) as [table|]; [|discriminate].
  injection H as <-.
  exact (run_trigger_sessions rows (set_attendance_records table w) sid).
Qed.

Lemma insert_absent_sessions (sessionId : string) (now : Z) (session : ClassSession)
    (w w' : World) (sid : string) :
  insert_absent sessionId now session w = Some w' ->
  upto_count (class_sessions w !! sid) (class_sessions w' !! sid).
Proof.
  unfold insert_absent. destruct (studentsNeedingRecords _ _).
  - intros H. injection H as <-. apply upto_count_refl.
  - apply insert_attendance_sessions.
Qed.

Lemma stopQRCodeRotation_frame (sessionId : string) (w : World) :
  class_sessions (stopQRCodeRotation sessionId w) = class_sessions w
  /\ enrollments (stopQRCodeRotation sessionId w) = enrollments w
  /\ attendance_records (stopQRCodeRotation sessionId w) = attendance_records w.
Proof.
  unfold stopQRCodeRotation. destruct (activeRotations w !! sessionId); repeat split.
Qed.

Lemma stopQRCodeRotation_stopped (sessionId : string) (w : World) :
  activeRotations (stopQRCodeRotation sessionId w) !! sessionId = None.
Proof.
  unfold stopQRCodeRotation.
  destruct (activeRotations w !! sessionId) eqn:H; [|exact H].
  cbn. apply lookup_delete_eq.
Qed.

(** What the completion block does from a world where the session row
    exists: it cannot fail, it appends one absent row per enrolled
    student lacking one, and it closes the row as completed. *)
Lemma completion_block (sessionId : string) (now : Z) (session : ClassSession)
    (w0 w : World) :
  unique_enrollments w ->
  class_sessions w !! sessionId = Some session ->
  class_sessions w0 = class_sessions w ->
  enrollments w0 = enrollments w ->
  attendance_records w0 = attendance_records w ->
  exists w1,
    insert_absent sessionId now session w0 = Some w1
    /\ attendance_records w1
       = attendance_records w
         ++ assign_ids (length (attendance_records w))
              (absentRecords sessionId now
                 (studentsNeedingRecords
                    (enrolledStudents (class_instance_id session) w)
                    (existingRecords sessionId w)))
    /\ enrollments w1 = enrollments w
    /\ activeRotations w1 = activeRotations w0
    /\ intervals w1 = intervals w0
    /\ next_timer w1 = next_timer w0
    /\ exists s1,
         class_sessions w1 !! sessionId = Some s1
         /\ class_instance_id s1 = class_instance_id session.
Proof.
  intros Hue Hs Hcs Hen Hrec.
  assert (Hue0 : unique_enrollments w0) by (unfold unique_enrollments; rewrite Hen; exact Hue).
  destruct (insert_absent_Some sessionId now session w0 Hue0)
    as [w1 [Hw1 [Hrows [Hen1 [Hrot [Hint Hnext]]]]]].
  exists w1. split; [exact Hw1|].
  split.
  { rewrite Hrows. unfold enrolledStudents, existingRecords. rewrite Hen, Hrec. reflexivity. }
  split; [congruence|]. split; [exact Hrot|]. split; [exact Hint|]. split; [exact Hnext|].
  pose proof (insert_absent_sessions _ _ _ _ _ sessionId Hw1) as Hup.
  rewrite Hcs, Hs in Hup. unfold upto_count in Hup.
  destruct (class_sessions w1 !! sessionId) as [s1|]; [|contradiction].
  destruct Hup as [n ->]. eexists. split; reflexivity.
Qed.

Lemma complete_spec (now : Z) (sessionId : string) (w : World) (session : ClassSession) :
  unique_enrollments w ->
  class_sessions w !! sessionId = Some session ->
  exists w' s',
    complete now sessionId w = (Json200, w')
    /\ attendance_records w'
       = attendance_records w
         ++ assign_ids (length (attendance_records w))
              (absentRecords sessionId now
                 (studentsNeedingRecords
                    (enrolledStudents (class_instance_id session) w)
                    (existingRecords sessionId w)))
    /\ enrollments w' = enrollments w
    /\ class_sessions w' !! sessionId = Some s'
    /\ class_instance_id s' = class_instance_id session
    /\ closed_as "completed" s'
    /\ activeRotations w' !! sessionId = None.
Proof.
  intros Hue Hs. unfold complete.
  destruct (stopQRCodeRotation_frame sessionId w) as [Hcs [Hen Hrec]].
  rewrite Hcs, Hs.
  destruct (completion_block sessionId now session (stopQRCodeRotation sessionId w) w
              Hue Hs Hcs Hen Hrec)
    as [w1 [Hw1 [Hrows [Hen1 [Hrot [_ [_ [s1 [Hs1 Hc1]]]]]]]]].
  rewrite Hw1. eexists. exists (set_closed "completed" s1).
  split; [reflexivity|]. cbn.
  split; [exact Hrows|]. split; [exact Hen1|].
  split; [rewrite lookup_alter_eq, Hs1; reflexivity|].
  split; [exact Hc1|]. split; [repeat split|].
  rewrite Hrot. apply stopQRCodeRotation_stopped.
Qed.

Lemma session_with_status_Some (sessionId st : string) (w : World) (s : ClassSession) :
  session_with_status sessionId st w = Some s <->
  class_sessions w !! sessionId = Some s /\ status s = st.
Proof.
  unfold session_with_status. destruct (class_sessions w !! sessionId) as [s0|].
  - destruct (String.eqb (status s0) st) eqn:E.
    + apply String.eqb_eq in E. split; [intros H; injection H as <-; auto|].
      intros [H _]. exact H.
    + apply String.eqb_neq in E. split; [discriminate|].
      intros [H Hst]. injection H as ->. contradiction.
  - split; [discriminate | intros [H _]; discriminate].
Qed.

Lemma session_with_status_None (sessionId st : string) (w : World) :
  session_with_status sessionId st w = None <->
  (forall s, class_sessions w !! sessionId = Some s -> status s <> st).
Proof.
  split.
  - intros H s Hs Hst.
    assert (session_with_status sessionId st w = Some s) as H'
      by (apply session_with_status_Some; auto).
    congruence.
  - intros H. destruct (session_with_status sessionId st w) as [s|] eqn:E; [|reflexivity].
    apply session_with_status_Some in E as [Hs Hst]. exfalso. exact (H s Hs Hst).
Qed.

Lemma completeSessionAutomatically_spec (now : Z) (sessionId : string) (w : World)
    (session : ClassSession) :
  unique_enrollments w ->
  class_sessions w !! sessionId = Some session ->
  status session = "active" ->
  exists w' s',
    completeSessionAutomatically now sessionId w = (Returned, w')
    /\ attendance_records w'
       = attendance_records w
         ++ assign_ids (length (attendance_records w))
              (absentRecords sessionId now
                 (studentsNeedingRecords
                    (enrolledStudents (class_instance_id session) w)
                    (existingRecords sessionId w)))
    /\ enrollments w' = enrollments w
    /\ class_sessions w' !! sessionId = Some s'
    /\ class_instance_id s' = class_instance_id session
    /\ closed_as "completed" s'
    /\ activeRotations w' !! sessionId = None.
Proof.
  intros Hue Hs Hst. unfold completeSessionAutomatically.
  rewrite (proj2 (session_with_status_Some sessionId "active" w session) (conj Hs Hst)).
  destruct (stopQRCodeRotation_frame sessionId w) as [Hcs [Hen Hrec]].
  destruct (completion_block sessionId now session (stopQRCodeRotation sessionId w) w
              Hue Hs Hcs Hen Hrec)
    as [w1 [Hw1 [Hrows [Hen1 [Hrot [_ [_ [s1 [Hs1 Hc1]]]]]]]]].
  rewrite Hw1. eexists. exists (set_closed "completed" s1).
  split; [reflexivity|]. cbn.
  split; [exact Hrows|]. split; [exact Hen1|].
  split; [rewrite lookup_alter_eq, Hs1; reflexivity|].
  split; [exact Hc1|]. split; [repeat split|].
  rewrite Hrot. apply stopQRCodeRotation_stopped.
Qed.

(** The callback returns at once, touching nothing, unless the row is in
    status active. *)
Lemma completeSessionAutomatically_noop (now : Z) (sessionId : string) (w : World) :
  (forall s, class_sessions w !! sessionId = Some s -> status s <> "active") ->
  completeSessionAutomatically now sessionId w = (Returned, w).
Proof.
  intros H. unfold completeSessionAutomatically.
  rewrite (proj2 (session_with_status_None sessionId "active" w) H). reflexivity.
Qed.

Lemma filter_nil_intro {A} (P : A -> Prop) `{!forall x, Decision (P x)} (l : list A) :
  (forall x, x ∈ l -> ~ P x) -> filter P l = [].
Proof.
  induction l as [|x rest IH]; intros Hl; [reflexivity|].
  rewrite filter_cons_False by (apply Hl; left).
  apply IH. intros y Hy. apply Hl. right. exact Hy.
Qed.

Lemma assign_ids_students (n : nat) (rows : list AttendanceRecord) :
  rec_student_id <$> assign_ids n rows = rec_student_id <$> rows.
Proof.
  revert n. induction rows as [|r rest IH]; intros n; [reflexivity|].
  cbn. f_equal. apply IH.
Qed.

Lemma assign_ids_session (sessionId : string) (n : nat) (rows : list AttendanceRecord) :
  Forall (fun r => rec_session_id r = sessionId) rows ->
  records_of_session sessionId (assign_ids n rows) = assign_ids n rows.
Proof.
  unfold records_of_session. intros H. revert n.
  induction H as [|r rest Hr _ IH]; intros n; [reflexivity|].
  cbn [assign_ids]. rewrite filter_cons_True by exact Hr. f_equal. apply IH.
Qed.

(** After the absent rows are in, no enrolled student lacks a row. *)
Lemma nobody_lacking_after (sessionId : string) (now : Z) (n : nat)
    (enrolled : list Enrollment) (table : list AttendanceRecord) :
  studentsNeedingRecords enrolled
    (records_of_session sessionId
       (table ++ assign_ids n
                   (absentRecords sessionId now
                      (studentsNeedingRecords enrolled
                         (records_of_session sessionId table)))))
  = [].
Proof. no_runtime.
  unfold studentsNeedingRecords at 1. apply filter_nil_intro.
  intros e He Hlack. apply Hlack. clear Hlack.
  unfold records_of_session at 1. rewrite filter_app, fmap_app, elem_of_app.
  destruct (decide (enr_student_id e ∈
                      rec_student_id <$> records_of_session sessionId table))
    as [Hin|Hout]; [left; exact Hin|right].
  fold (records_of_session sessionId
          (assign_ids n (absentRecords sessionId now
                           (studentsNeedingRecords enrolled
                              (records_of_session sessionId table))))).
  rewrite assign_ids_session.
  - rewrite assign_ids_students, absentRecords_students.
    apply list_elem_of_fmap. exists e. split; [reflexivity|].
    apply list_elem_of_filter. split; assumption.
  - eapply Forall_impl; [apply absentRecords_Forall|]. cbn. tauto.
Qed.

Lemma absent_rows_unique (sessionId : string) (now : Z) (c : string) (w : World) :
  unique_records w ->
  unique_enrollments w ->
  NoDup (rec_key <$>
           attendance_records w
           ++ assign_ids (length (attendance_records w))
                (absentRecords sessionId now
                   (studentsNeedingRecords (enrolledStudents c w)
                      (existingRecords sessionId w)))).
Proof.
  intros Hu Hue.
  pose proof (absentRecords_accepted sessionId now c w Hue) as Hs.
  apply insert_attendance_is_Some in Hs as [Hnd Hfresh].
  rewrite fmap_app, assign_ids_keys. apply NoDup_app.
  split; [exact Hu|]. split; [|exact Hnd].
  intros k Hk Hk'. apply list_elem_of_fmap in Hk' as [r [-> Hr]].
  exact (Hfresh r Hr Hk).
Qed.

(** C6 (as the code has it): completing a session appends exactly one
    row per actively enrolled student lacking a row for the session --
    as many as the enrolled students minus those among them who have a
    row, which is N - K whenever all K existing rows belong to enrolled
    students -- each with status absent, [scanned_at] the completion
    time and [minutes_late] 0; the table keeps its uniqueness, and a
    second completion inserts nothing.  The timeout path does the same
    from status active. *)
Theorem reconciliation_fills_absent (now : Z) (sessionId : string) (w : World)
    (session : ClassSession) :
  unique_records w ->
  unique_enrollments w ->
  class_sessions w !! sessionId = Some session ->
  let enrolled := enrolledStudents (class_instance_id session) w in
  let existing := existingRecords sessionId w in
  let lacking := studentsNeedingRecords enrolled existing in
  let covered :=
    filter (fun e => enr_student_id e ∈ rec_student_id <$> existing) enrolled in
  exists w' new,
    complete now sessionId w = (Json200, w')
    /\ attendance_records w' = attendance_records w ++ new
    /\ rec_student_id <$> new = enr_student_id <$> lacking
    /\ length new = (length enrolled - length covered)%nat
    /\ ((forall r, r ∈ existing -> rec_student_id r ∈ enr_student_id <$> enrolled) ->
        length new = (length enrolled - length existing)%nat)
    /\ Forall (fun r => rec_session_id r = sessionId /\ rec_status r = "absent"
                        /\ scanned_at r = now /\ minutes_late r = 0) new
    /\ unique_records w'
    /\ (forall now', exists w'',
           complete now' sessionId w' = (Json200, w'')
           /\ attendance_records w'' = attendance_records w')
    /\ (status session = "active" ->
        exists w2,
          completeSessionAutomatically now sessionId w = (Returned, w2)
          /\ attendance_records w2 = attendance_records w ++ new
          /\ forall now', completeSessionAutomatically now' sessionId w2 = (Returned, w2)).
Proof.
  intros Hu Hue Hs enrolled existing lacking covered.
  destruct (complete_spec now sessionId w session Hue Hs)
    as [w' [s' [Hc [Hrows [Hen [Hs' [Hcl [Hclosed _]]]]]]]].
  exists w'. eexists. split; [exact Hc|]. split; [exact Hrows|].
  fold enrolled. fold existing. fold lacking.
  assert (Hlen : length (assign_ids (length (attendance_records w))
                           (absentRecords sessionId now lacking))
                 = (length enrolled - length covered)%nat).
  { rewrite assign_ids_length. unfold absentRecords. rewrite length_fmap.
    pose proof (studentsNeedingRecords_length enrolled existing) as Hl.
    fold lacking in Hl. fold covered in Hl. lia. }
  split; [rewrite assign_ids_students; apply absentRecords_students|].
  split; [exact Hlen|].
  split.
  { intros Hsub. rewrite Hlen. f_equal. unfold covered.
    apply covered_students_length; [|apply existingRecords_NoDup, Hu|exact Hsub].
    apply enrolledStudents_NoDup, Hue. }
  split.
  { apply assign_ids_Forall; [intros i r H; exact H|apply absentRecords_Forall]. }
  split.
  { unfold unique_records. rewrite Hrows. apply absent_rows_unique; assumption. }
  split.
  { intros now'.
    assert (Hue' : unique_enrollments w') by (unfold unique_enrollments; rewrite Hen; exact Hue).
    destruct (complete_spec now' sessionId w' s' Hue' Hs')
      as [w'' [s'' [Hc' [Hrows' _]]]].
    exists w''. split; [exact Hc'|]. rewrite Hrows'.
    unfold enrolledStudents, existingRecords. rewrite Hen, Hcl, Hrows.
    fold (enrolledStudents (class_instance_id session) w). fold enrolled.
    fold (existingRecords sessionId w).
    unfold existingRecords at 1. unfold lacking, existing, existingRecords.
    rewrite nobody_lacking_after. cbn. apply app_nil_r. }
  intros Hact.
  destruct (completeSessionAutomatically_spec now sessionId w session Hue Hs Hact)
    as [w2 [s2 [Hc2 [Hrows2 [_ [Hs2 [_ [[Hst2 _] _]]]]]]]].
  exists w2. split; [exact Hc2|]. split; [exact Hrows2|].
  intros now'. apply completeSessionAutomatically_noop.
  intros s Hs0. rewrite Hs2 in Hs0. injection Hs0 as <-. rewrite Hst2. discriminate.
Qed.

(** C7 (as the code has it): the timeout callback acts only on a row in
    status active, which it completes (rotation stopped, an absent row
    for every enrolled student lacking one, row closed as completed);
    in every other status -- paused included -- and for a missing row it
    returns at once and changes nothing, so firing after a manual
    completion adds no row, changes no state and raises nothing. *)
Theorem timeout_callback_guarded (now : Z) (sessionId : string) (w : World) :
  ((forall s, class_sessions w !! sessionId = Some s -> status s <> "active") ->
   completeSessionAutomatically now sessionId w = (Returned, w))
  /\ (forall session,
         unique_enrollments w ->
         class_sessions w !! sessionId = Some session ->
         status session = "active" ->
         exists w' s',
           completeSessionAutomatically now sessionId w = (Returned, w')
           /\ class_sessions w' !! sessionId = Some s'
           /\ closed_as "completed" s'
           /\ activeRotations w' !! sessionId = None
           /\ forall e, e ∈ enrolledStudents (class_instance_id session) w ->
                        enr_student_id e ∈ rec_student_id <$> existingRecords sessionId w')
  /\ (forall session now0,
         unique_enrollments w ->
         class_sessions w !! sessionId = Some session ->
         exists w1,
           complete now0 sessionId w = (Json200, w1)
           /\ completeSessionAutomatically now sessionId w1 = (Returned, w1))
  /\ (forall i,
         timeouts w !! i = Some sessionId ->
         (forall s, class_sessions w !! sessionId = Some s -> status s <> "active") ->
         fire_timeout now i w = set_timeouts (delete i (timeouts w)) w).
Proof.
  split; [apply completeSessionAutomatically_noop|].
  split.
  { intros session Hue Hs Hact.
    destruct (completeSessionAutomatically_spec now sessionId w session Hue Hs Hact)
      as [w' [s' [Hc [Hrows [_ [Hs' [_ [Hclosed Hrot]]]]]]]].
    exists w', s'. repeat (split; [assumption|]).
    intros e He.
    destruct (decide (enr_student_id e ∈ rec_student_id <$> existingRecords sessionId w'))
      as [Hin|Hout]; [exact Hin|exfalso].
    assert (Hl : e ∈ studentsNeedingRecords
                       (enrolledStudents (class_instance_id session) w)
                       (existingRecords sessionId w'))
      by (apply list_elem_of_filter; split; assumption).
    unfold existingRecords in Hl at 1. rewrite Hrows in Hl.
    unfold existingRecords in Hl. rewrite nobody_lacking_after in Hl.
    inversion Hl. }
  split.
  { intros session now0 Hue Hs.
    destruct (complete_spec now0 sessionId w session Hue Hs)
      as [w1 [s1 [Hc [_ [_ [Hs1 [_ [[Hst _] _]]]]]]]].
    exists w1. split; [exact Hc|].
    apply completeSessionAutomatically_noop.
    intros s Hs0. rewrite Hs1 in Hs0. injection Hs0 as <-. rewrite Hst. discriminate. }
  intros i Hi Hna. unfold fire_timeout. rewrite Hi.
  rewrite completeSessionAutomatically_noop; [reflexivity|exact Hna].
Qed.

(** ** Lifecycle invariants *)

Ltac wsimpl :=
  cbn [class_instances class_sessions students enrollments attendance_records
       notifications activeRotations intervals next_timer timeouts io emitted
       set_class_sessions set_attendance_records add_notifications set_timers
       set_timeouts emit update_session fst snd] in *.


Lemma session_ok_count (n : Z) (s : ClassSession) :
  session_ok s -> session_ok (set_attendance_count n s).
Proof. intros H. exact H. Qed.

(** Nothing but attendance counts changed, timers untouched. *)
Lemma inv_same_lifecycle (w w' : World) :
  engine_inv w ->
  activeRotations w' = activeRotations w ->
  intervals w' = intervals w ->
  next_timer w' = next_timer w ->
  (forall sid, upto_count (class_sessions w !! sid) (class_sessions w' !! sid)) ->
  engine_inv w'.
Proof.
  intros [Hs [Hr Ha]] Hrot Hint Hnext Hup. split; [|split].
  - intros sid s' H'. specialize (Hup sid). rewrite H' in Hup.
    destruct (class_sessions w !! sid) as [s|] eqn:E; [|contradiction].
    destruct Hup as [n ->]. apply session_ok_count. exact (Hs sid s E).
  - unfold registry_ok. rewrite Hrot, Hint, Hnext. exact Hr.
  - intros sid h s' Hh H'. rewrite Hrot in Hh. specialize (Hup sid). rewrite H' in Hup.
    destruct (class_sessions w !! sid) as [s|] eqn:E; [|contradiction].
    destruct Hup as [n ->]. exact (Ha sid h s Hh E).
Qed.

(** Rewriting one row. *)
Lemma inv_update_session (sid : string) (f : ClassSession -> ClassSession) (w : World) :
  engine_inv w ->
  (forall s, class_sessions w !! sid = Some s ->
             session_ok (f s)
             /\ (is_Some (activeRotations w !! sid) -> status (f s) = "active")) ->
  engine_inv (update_session sid f w).
Proof.
  intros [Hs [Hr Ha]] Hf. split; [|split].
  - intros k s'. wsimpl. rewrite lookup_alter. case_decide as Hk.
    + subst k. destruct (class_sessions w !! sid) as [s|] eqn:E; [|discriminate].
      cbn. intros H. injection H as <-. apply (Hf s eq_refl).
    + apply Hs.
  - exact Hr.
  - intros k h s'. wsimpl. rewrite lookup_alter. case_decide as Hk.
    + subst k. intros Hh. destruct (class_sessions w !! sid) as [s|] eqn:E; [|discriminate].
      cbn. intros H. injection H as <-. apply (Hf s eq_refl). eauto.
    + apply Ha.
Qed.

Lemma inv_start (sid : string) (w : World) :
  engine_inv w ->
  activeRotations w !! sid = None ->
  (forall s, class_sessions w !! sid = Some s -> status s = "active") ->
  engine_inv (startQRCodeRotation sid w).
Proof.
  intros [Hs [[Hreg Hlt] Ha]] Hnone Hact. unfold startQRCodeRotation.
  split; [exact Hs|]. split; [split|].
  - intros k h. wsimpl.
    destruct (decide (k = sid)) as [->|Hk], (decide (h = next_timer w)) as [->|Hh].
    + rewrite !lookup_insert_eq. split; reflexivity.
    + rewrite lookup_insert_eq, lookup_insert_ne by congruence.
      split; [congruence|]. intros Hi. apply Hreg in Hi. congruence.
    + rewrite lookup_insert_eq, lookup_insert_ne by congruence.
      split; [|congruence]. intros Hi. apply Hreg, Hlt in Hi. lia.
    + rewrite !lookup_insert_ne by congruence. apply Hreg.
  - intros h k. wsimpl. destruct (decide (h = next_timer w)) as [->|Hh].
    + intros _. lia.
    + rewrite lookup_insert_ne by congruence. intros Hi. apply Hlt in Hi. lia.
  - intros k h s. wsimpl. destruct (decide (k = sid)) as [->|Hk].
    + intros _. apply Hact.
    + rewrite lookup_insert_ne by congruence. apply Ha.
Qed.

Lemma inv_stop (sid : string) (w : World) :
  engine_inv w -> engine_inv (stopQRCodeRotation sid w).
Proof.
  intros [Hs [[Hreg Hlt] Ha]]. unfold stopQRCodeRotation.
  destruct (activeRotations w !! sid) as [h0|] eqn:E;
    [|split; [exact Hs|split; [split; assumption|exact Ha]]].
  split; [exact Hs|]. split; [split|].
  - intros k h. wsimpl.
    destruct (decide (k = sid)) as [->|Hk], (decide (h = h0)) as [->|Hh].
    + rewrite !lookup_delete_eq. split; discriminate.
    + rewrite lookup_delete_eq, lookup_delete_ne by congruence.
      split; [discriminate|]. intros Hi. apply Hreg in Hi. congruence.
    + rewrite lookup_delete_eq, lookup_delete_ne by congruence.
      split; [|discriminate]. intros Hi. apply Hreg in Hi. apply Hreg in E. congruence.
    + rewrite !lookup_delete_ne by congruence. apply Hreg.
  - intros h k. wsimpl. destruct (decide (h = h0)) as [->|Hh].
    + rewrite lookup_delete_eq. discriminate.
    + rewrite lookup_delete_ne by congruence. apply Hlt.
  - intros k h s. wsimpl. destruct (decide (k = sid)) as [->|Hk].
    + rewrite lookup_delete_eq. discriminate.
    + rewrite lookup_delete_ne by congruence. apply Ha.
Qed.

Lemma inv_frame (w w' : World) :
  engine_inv w ->
  class_sessions w' = class_sessions w ->
  activeRotations w' = activeRotations w ->
  intervals w' = intervals w ->
  next_timer w' = next_timer w ->
  engine_inv w'.
Proof.
  intros Hinv Hcs Hrot Hint Hnext.
  apply (inv_same_lifecycle w w' Hinv Hrot Hint Hnext).
  intros sid. rewrite Hcs. apply upto_count_refl.
Qed.

Lemma inv_notify (sid : string) (w : World) :
  engine_inv w -> engine_inv (notifyStudentsSessionActivated sid w).
Proof.
  intros Hinv. unfold notifyStudentsSessionActivated.
  destruct (class_sessions w !! sid) as [s|]; [|exact Hinv].
  destruct (class_instances w !! class_instance_id s); [|exact Hinv].
  eapply inv_frame; [exact Hinv|reflexivity..].
Qed.

Lemma inv_insert_attendance (rows : list AttendanceRecord) (w w' : World) :
  engine_inv w -> insert_attendance rows w = Some w' -> engine_inv w'.
Proof.
  intros Hinv H.
  destruct (insert_attendance_frame rows w w' H) as [_ [_ [_ [Hrot [Hint [Hnext _]]]]]].
  apply (inv_same_lifecycle w w' Hinv Hrot Hint Hnext).
  intros sid. eapply insert_attendance_sessions, H.
Qed.

Lemma inv_insert_absent (sid : string) (now : Z) (session : ClassSession) (w w' : World) :
  engine_inv w -> insert_absent sid now session w = Some w' -> engine_inv w'.
Proof.
  unfold insert_absent. intros Hinv.
  destruct (studentsNeedingRecords _ _).
  - intros H. injection H as <-. exact Hinv.
  - apply inv_insert_attendance, Hinv.
Qed.

Lemma insert_absent_rotations (sid : string) (now : Z) (session : ClassSession)
    (w w' : World) :
  insert_absent sid now session w = Some w' -> activeRotations w' = activeRotations w.
Proof. no_runtime.
  unfold insert_absent. destruct (studentsNeedingRecords _ _).
  - intros H. injection H as <-. reflexivity.
  - intros H. apply insert_attendance_frame in H. tauto.
Qed.

Lemma session_ok_closed (st : string) (s : ClassSession) :
  st <> "active" -> session_ok (set_closed st s).
Proof.
  intros Hst. split; cbn; [split; [discriminate|contradiction]|reflexivity].
Qed.

Lemma session_ok_active (s : ClassSession) :
  status s = "active" -> is_active s = true -> session_ok s.
Proof. no_runtime. intros Hst Ha. split; [rewrite Hst, Ha; tauto|contradiction]. Qed.

(** A row that is not in status active is not being rotated. *)
Lemma not_rotating (sid : string) (s : ClassSession) (w : World) :
  engine_inv w ->
  class_sessions w !! sid = Some s ->
  status s <> "active" ->
  activeRotations w !! sid = None.
Proof.
  intros [_ [_ Ha]] Hs Hst.
  destruct (activeRotations w !! sid) as [h|] eqn:E; [|reflexivity].
  exfalso. apply Hst. exact (Ha sid h s E Hs).
Qed.

Lemma inv_close (sid st : string) (f : ClassSession -> ClassSession) (w : World) :
  engine_inv w ->
  activeRotations w !! sid = None ->
  (forall s, session_ok (f s)) ->
  engine_inv (update_session sid f w).
Proof.
  intros Hinv Hnone Hf. apply inv_update_session; [exact Hinv|].
  intros s _. split; [apply Hf|]. rewrite Hnone. intros [x Hx]. discriminate.
Qed.

Lemma inv_emit (evs : list Event) (w : World) :
  engine_inv w -> engine_inv (emit evs w).
Proof. intros H. apply (inv_frame w); [exact H|reflexivity..]. Qed.

Lemma inv_set_timeouts (l : list string) (w : World) :
  engine_inv w -> engine_inv (set_timeouts l w).
Proof. intros H. apply (inv_frame w); [exact H|reflexivity..]. Qed.

Lemma inv_add_notifications (l : list Notification) (w : World) :
  engine_inv w -> engine_inv (add_notifications l w).
Proof. intros H. apply (inv_frame w); [exact H|reflexivity..]. Qed.

Lemma inv_update_neutral (sid : string) (f : ClassSession -> ClassSession) (w : World) :
  (forall s, status (f s) = status s /\ is_active (f s) = is_active s
             /\ qr_expires_at (f s) = qr_expires_at s) ->
  engine_inv w -> engine_inv (update_session sid f w).
Proof.
  intros Hf Hinv. apply inv_update_session; [exact Hinv|].
  destruct Hinv as [Hs [_ Ha]]. intros s Hsid.
  destruct (Hf s) as [Hst [Hact Hexp]]. split.
  - unfold session_ok. rewrite Hst, Hact, Hexp. exact (Hs sid s Hsid).
  - intros [h Hh]. rewrite Hst. exact (Ha sid h s Hh Hsid).
Qed.

Lemma activate_inv now nb sb sid notes (w : World) :
  engine_inv w -> engine_inv (activate now nb sb sid notes w).2.
Proof.
  intros Hinv. unfold activate.
  destruct (session_with_status sid "scheduled" w) as [s|] eqn:E; [|exact Hinv].
  apply session_with_status_Some in E as [Hs Hst].
  assert (Hnone : activeRotations w !! sid = None).
  { apply (not_rotating sid s w Hinv Hs). rewrite Hst. discriminate. }
  cbn [snd]. apply inv_emit, inv_notify, inv_set_timeouts, inv_start.
  - apply inv_update_session; [exact Hinv|]. intros s0 _.
    split; [apply session_ok_active; reflexivity|reflexivity].
  - exact Hnone.
  - intros s0. wsimpl. rewrite lookup_alter_eq, Hs. cbn.
    intros H. injection H as <-. reflexivity.
Qed.

Lemma resume_inv now nb sb sid (w : World) :
  engine_inv w -> engine_inv (resume now nb sb sid w).2.
Proof.
  intros Hinv. unfold resume.
  destruct (session_with_status sid "paused" w) as [s|] eqn:E; [|exact Hinv].
  apply session_with_status_Some in E as [Hs Hst].
  assert (Hnone : activeRotations w !! sid = None).
  { apply (not_rotating sid s w Hinv Hs). rewrite Hst. discriminate. }
  cbn [snd]. apply inv_start.
  - apply inv_update_session; [exact Hinv|]. intros s0 _.
    split; [apply session_ok_active; reflexivity|reflexivity].
  - exact Hnone.
  - intros s0. wsimpl. rewrite lookup_alter_eq, Hs. cbn.
    intros H. injection H as <-. reflexivity.
Qed.

Lemma pause_inv sid (w : World) :
  engine_inv w -> engine_inv (pause sid w).2.
Proof.
  intros Hinv. unfold pause.
  destruct (session_with_status sid "active" w) as [s|]; [|exact Hinv].
  cbn [snd]. apply (inv_close sid "paused").
  - apply inv_stop, Hinv.
  - apply stopQRCodeRotation_stopped.
  - intros s0. apply session_ok_closed. discriminate.
Qed.

Lemma cancel_inv sid notes (w : World) :
  engine_inv w -> engine_inv (cancel sid notes w).2.
Proof.
  intros Hinv. unfold cancel.
  destruct (class_sessions (stopQRCodeRotation sid w) !! sid); cbn [snd].
  - apply (inv_close sid "cancelled").
    + apply inv_stop, Hinv.
    + apply stopQRCodeRotation_stopped.
    + intros s0. split; cbn; [split; discriminate|reflexivity].
  - apply inv_stop, Hinv.
Qed.

Lemma complete_inv now sid (w : World) :
  engine_inv w -> engine_inv (complete now sid w).2.
Proof.
  intros Hinv. unfold complete.
  destruct (class_sessions (stopQRCodeRotation sid w) !! sid) as [s|];
    [|apply inv_stop, Hinv].
  destruct (insert_absent sid now s (stopQRCodeRotation sid w)) as [w1|] eqn:E;
    [|apply inv_stop, Hinv].
  cbn [snd]. apply inv_emit, (inv_close sid "completed").
  - eapply inv_insert_absent; [apply inv_stop, Hinv|exact E].
  - rewrite (insert_absent_rotations _ _ _ _ _ E). apply stopQRCodeRotation_stopped.
  - intros s0. apply session_ok_closed. discriminate.
Qed.

Lemma completeSessionAutomatically_inv now sid (w : World) :
  engine_inv w -> engine_inv (completeSessionAutomatically now sid w).2.
Proof.
  intros Hinv. unfold completeSessionAutomatically.
  destruct (session_with_status sid "active" w) as [s|]; [|exact Hinv].
  destruct (insert_absent sid now s (stopQRCodeRotation sid w)) as [w1|] eqn:E;
    [|apply inv_stop, Hinv].
  cbn [snd]. apply inv_emit, (inv_close sid "completed").
  - eapply inv_insert_absent; [apply inv_stop, Hinv|exact E].
  - rewrite (insert_absent_rotations _ _ _ _ _ E). apply stopQRCodeRotation_stopped.
  - intros s0. apply session_ok_closed. discriminate.
Qed.

Lemma fire_timeout_inv now i (w : World) :
  engine_inv w -> engine_inv (fire_timeout now i w).
Proof.
  intros Hinv. unfold fire_timeout.
  destruct (timeouts w !! i); [|exact Hinv].
  apply completeSessionAutomatically_inv, inv_set_timeouts, Hinv.
Qed.

Lemma rotation_tick_inv now nb sb h (w : World) :
  engine_inv w -> engine_inv (rotation_tick now nb sb h w).
Proof.
  intros Hinv. unfold rotation_tick.
  destruct (intervals w !! h) as [sid|] eqn:E; [|exact Hinv].
  apply inv_emit, inv_update_session; [exact Hinv|].
  destruct Hinv as [Hs [[Hreg _] Ha]]. intros s Hsid.
  apply Hreg in E. pose proof (Ha sid h s E Hsid) as Hst.
  split; [|intros _; exact Hst].
  destruct (Hs sid s Hsid) as [Hact _].
  split; cbn; [exact Hact|contradiction].
Qed.

Lemma scan_record_inv t a (w : World) :
  engine_inv w -> engine_inv (scan_record t a w).2.
Proof.
  intros Hinv. unfold scan_record.
  match goal with |- context [insert_attendance [?row] w] => set (row0 := row) end.
  destruct (insert_attendance [row0] w) as [w1|] eqn:E; [|exact Hinv].
  cbn [snd]. apply inv_add_notifications, inv_emit, inv_update_neutral.
  - intros s. repeat split.
  - eapply inv_insert_attendance; eassumption.
Qed.

Lemma scan_inv now currentTime scanTime req (w : World) :
  engine_inv w -> engine_inv (scan now currentTime scanTime req w).2.
Proof.
  intros Hinv. unfold scan.
  destruct (scan_resolve now currentTime req w) as [r|a]; [exact Hinv|].
  destruct (scan_duplicate_check a w); [exact Hinv|].
  apply scan_record_inv, Hinv.
Qed.

Lemma post_attendance_inv now sid b (w : World) :
  engine_inv w -> engine_inv (post_attendance now sid b w).2.
Proof.
  intros Hinv. unfold post_attendance.
  destruct (class_sessions w !! sid) as [s|]; [|exact Hinv].
  destruct (negb _); [exact Hinv|].
  destruct (single _); [|exact Hinv].
  match goal with |- context [insert_attendance [?row] w] => set (row0 := row) end.
  destruct (insert_attendance [row0] w) as [w1|] eqn:E; [|exact Hinv].
  cbn [snd]. eapply inv_insert_attendance; eassumption.
Qed.

Lemma get_session_qr_inv now nb sb sid (w : World) :
  engine_inv w -> engine_inv (get_session_qr now nb sb sid w).2.
Proof.
  intros Hinv. unfold get_session_qr.
  destruct (session_with_status sid "scheduled" w) as [s|]; [|exact Hinv].
  cbn [snd]. apply inv_update_session; [exact Hinv|]. intros s0 _.
  split; [apply session_ok_active; reflexivity|reflexivity].
Qed.

Lemma patch_attendance_inv now sid student st (w : World) :
  engine_inv w -> engine_inv (patch_attendance now sid student st w).2.
Proof.
  intros Hinv. unfold patch_attendance.
  destruct (negb _); [exact Hinv|].
  destruct (session_with_status sid "completed" w); [|exact Hinv].
  destruct (single _) as [student0|]; [|exact Hinv].
  destruct (single _) as [existing|].
  - cbn [snd].
    set (w1 := set_attendance_records _ w).
    destruct (run_trigger_frame [existing] w1) as [_ [_ [_ [_ [Hrot [Hint [Hnext _]]]]]]].
    apply (inv_same_lifecycle w _ Hinv Hrot Hint Hnext).
    intros k. apply (run_trigger_sessions [existing] w1 k).
  - match goal with |- context [insert_attendance [?row] w] => set (row0 := row) end.
    destruct (insert_attendance [row0] w) as [w1|] eqn:E; [|exact Hinv].
    cbn [snd]. eapply inv_insert_attendance; eassumption.
Qed.

(** Every operation of the engine keeps the invariant. *)
Lemma engine_step_inv (w w' : World) :
  engine_inv w -> engine_step w w' -> engine_inv w'.
Proof.
  intros Hinv Hstep. destruct Hstep.
  - apply activate_inv, Hinv.
  - apply pause_inv, Hinv.
  - apply resume_inv, Hinv.
  - apply complete_inv, Hinv.
  - apply cancel_inv, Hinv.
  - apply fire_timeout_inv, Hinv.
  - apply rotation_tick_inv, Hinv.
  - apply scan_inv, Hinv.
  - apply post_attendance_inv, Hinv.
  - apply get_session_qr_inv, Hinv.
  - apply patch_attendance_inv, Hinv.
Qed.


(** The state-guarded transitions refuse, and leave the world as it is,
    from any other status. *)
Lemma guarded_transitions_refuse (sid : string) (w : World) :
  (forall now nb sb notes,
      (forall s, class_sessions w !! sid = Some s -> status s <> "scheduled") ->
      activate now nb sb sid notes w
      = (Status 400 "Session not found or already activated", w))
  /\ ((forall s, class_sessions w !! sid = Some s -> status s <> "active") ->
      pause sid w = (Status 400 "Session not found or not active", w))
  /\ (forall now nb sb,
         (forall s, class_sessions w !! sid = Some s -> status s <> "paused") ->
         resume now nb sb sid w = (Status 400 "Session not found or not paused", w)).
Proof.
  split; [|split].
  - intros now nb sb notes H. unfold activate.
    rewrite (proj2 (session_with_status_None sid "scheduled" w) H). reflexivity.
  - intros H. unfold pause.
    rewrite (proj2 (session_with_status_None sid "active" w) H). reflexivity.
  - intros now nb sb H. unfold resume.
    rewrite (proj2 (session_with_status_None sid "paused" w) H). reflexivity.
Qed.








(** ** Overlapping redemptions *)



Lemma unique_at_most_one (k : string * string) (l : list AttendanceRecord) :
  NoDup (rec_key <$> l) -> (length (records_of k l) <= 1)%nat.
Proof.
  intros Hnd. destruct (records_of k l) as [|r rest] eqn:E; [cbn; lia|].
  assert (Hr : r ∈ records_of k l) by (rewrite E; left).
  apply list_elem_of_filter in Hr as [Hk Hr].
  rewrite <- Hk, (records_of_singleton r l Hnd Hr) in E.
  injection E as <-. cbn. lia.
Qed.



Lemma single_Some_elem {A} (l : list A) (x : A) : single l = Some x -> l = [x].
Proof.
  destruct l as [|y [|z rest]]; try discriminate. intros H. injection H as ->. reflexivity.
Qed.





(** The handler run without interruption is the thread taking its two
    turns in a row. *)
Lemma scan_is_uninterrupted_run (now currentTime scanTime later : Z)
    (req : ScanRequest) (w : World) (a : Attempt) :
  scan_resolve now currentTime req w = inr a ->
  run_pool [(0%nat, scanTime); (0%nat, later)] ([mkThread a Waiting], w)
  = ([mkThread a (Done (scan now currentTime scanTime req w).1)],
     (scan now currentTime scanTime req w).2).
Proof.
  intros Hres. unfold scan. rewrite Hres. cbn.
  unfold pool_step, thread_step. cbn.
  destruct (scan_duplicate_check a w) as [r|]; cbn; [reflexivity|].
  destruct (scan_record scanTime a w) as [r w']. reflexivity.
Qed.



Lemma notify_records (sid : string) (w : World) :
  attendance_records (notifyStudentsSessionActivated sid w) = attendance_records w.
Proof.
  unfold notifyStudentsSessionActivated.
  destruct (class_sessions w !! sid) as [s|]; [|reflexivity].
  destruct (class_instances w !! class_instance_id s); reflexivity.
Qed.






(** * Further properties *)

(** ** What a scan does and does not do *)

Lemma single_elem {A} (l : list A) (x : A) : single l = Some x -> x ∈ l.
Proof. intros H. apply single_Some_elem in H as ->. left. Qed.

(** What a request that resolves has been through. *)
Lemma scan_resolve_inr (now currentTime : Z) (req : ScanRequest) (w : World)
    (a : Attempt) :
  scan_resolve now currentTime req w = inr a ->
  exists q,
    body_qrData req = QrValue (PObject q)
    /\ validateQR now currentTime (PObject q) = Valid (sessionId q) (timestamp q)
    /\ att_sessionId a = js_to_string (sessionId q)
    /\ class_sessions w !! att_sessionId a = Some (att_session a)
    /\ status (att_session a) = "active"
    /\ class_instances w !! class_instance_id (att_session a) = Some (att_professor_id a)
    /\ att_studentId a = body_studentId req
    /\ (body_studentId req, att_user_id a) ∈ students w
    /\ (exists e, e ∈ enrollments w
                  /\ enr_student_id e = att_user_id a
                  /\ enr_class_instance_id e = class_instance_id (att_session a)).
Proof.
  unfold scan_resolve. intros H.
  destruct (body_qrData req) as [| |p]; [discriminate| |];
    (destruct (String.eqb (body_studentId req) EmptyString); [discriminate|]);
    [discriminate|].
  destruct (validateQR now currentTime p) as [e|sid ts] eqn:Hv; [discriminate|].
  unfold session_with_status in H.
  destruct (class_sessions w !! js_to_string sid) as [session|] eqn:Hs; [|discriminate].
  destruct (String.eqb (status session) "active") eqn:Hst; [|discriminate].
  destruct (class_instances w !! class_instance_id session) as [prof|] eqn:Hc;
    [|discriminate].
  destruct (single (filter _ (students w))) as [st|] eqn:Hstu; [|discriminate].
  destruct (single (filter _ (enrollments w))) as [e|] eqn:Hen; [|discriminate].
  injection H as <-. cbn [att_sessionId att_session att_professor_id att_studentId
                           att_user_id].
  assert (Hq : exists q, p = PObject q /\ sid = sessionId q /\ ts = timestamp q).
  { unfold validateQR in Hv. destruct p as [|q]; [discriminate|].
    destruct (missing_field q); [discriminate|].
    destruct (timestamp q) as [| | |t0|] eqn:Hts; try discriminate.
    destruct (t0 <=? 0); [discriminate|].
    destruct (Date_getTime (expiresAt q)) as [ex|]; [|discriminate].
    destruct (ex <? now); [discriminate|].
    destruct (30000 <? currentTime - t0); [discriminate|].
    destruct (negb _); [discriminate|].
    injection Hv as <- <-. exists q. auto. }
  destruct Hq as [q [-> [-> ->]]].
  exists q. split; [reflexivity|]. split; [exact Hv|]. split; [reflexivity|].
  split; [exact Hs|]. split; [apply String.eqb_eq, Hst|]. split; [exact Hc|].
  split; [reflexivity|].
  apply single_elem in Hstu. apply list_elem_of_filter in Hstu as [Hnum Hstu].
  apply single_elem in Hen. apply list_elem_of_filter in Hen as [[He1 He2] Hen].
  split.
  { destruct st as [num uid]. cbn in *. subst num. exact Hstu. }
  exists e. auto.
Qed.

(** A request turned away before the duplicate check is answered an error. *)
Lemma scan_resolve_inl (now currentTime : Z) (req : ScanRequest) (w : World)
    (r : ScanResult) :
  scan_resolve now currentTime req w = inl r -> exists code error, r = ScanRefused code error.
Proof.
  unfold scan_resolve. intros H.
  repeat match type of H with
         | inl _ = inl _ => injection H as <-; eexists; eexists; reflexivity
         | inr _ = inl _ => discriminate
         | context [match ?x with _ => _ end] => destruct x
         end.
Qed.

(** What [validateQR] has checked when it answers valid. *)
Lemma validateQR_Valid (now currentTime : Z) (q : QrData) (sid ts : JsVal) :
  validateQR now currentTime (PObject q) = Valid sid ts ->
  sid = sessionId q /\ ts = timestamp q
  /\ truthy (sessionId q) = true /\ truthy (nonce q) = true
  /\ (exists t0, timestamp q = JNum t0 /\ 0 < t0 /\ currentTime - t0 <= 30000)
  /\ (exists e, Date_getTime (expiresAt q) = Some e /\ now <= e)
  /\ signature q
     = JStr (hmac_sha256_hex QR_SECRET
               (js_to_string (sessionId q) +:+ "-" +:+ js_to_string (timestamp q)
                +:+ "-" +:+ js_to_string (nonce q))).
Proof.
  unfold validateQR. intros Hv.
  destruct (missing_field q) eqn:Hm; [discriminate|].
  assert (Hf : truthy (sessionId q) = true /\ truthy (nonce q) = true).
  { unfold missing_field in Hm.
    destruct (truthy (sessionId q)); [|discriminate].
    destruct (truthy (timestamp q)); [|discriminate].
    destruct (truthy (nonce q)); [|discriminate]. auto. }
  destruct (timestamp q) as [| | |t0|] eqn:Hts; try discriminate.
  destruct (t0 <=? 0) eqn:Hpos; [discriminate|].
  destruct (Date_getTime (expiresAt q)) as [ex|]; [|discriminate].
  destruct (ex <? now) eqn:Hex; [discriminate|].
  destruct (30000 <? currentTime - t0) eqn:Hold; [discriminate|].
  destruct (strict_eq _ (signature q)) eqn:Hsig; [|discriminate].
  injection Hv as <- <-.
  apply Z.leb_gt in Hpos. apply Z.ltb_ge in Hex. apply Z.ltb_ge in Hold.
  split; [reflexivity|]. split; [reflexivity|].
  split; [apply Hf|]. split; [apply Hf|].
  split; [exists t0; auto|]. split; [exists ex; auto|].
  destruct (signature q) as [| | | |sg]; try discriminate.
  cbn in Hsig. apply String.eqb_eq in Hsig. rewrite <- Hsig. reflexivity.
Qed.

(** X1: a scan either answers with a newly stored record or leaves the
    world exactly as it was; the same holds for the direct attendance
    POST. *)
Theorem refusals_change_nothing (now currentTime scanTime : Z) (req : ScanRequest)
    (sessionId : string) (b : AttendanceBody) (w : World) :
  ((exists r m, (scan now currentTime scanTime req w).1 = ScanRecorded r m)
   \/ (scan now currentTime scanTime req w).2 = w)
  /\ ((exists r, (post_attendance now sessionId b w).1 = Recorded r)
      \/ (post_attendance now sessionId b w).2 = w).
Proof.
  split.
  - unfold scan. destruct (scan_resolve now currentTime req w) as [r|a]; [right; reflexivity|].
    destruct (scan_duplicate_check a w) as [r|]; [right; reflexivity|].
    unfold scan_record.
    match goal with |- context [insert_attendance [?row] w] => set (row0 := row) end.
    destruct (insert_attendance [row0] w) as [w1|]; [left|right; reflexivity].
    eexists. eexists. reflexivity.
  - unfold post_attendance.
    destruct (class_sessions w !! sessionId) as [s|]; [|right; reflexivity].
    destruct (negb _); [right; reflexivity|].
    destruct (single _); [|right; reflexivity].
    match goal with |- context [insert_attendance [?row] w] => set (row0 := row) end.
    destruct (insert_attendance [row0] w) as [w1|]; [left|right; reflexivity].
    eexists. reflexivity.
Qed.

(** X2: a scan stores a record only for a payload signed with the
    server's key over its own session id, timestamp and nonce, at most
    30 seconds old and not past its expiry, for a session in status
    active, a known student with an enrollment row in the session's
    class, and no earlier record of that student for the session; the
    record is the one row appended, for that session and that student. *)
Theorem scan_recorded_sound (now currentTime scanTime : Z) (req : ScanRequest)
    (w w' : World) (r : AttendanceRecord) (m : Z) :
  scan now currentTime scanTime req w = (ScanRecorded r m, w') ->
  exists q session uid,
    body_qrData req = QrValue (PObject q)
    /\ signature q
       = JStr (hmac_sha256_hex QR_SECRET
                 (js_to_string (sessionId q) +:+ "-" +:+ js_to_string (timestamp q)
                  +:+ "-" +:+ js_to_string (nonce q)))
    /\ (exists t0, timestamp q = JNum t0 /\ 0 < t0 /\ currentTime - t0 <= 30000)
    /\ (exists e, Date_getTime (expiresAt q) = Some e /\ now <= e)
    /\ class_sessions w !! js_to_string (sessionId q) = Some session
    /\ status session = "active"
    /\ (body_studentId req, uid) ∈ students w
    /\ (exists e, e ∈ enrollments w /\ enr_student_id e = uid
                  /\ enr_class_instance_id e = class_instance_id session)
    /\ records_of (js_to_string (sessionId q), uid) (attendance_records w) = []
    /\ rec_key r = (js_to_string (sessionId q), uid)
    /\ attendance_records w' = attendance_records w ++ [r].
Proof.
  unfold scan. intros H.
  destruct (scan_resolve now currentTime req w) as [r0|a] eqn:Hres.
  { apply scan_resolve_inl in Hres as [c [e ->]]. discriminate. }
  destruct (scan_duplicate_check a w) as [r0|] eqn:Hd.
  { unfold scan_duplicate_check in Hd. destruct (single _); [|discriminate].
    injection Hd as <-. injection H as H _. discriminate. }
  destruct (scan_resolve_inr _ _ _ _ _ Hres)
    as [q [Hq [Hv [Hsid [Hs [Hst [_ [_ [Hstu Hen]]]]]]]]].
  destruct (validateQR_Valid _ _ _ _ _ Hv) as [_ [_ [_ [_ [Hts [Hex Hsig]]]]]].
  assert (Hfresh : records_of (att_key a) (attendance_records w) = []).
  { destruct (decide (records_of (att_key a) (attendance_records w) = []))
      as [Hn|Hn]; [exact Hn|].
    rewrite (scan_record_conflict scanTime a w Hn) in H.
    injection H as H _. discriminate. }
  destruct (scan_record_fresh scanTime a w Hfresh) as [w1 [Hrec Hrows]].
  rewrite Hrec in H. injection H as <- _ <-.
  exists q, (att_session a), (att_user_id a).
  unfold att_key in Hfresh. rewrite Hsid in Hs, Hfresh.
  repeat (split; [assumption|]).
  split; [unfold rec_key; cbn; rewrite Hsid; reflexivity|exact Hrows].
Qed.

(** X3: the direct attendance POST has no duplicate check of its own: a
    second POST for a student who has a row for the session is answered
    500 by way of the rejected insert, and nothing changes. *)
Theorem post_attendance_duplicate (now : Z) (sessionId : string) (b : AttendanceBody)
    (w : World) (session : ClassSession) (enrollment : Enrollment)
    (existing : AttendanceRecord) :
  class_sessions w !! sessionId = Some session ->
  is_active session = true ->
  status session <> "cancelled" ->
  single (filter (fun e => enr_student_id e = body_student_id b
                           /\ enr_class_instance_id e = class_instance_id session
                           /\ enr_status e = "active") (enrollments w))
  = Some enrollment ->
  existing ∈ attendance_records w ->
  rec_key existing = (sessionId, body_student_id b) ->
  post_attendance now sessionId b w = (Refused 500 store_error, w).
Proof.
  intros Hs Hact Hst Henr Hin Hkey. unfold post_attendance. rewrite Hs, Hact.
  assert (String.eqb (status session) "cancelled" = false) as ->
    by (apply String.eqb_neq; exact Hst).
  cbn [andb negb]. rewrite Henr.
  match goal with |- context [insert_attendance [?row] w] => set (row0 := row) end.
  destruct (insert_attendance [row0] w) as [w1|] eqn:E; [|reflexivity].
  exfalso.
  assert (Hsome : is_Some (insert_attendance [row0] w)) by (rewrite E; eauto).
  apply insert_attendance_is_Some in Hsome as [_ Hf].
  apply (Hf row0); [left|].
  change (rec_key row0) with (sessionId, body_student_id b). rewrite <- Hkey.
  apply list_elem_of_fmap. eauto.
Qed.


(** ** The attendance counter *)

Lemma assign_ids_sessions (n : nat) (rows : list AttendanceRecord) :
  rec_session_id <$> assign_ids n rows = rec_session_id <$> rows.
Proof.
  revert n. induction rows as [|r rest IH]; intros n; [reflexivity|].
  cbn. f_equal. apply IH.
Qed.

Lemma records_of_session_length (sid : string) (l : list AttendanceRecord) :
  length (records_of_session sid l)
  = length (filter (fun s => s = sid) (rec_session_id <$> l)).
Proof.
  unfold records_of_session. induction l as [|r rest IH]; [reflexivity|].
  rewrite fmap_cons, !filter_cons.
  destruct (decide (rec_session_id r = sid)); cbn; rewrite IH; reflexivity.
Qed.

Lemma records_of_session_other (sid : string) (l : list AttendanceRecord) :
  sid ∉ rec_session_id <$> l -> records_of_session sid l = [].
Proof.
  intros Hn. apply filter_nil_intro. intros r Hr Hs. apply Hn.
  apply list_elem_of_fmap. eauto.
Qed.

(** What the trigger leaves in a session row. *)
Lemma run_trigger_lookup (rows : list AttendanceRecord) (w : World) (sid : string) :
  class_sessions (run_trigger rows w) !! sid
  = if decide (sid ∈ rec_session_id <$> rows)
    then set_attendance_count
           (Z.of_nat (length (records_of_session sid (attendance_records w))))
         <$> class_sessions w !! sid
    else class_sessions w !! sid.
Proof. no_runtime.
  induction rows as [|r rest IH].
  - cbn. destruct (decide _) as [H|_]; [inversion H|reflexivity].
  - change (run_trigger (r :: rest) w)
      with (recount (rec_session_id r) (run_trigger rest w)).
    unfold recount. wsimpl. rewrite lookup_alter.
    rewrite (proj1 (run_trigger_frame rest w)). rewrite fmap_cons.
    destruct (decide (rec_session_id r = sid)) as [Hr|Hr];
      [subst sid|]; rewrite IH.
    + destruct (decide (_ ∈ _ :: _)) as [_|Hn]; [|exfalso; apply Hn; left].
      destruct (decide _); destruct (class_sessions w !! rec_session_id r);
        reflexivity.
    + destruct (decide (sid ∈ rec_session_id <$> rest)) as [Hin|Hin].
      * destruct (decide (_ ∈ _ :: _)) as [_|Hn]; [reflexivity|].
        exfalso. apply Hn. right. exact Hin.
      * destruct (decide (_ ∈ _ :: _)) as [H|_]; [|reflexivity].
        apply elem_of_cons in H as [H|H]; [congruence|contradiction].
Qed.

Lemma run_trigger_counts (rows : list AttendanceRecord) (w : World) :
  (forall sid s, class_sessions w !! sid = Some s ->
                 sid ∉ rec_session_id <$> rows ->
                 attendance_count s
                 = Z.of_nat (length (records_of_session sid (attendance_records w)))) ->
  counts_ok (run_trigger rows w).
Proof.
  intros H sid s. rewrite run_trigger_lookup, (proj1 (run_trigger_frame rows w)).
  destruct (decide _) as [Hin|Hin].
  - destruct (class_sessions w !! sid) as [s0|]; [|discriminate].
    cbn. intros E. injection E as <-. reflexivity.
  - intros Hs. apply H; assumption.
Qed.

Lemma insert_attendance_counts (rows : list AttendanceRecord) (w w' : World) :
  counts_ok w -> insert_attendance rows w = Some w' -> counts_ok w'.
Proof.
  unfold insert_attendance. intros Hc H.
  destruct (accept_rows (attendance_records w) rows) as [table|] eqn:Ha; [|discriminate].
  injection H as <-. apply accept_rows_Some in Ha as ->.
  apply run_trigger_counts. wsimpl. intros sid s Hs Hn.
  unfold records_of_session. rewrite filter_app, length_app.
  fold (records_of_session sid (attendance_records w)).
  fold (records_of_session sid
          (assign_ids (length (attendance_records w)) rows)).
  rewrite (records_of_session_other sid (assign_ids _ rows))
    by (rewrite assign_ids_sessions; exact Hn).
  cbn. rewrite Nat.add_0_r. apply Hc, Hs.
Qed.

Lemma insert_absent_counts (sid : string) (now : Z) (session : ClassSession)
    (w w' : World) :
  counts_ok w -> insert_absent sid now session w = Some w' -> counts_ok w'.
Proof.
  unfold insert_absent. intros Hc. destruct (studentsNeedingRecords _ _).
  - intros H. injection H as <-. exact Hc.
  - apply insert_attendance_counts, Hc.
Qed.

(** Rewriting a row without touching its counter, or anything outside
    the session table. *)
Lemma counts_update_session (sid : string) (f : ClassSession -> ClassSession)
    (w : World) :
  (forall s, attendance_count (f s) = attendance_count s) ->
  counts_ok w -> counts_ok (update_session sid f w).
Proof.
  intros Hf Hc k s. wsimpl. rewrite lookup_alter. case_decide as Hk.
  - subst k. destruct (class_sessions w !! sid) as [s0|] eqn:E; [|discriminate].
    cbn. intros H. injection H as <-. rewrite Hf. apply Hc, E.
  - apply Hc.
Qed.

Lemma counts_frame (w w' : World) :
  class_sessions w' = class_sessions w ->
  attendance_records w' = attendance_records w ->
  counts_ok w -> counts_ok w'.
Proof. no_runtime. unfold counts_ok. intros -> ->. tauto. Qed.

Lemma notify_sessions (sid : string) (w : World) :
  class_sessions (notifyStudentsSessionActivated sid w) = class_sessions w.
Proof.
  unfold notifyStudentsSessionActivated.
  destruct (class_sessions w !! sid) as [s|]; [|reflexivity].
  destruct (class_instances w !! class_instance_id s); reflexivity.
Qed.

Lemma update_record_status_sessions (id : nat) (st : string)
    (l : list AttendanceRecord) :
  rec_session_id <$> update_record_status id st l = rec_session_id <$> l.
Proof.
  unfold update_record_status. rewrite <- list_fmap_compose.
  apply list_fmap_ext. intros i r _. cbn. destruct (Nat.eqb (rec_id r) id); reflexivity.
Qed.

Lemma completion_counts (now : Z) (sid : string) (session : ClassSession)
    (w0 w1 : World) :
  counts_ok w0 -> insert_absent sid now session w0 = Some w1 ->
  counts_ok (emit [session_status_update sid "completed"; session_completed sid]
               (update_session sid (set_closed "completed") w1)).
Proof.
  intros Hc H.
  apply (counts_frame (update_session sid (set_closed "completed") w1));
    [reflexivity|reflexivity|].
  apply counts_update_session; [reflexivity|].
  eapply insert_absent_counts; eassumption.
Qed.

Lemma scan_record_counts (t : Z) (a : Attempt) (w : World) :
  class_sessions w !! att_sessionId a = Some (att_session a) ->
  counts_ok w -> counts_ok (scan_record t a w).2.
Proof.
  intros Hs Hc. unfold scan_record.
  match goal with |- context [insert_attendance [?row] w] => set (row0 := row) end.
  destruct (insert_attendance [row0] w) as [w1|] eqn:E; [|exact Hc].
  cbn [snd].
  match goal with |- counts_ok (add_notifications _ (emit _ ?w2)) =>
    apply (counts_frame w2); [reflexivity|reflexivity|] end.
  pose proof (insert_attendance_counts _ _ _ Hc E) as Hc1.
  pose proof (insert_attendance_records _ _ _ E) as Hrows.
  pose proof (insert_attendance_sessions _ _ _ (att_sessionId a) E) as Hup.
  intros k s. wsimpl. rewrite lookup_alter. case_decide as Hk; [|apply Hc1].
  subst k. rewrite Hs in Hup. unfold upto_count in Hup.
  destruct (class_sessions w1 !! att_sessionId a) as [s1|] eqn:E1; [|contradiction].
  cbn. intros H. injection H as <-. cbn [attendance_count set_attendance_count].
  rewrite (Hc _ _ Hs), Hrows.
  unfold records_of_session. rewrite filter_app, length_app.
  cbn [assign_ids]. rewrite filter_cons, filter_nil.
  rewrite decide_True by reflexivity. cbn [length]. lia.
Qed.

Lemma backfill_loop_counts (now : string -> Z) (enrolled : list Enrollment)
    (sessions : list (string * ClassSession)) (n : nat) (w : World) :
  counts_ok w -> counts_ok (backfill_loop now enrolled sessions n w).2.
Proof.
  revert n w. induction sessions as [|session rest IH]; intros n w Hc; [exact Hc|].
  cbn [backfill_loop]. destruct (studentsNeedingRecords _ _) as [|e l]; [apply IH, Hc|].
  destruct (insert_attendance _ w) as [w1|] eqn:E; [|exact Hc].
  apply IH. eapply insert_attendance_counts; eassumption.
Qed.

Lemma engine_step_counts (w w' : World) :
  counts_ok w -> engine_step w w' -> counts_ok w'.
Proof.
  intros Hc Hstep. destruct Hstep.
  - unfold activate. destruct (session_with_status _ _ _); [|exact Hc].
    cbn [snd].
    match goal with |- counts_ok (emit _ (notifyStudentsSessionActivated ?s ?w2)) =>
      apply (counts_frame w2); [apply (notify_sessions s w2)|apply (notify_records s w2)|]
    end.
    match goal with |- counts_ok (set_timeouts _ (startQRCodeRotation _ ?w2)) =>
      apply (counts_frame w2); [reflexivity|reflexivity|] end.
    apply counts_update_session; [reflexivity|exact Hc].
  - unfold pause. destruct (session_with_status _ _ _); [|exact Hc].
    cbn [snd]. apply counts_update_session; [reflexivity|].
    eapply counts_frame; [apply stopQRCodeRotation_frame| |exact Hc].
    apply stopQRCodeRotation_frame.
  - unfold resume. destruct (session_with_status _ _ _); [|exact Hc].
    cbn [snd].
    match goal with |- counts_ok (startQRCodeRotation _ ?w2) =>
      apply (counts_frame w2); [reflexivity|reflexivity|] end.
    apply counts_update_session; [reflexivity|exact Hc].
  - unfold complete.
    assert (Hc0 : counts_ok (stopQRCodeRotation sid w)).
    { eapply counts_frame; [apply stopQRCodeRotation_frame| |exact Hc].
      apply stopQRCodeRotation_frame. }
    destruct (class_sessions _ !! sid) as [s|]; [|exact Hc0].
    destruct (insert_absent _ _ _ _) as [w1|] eqn:E; [|exact Hc0].
    cbn [snd]. eapply completion_counts; eassumption.
  - unfold cancel.
    assert (Hc0 : counts_ok (stopQRCodeRotation sid w)).
    { eapply counts_frame; [apply stopQRCodeRotation_frame| |exact Hc].
      apply stopQRCodeRotation_frame. }
    destruct (class_sessions _ !! sid) as [s|]; [|exact Hc0].
    cbn [snd]. apply counts_update_session; [reflexivity|exact Hc0].
  - unfold fire_timeout. destruct (timeouts w !! i) as [sid|]; [|exact Hc].
    unfold completeSessionAutomatically.
    set (w0 := set_timeouts (delete i (timeouts w)) w).
    assert (Hcw : counts_ok w0) by exact Hc.
    destruct (session_with_status _ _ _) as [s|]; [|exact Hcw].
    assert (Hc0 : counts_ok (stopQRCodeRotation sid w0)).
    { eapply counts_frame; [apply stopQRCodeRotation_frame| |exact Hcw].
      apply stopQRCodeRotation_frame. }
    destruct (insert_absent _ _ _ _) as [w1|] eqn:E; [|exact Hc0].
    cbn [snd]. eapply completion_counts; eassumption.
  - unfold rotation_tick. destruct (intervals w !! h) as [sid|]; [|exact Hc].
    match goal with |- counts_ok (emit _ ?w2) =>
      apply (counts_frame w2); [reflexivity|reflexivity|] end.
    apply counts_update_session; [reflexivity|exact Hc].
  - unfold scan. destruct (scan_resolve _ _ _ _) as [r|a] eqn:Hres; [exact Hc|].
    destruct (scan_duplicate_check a w); [exact Hc|].
    apply scan_record_counts; [|exact Hc].
    eapply scan_resolve_session. exact Hres.
  - unfold post_attendance.
    destruct (class_sessions w !! sid) as [s|]; [|exact Hc].
    destruct (negb _); [exact Hc|].
    destruct (single _); [|exact Hc].
    match goal with |- context [insert_attendance [?row] w] => set (row0 := row) end.
    destruct (insert_attendance [row0] w) as [w1|] eqn:E; [|exact Hc].
    cbn [snd]. eapply insert_attendance_counts; eassumption.
  - unfold get_session_qr. destruct (session_with_status _ _ _); [|exact Hc].
    cbn [snd]. apply counts_update_session; [reflexivity|exact Hc].
  - unfold patch_attendance.
    destruct (negb _); [exact Hc|].
    destruct (session_with_status sid "completed" w); [|exact Hc].
    destruct (single _) as [student0|]; [|exact Hc].
    destruct (single _) as [existing|].
    + cbn [snd]. apply run_trigger_counts. wsimpl. intros k s Hs _.
      rewrite records_of_session_length, update_record_status_sessions,
        <- records_of_session_length.
      apply Hc, Hs.
    + match goal with |- context [insert_attendance [?row] w] => set (row0 := row) end.
      destruct (insert_attendance [row0] w) as [w1|] eqn:E; [|exact Hc].
      cbn [snd]. eapply insert_attendance_counts; eassumption.
Qed.

Lemma route_step_counts (w w' : World) :
  counts_ok w -> route_step w w' -> counts_ok w'.
Proof.
  intros Hc Hstep. destruct Hstep as [w w' He|sid b w|c u w|now c w].
  - eapply engine_step_counts; eassumption.
  - unfold put_session. destruct (class_sessions w !! sid); [|exact Hc].
    cbn [snd]. apply counts_update_session; [reflexivity|exact Hc].
  - unfold unenroll. destruct (single _); [|exact Hc].
    cbn [snd]. destruct (class_instances _ !! c); exact Hc.
  - unfold backfill_attendance.
    pose proof (backfill_loop_counts now (enrolledStudents c w)
                  (completed_sessions c w) 0 w Hc) as H.
    destruct (backfill_loop _ _ _ _ _) as [[total|] w1]; exact H.
Qed.

(** X4: with the engine's operations, the session PUT, the unenroll
    route and the backfill run one at a time, [attendance_count] of
    every session stays equal to the number of attendance rows of the
    session, whatever is inserted, overridden, completed or backfilled. *)
Theorem attendance_count_exact (w w' : World) :
  counts_ok w -> rtc route_step w w' -> counts_ok w'.
Proof.
  intros Hc Hr. induction Hr as [|w1 w2 w3 Hstep _ IH]; [exact Hc|].
  apply IH. eapply route_step_counts; eassumption.
Qed.



(** ** The status graph *)

Lemma lifecycle_edge_refl (st : string) : lifecycle_edge st st.
Proof. left. reflexivity. Qed.

Lemma row_moves_upto_count (o o' : option ClassSession) :
  upto_count o o' -> row_moves o o'.
Proof. no_runtime.
  destruct o as [s|], o' as [s'|]; cbn; try tauto.
  intros [n ->]. split; [repeat split|apply lifecycle_edge_refl].
Qed.

(** Rewriting the row of [sid] with [f] after the counters have been
    brought up to date. *)
Lemma row_moves_alter (sid k : string) (f : ClassSession -> ClassSession)
    (o : option ClassSession) (m : gmap string ClassSession) :
  upto_count o (m !! k) ->
  (forall s, same_schedule s (f s)) ->
  (forall s s1, k = sid -> o = Some s -> status s1 = status s ->
                lifecycle_edge (status s) (status (f s1))) ->
  row_moves o (alter f sid m !! k).
Proof. no_runtime.
  intros Hup Hsched Hedge. rewrite lookup_alter. case_decide as Hk.
  - subst k. destruct o as [s|], (m !! sid) as [s1|]; cbn in *; try tauto.
    destruct Hup as [n ->]. split.
    + destruct (Hsched (set_attendance_count n s)) as [H1 [H2 [H3 H4]]].
      repeat split; assumption.
    + apply Hedge; reflexivity.
  - apply row_moves_upto_count, Hup.
Qed.

Lemma same_schedule_refl (s : ClassSession) : same_schedule s s.
Proof. repeat split. Qed.

Lemma stop_sessions (sid : string) (w : World) :
  class_sessions (stopQRCodeRotation sid w) = class_sessions w.
Proof. apply stopQRCodeRotation_frame. Qed.

Lemma completion_moves (now : Z) (sid k : string) (session : ClassSession)
    (w w0 w1 : World) :
  class_sessions w0 = class_sessions w ->
  insert_absent sid now session w0 = Some w1 ->
  row_moves (class_sessions w !! k)
    (class_sessions
       (emit [session_status_update sid "completed"; session_completed sid]
          (update_session sid (set_closed "completed") w1)) !! k).
Proof.
  intros Hcs E. wsimpl. apply row_moves_alter.
  - rewrite <- Hcs. eapply insert_absent_sessions, E.
  - intros s. repeat split.
  - intros s s1 _ _ _. right. right. right. right. left. reflexivity.
Qed.

Lemma engine_step_moves (w w' : World) (k : string) :
  engine_step w w' -> row_moves (class_sessions w !! k) (class_sessions w' !! k).
Proof.
  intros Hstep. pose proof (row_moves_upto_count _ _ (upto_count_refl (class_sessions w !! k)))
    as Hrefl.
  destruct Hstep.
  - unfold activate. destruct (session_with_status _ _ _) as [s0|] eqn:Hg; [|exact Hrefl].
    cbn [snd]. apply session_with_status_Some in Hg as [Hl Hst].
    wsimpl. rewrite notify_sessions. wsimpl. apply row_moves_alter.
    + apply upto_count_refl.
    + intros s. repeat split.
    + intros s s1 -> Hs _. rewrite Hl in Hs. injection Hs as <-.
      right. left. split; [exact Hst|reflexivity].
  - unfold pause. destruct (session_with_status _ _ _) as [s0|] eqn:Hg; [|exact Hrefl].
    cbn [snd]. apply session_with_status_Some in Hg as [Hl Hst].
    wsimpl. rewrite stop_sessions. apply row_moves_alter.
    + apply upto_count_refl.
    + intros s. repeat split.
    + intros s s1 -> Hs _. rewrite Hl in Hs. injection Hs as <-.
      right. right. left. split; [exact Hst|reflexivity].
  - unfold resume. destruct (session_with_status _ _ _) as [s0|] eqn:Hg; [|exact Hrefl].
    cbn [snd]. apply session_with_status_Some in Hg as [Hl Hst].
    wsimpl. apply row_moves_alter.
    + apply upto_count_refl.
    + intros s. repeat split.
    + intros s s1 -> Hs _. rewrite Hl in Hs. injection Hs as <-.
      right. right. right. left. split; [exact Hst|reflexivity].
  - unfold complete. rewrite stop_sessions.
    destruct (class_sessions w !! sid) as [s|];
      [|cbn [snd]; rewrite stop_sessions; exact Hrefl].
    destruct (insert_absent _ _ _ _) as [w1|] eqn:E;
      [|cbn [snd]; rewrite stop_sessions; exact Hrefl].
    cbn [snd]. eapply completion_moves; [|exact E]. apply stop_sessions.
  - unfold cancel. rewrite stop_sessions.
    destruct (class_sessions w !! sid) as [s|];
      [|cbn [snd]; rewrite stop_sessions; exact Hrefl].
    cbn [snd]. wsimpl. rewrite stop_sessions. apply row_moves_alter.
    + apply upto_count_refl.
    + intros s0. repeat split.
    + intros s0 s1 _ _ _. right. right. right. right. right. reflexivity.
  - unfold fire_timeout. destruct (timeouts w !! i) as [sid|]; [|exact Hrefl].
    unfold completeSessionAutomatically.
    set (w0 := set_timeouts (delete i (timeouts w)) w).
    destruct (session_with_status _ _ _) as [s|]; [|exact Hrefl].
    destruct (insert_absent _ _ _ _) as [w1|] eqn:E;
      [|cbn [snd]; rewrite stop_sessions; exact Hrefl].
    cbn [snd]. eapply completion_moves; [|exact E].
    rewrite stop_sessions. reflexivity.
  - unfold rotation_tick. destruct (intervals w !! h) as [sid|]; [|exact Hrefl].
    wsimpl. apply row_moves_alter.
    + apply upto_count_refl.
    + intros s. repeat split.
    + intros s s1 _ _ Hst. left. exact Hst.
  - unfold scan. destruct (scan_resolve _ _ _ _) as [r|a]; [exact Hrefl|].
    destruct (scan_duplicate_check a w); [exact Hrefl|].
    unfold scan_record.
    match goal with |- context [insert_attendance [?row] w] => set (row0 := row) end.
    destruct (insert_attendance [row0] w) as [w1|] eqn:E; [|exact Hrefl].
    cbn [snd]. wsimpl. apply row_moves_alter.
    + eapply insert_attendance_sessions, E.
    + intros s. repeat split.
    + intros s s1 _ _ Hst. left. exact Hst.
  - unfold post_attendance.
    destruct (class_sessions w !! sid) as [s|]; [|exact Hrefl].
    destruct (negb _); [exact Hrefl|].
    destruct (single _); [|exact Hrefl].
    match goal with |- context [insert_attendance [?row] w] => set (row0 := row) end.
    destruct (insert_attendance [row0] w) as [w1|] eqn:E; [|exact Hrefl].
    cbn [snd]. eapply row_moves_upto_count, insert_attendance_sessions, E.
  - unfold get_session_qr.
    destruct (session_with_status _ _ _) as [s0|] eqn:Hg; [|exact Hrefl].
    cbn [snd]. apply session_with_status_Some in Hg as [Hl Hst].
    wsimpl. apply row_moves_alter.
    + apply upto_count_refl.
    + intros s. repeat split.
    + intros s s1 -> Hs _. rewrite Hl in Hs. injection Hs as <-.
      right. left. split; [exact Hst|reflexivity].
  - unfold patch_attendance.
    destruct (negb _); [exact Hrefl|].
    destruct (session_with_status sid "completed" w); [|exact Hrefl].
    destruct (single _) as [student0|]; [|exact Hrefl].
    destruct (single _) as [existing|].
    + cbn [snd]. apply row_moves_upto_count.
      apply (run_trigger_sessions [existing]
               (set_attendance_records
                  (update_record_status (rec_id existing) st (attendance_records w)) w) k).
    + match goal with |- context [insert_attendance [?row] w] => set (row0 := row) end.
      destruct (insert_attendance [row0] w) as [w1|] eqn:E; [|exact Hrefl].
      cbn [snd]. eapply row_moves_upto_count, insert_attendance_sessions, E.
Qed.

Lemma closed_edge (st st' : string) :
  (st = "completed" \/ st = "cancelled") -> lifecycle_edge st st' ->
  st' = "completed" \/ st' = "cancelled".
Proof. no_runtime.
  unfold lifecycle_edge.
  intros Hc [ -> | [ [ -> _ ] | [ [ -> _ ] | [ [ -> _ ] | [ -> | -> ] ] ] ] ]; auto;
    destruct Hc as [Hc|Hc]; discriminate.
Qed.

Lemma closed_stays_closed (w w' : World) (sid : string) (s : ClassSession) :
  rtc engine_step w w' ->
  class_sessions w !! sid = Some s -> closed s ->
  exists s', class_sessions w' !! sid = Some s' /\ same_schedule s s' /\ closed s'.
Proof.
  intros Hr. revert s. induction Hr as [w|w1 w2 w3 Hstep _ IH]; intros s Hs Hc.
  - exists s. split; [exact Hs|]. split; [apply same_schedule_refl|exact Hc].
  - pose proof (engine_step_moves w1 w2 sid Hstep) as Hm. rewrite Hs in Hm.
    unfold row_moves in Hm.
    destruct (class_sessions w2 !! sid) as [s2|] eqn:E2; [|contradiction].
    destruct Hm as [Hsched Hedge].
    destruct (IH s2 eq_refl (closed_edge _ _ Hc Hedge)) as [s' [Hs' [Hsched' Hc']]].
    exists s'. split; [exact Hs'|]. split; [|exact Hc'].
    destruct Hsched as [H1 [H2 [H3 H4]]], Hsched' as [H1' [H2' [H3' H4']]].
    repeat split; congruence.
Qed.

(** X6: every operation of the engine moves every session along an edge
    of the status graph (scheduled to active, active to paused, paused
    to active, anything to completed or cancelled, or no move), creates
    and deletes no session, and leaves class, date, start and end time
    of every session as they were. *)
Theorem engine_step_follows_lifecycle (w w' : World) (sid : string) (s : ClassSession) :
  engine_step w w' ->
  class_sessions w !! sid = Some s ->
  exists s',
    class_sessions w' !! sid = Some s'
    /\ same_schedule s s'
    /\ lifecycle_edge (status s) (status s').
Proof.
  intros Hstep Hs. pose proof (engine_step_moves w w' sid Hstep) as Hm.
  rewrite Hs in Hm. unfold row_moves in Hm.
  destruct (class_sessions w' !! sid) as [s'|]; [|contradiction].
  exists s'. split; [reflexivity|exact Hm].
Qed.

(** X7: once a session is completed or cancelled, whatever engine
    operations run afterwards it stays completed or cancelled, and from
    a state satisfying the engine invariant no attendance POST and no
    scan of a token of that session is accepted any more: both are
    refused and change nothing. *)
Theorem closed_session_takes_no_attendance (w w' : World) (sid : string)
    (s : ClassSession) :
  engine_inv w ->
  class_sessions w !! sid = Some s ->
  closed s ->
  rtc engine_step w w' ->
  (exists s', class_sessions w' !! sid = Some s' /\ closed s')
  /\ (forall now b,
         post_attendance now sid b w'
         = (Refused 400 "Session is not active or cancelled", w'))
  /\ (forall now currentTime scanTime req q,
         body_qrData req = QrValue (PObject q) ->
         js_to_string (sessionId q) = sid ->
         exists code error,
           scan now currentTime scanTime req w' = (ScanRefused code error, w')).
Proof.
  intros Hinv Hs Hc Hr.
  destruct (closed_stays_closed w w' sid s Hr Hs Hc) as [s' [Hs' [_ Hc']]].
  assert (Hinv' : engine_inv w').
  { clear Hs Hs' Hc Hc'. induction Hr as [|w1 w2 w3 Hstep _ IH]; [exact Hinv|].
    apply IH. eapply engine_step_inv; eassumption. }
  assert (Hna : status s' <> "active").
  { intros H. destruct Hc' as [Hc'|Hc']; rewrite Hc' in H; discriminate. }
  split; [eauto|]. split.
  - intros now b. unfold post_attendance. rewrite Hs'.
    destruct Hinv' as [Hok _]. destruct (Hok sid s' Hs') as [Hact _].
    destruct (is_active s'); [exfalso; apply Hna, Hact; reflexivity|reflexivity].
  - intros now currentTime scanTime req q Hq Hsid. unfold scan.
    destruct (scan_resolve now currentTime req w') as [r|a] eqn:Hres.
    + apply scan_resolve_inl in Hres as [c [e ->]]. eauto.
    + exfalso. apply scan_resolve_inr in Hres
        as [q' [Hq' [_ [Hsid' [Hl [Hst _]]]]]].
      rewrite Hq in Hq'. injection Hq' as <-.
      rewrite Hsid', Hsid, Hs' in Hl. injection Hl as Hl. apply Hna.
      rewrite Hl. exact Hst.
Qed.

(** ** The attendance table only grows *)

Lemma row_core_update (id : nat) (st : string) (l : list AttendanceRecord) :
  row_core <$> update_record_status id st l = row_core <$> l.
Proof.
  unfold update_record_status. rewrite <- list_fmap_compose.
  apply list_fmap_ext. intros i r _. cbn. destruct (Nat.eqb (rec_id r) id); reflexivity.
Qed.

Lemma grows_frame (w w' : World) :
  attendance_records w' = attendance_records w ->
  row_core <$> attendance_records w `prefix_of` row_core <$> attendance_records w'.
Proof. intros ->. reflexivity. Qed.

Lemma grows_insert (rows : list AttendanceRecord) (w w' : World) :
  insert_attendance rows w = Some w' ->
  row_core <$> attendance_records w `prefix_of` row_core <$> attendance_records w'.
Proof.
  intros H. rewrite (insert_attendance_records _ _ _ H), fmap_app.
  apply prefix_app_r. reflexivity.
Qed.

Lemma grows_insert_absent (sid : string) (now : Z) (session : ClassSession)
    (w w' : World) :
  insert_absent sid now session w = Some w' ->
  row_core <$> attendance_records w `prefix_of` row_core <$> attendance_records w'.
Proof.
  unfold insert_absent. destruct (studentsNeedingRecords _ _).
  - intros H. injection H as <-. reflexivity.
  - apply grows_insert.
Qed.

Lemma grows_backfill_loop (now : string -> Z) (enrolled : list Enrollment)
    (sessions : list (string * ClassSession)) (n : nat) (w : World) :
  row_core <$> attendance_records w
  `prefix_of` row_core <$> attendance_records (backfill_loop now enrolled sessions n w).2.
Proof.
  revert n w. induction sessions as [|session rest IH]; intros n w; [reflexivity|].
  cbn [backfill_loop]. destruct (studentsNeedingRecords _ _) as [|e l]; [apply IH|].
  destruct (insert_attendance _ w) as [w1|] eqn:E; [|reflexivity].
  etrans; [apply (grows_insert _ _ _ E)|apply IH].
Qed.

Lemma engine_step_grows (w w' : World) :
  engine_step w w' ->
  row_core <$> attendance_records w `prefix_of` row_core <$> attendance_records w'.
Proof.
  intros Hstep. destruct Hstep.
  - unfold activate. destruct (session_with_status _ _ _); [|reflexivity].
    cbn [snd]. apply grows_frame. wsimpl. rewrite notify_records. reflexivity.
  - unfold pause. destruct (session_with_status _ _ _); [|reflexivity].
    cbn [snd]. apply grows_frame. wsimpl. apply stopQRCodeRotation_frame.
  - unfold resume. destruct (session_with_status _ _ _); reflexivity.
  - unfold complete.
    assert (H0 : attendance_records (stopQRCodeRotation sid w) = attendance_records w)
      by apply stopQRCodeRotation_frame.
    destruct (class_sessions _ !! sid) as [s|]; [|apply grows_frame, H0].
    destruct (insert_absent _ _ _ _) as [w1|] eqn:E; [|apply grows_frame, H0].
    cbn [snd]. wsimpl. rewrite <- H0. eapply grows_insert_absent, E.
  - unfold cancel.
    assert (H0 : attendance_records (stopQRCodeRotation sid w) = attendance_records w)
      by apply stopQRCodeRotation_frame.
    destruct (class_sessions _ !! sid) as [s|]; apply grows_frame, H0.
  - unfold fire_timeout. destruct (timeouts w !! i) as [sid|]; [|reflexivity].
    unfold completeSessionAutomatically.
    set (w0 := set_timeouts (delete i (timeouts w)) w).
    destruct (session_with_status _ _ _) as [s|]; [|reflexivity].
    assert (H0 : attendance_records (stopQRCodeRotation sid w0) = attendance_records w)
      by apply (stopQRCodeRotation_frame sid w0).
    destruct (insert_absent _ _ _ _) as [w1|] eqn:E; [|apply grows_frame, H0].
    cbn [snd]. wsimpl. rewrite <- H0. eapply grows_insert_absent, E.
  - unfold rotation_tick. destruct (intervals w !! h); reflexivity.
  - unfold scan. destruct (scan_resolve _ _ _ _) as [r|a]; [reflexivity|].
    destruct (scan_duplicate_check a w); [reflexivity|].
    unfold scan_record.
    match goal with |- context [insert_attendance [?row] w] => set (row0 := row) end.
    destruct (insert_attendance [row0] w) as [w1|] eqn:E; [|reflexivity].
    cbn [snd]. wsimpl. eapply grows_insert, E.
  - unfold post_attendance.
    destruct (class_sessions w !! sid) as [s|]; [|reflexivity].
    destruct (negb _); [reflexivity|].
    destruct (single _); [|reflexivity].
    match goal with |- context [insert_attendance [?row] w] => set (row0 := row) end.
    destruct (insert_attendance [row0] w) as [w1|] eqn:E; [|reflexivity].
    cbn [snd]. eapply grows_insert, E.
  - unfold get_session_qr. destruct (session_with_status _ _ _); reflexivity.
  - unfold patch_attendance.
    destruct (negb _); [reflexivity|].
    destruct (session_with_status sid "completed" w); [|reflexivity].
    destruct (single _) as [student0|]; [|reflexivity].
    destruct (single _) as [existing|].
    + cbn [snd]. rewrite (proj1 (run_trigger_frame [existing] _)).
      cbn [attendance_records set_attendance_records].
      rewrite row_core_update. reflexivity.
    + match goal with |- context [insert_attendance [?row] w] => set (row0 := row) end.
      destruct (insert_attendance [row0] w) as [w1|] eqn:E; [|reflexivity].
      cbn [snd]. eapply grows_insert, E.
Qed.

(** X8: none of the engine's operations, the session PUT, the unenroll
    route or the backfill deletes an attendance row, reorders the table
    or changes the id, session, student, scan time, minutes late,
    device, address or secret of a stored row: whatever sequence of them
    runs, the old table without its status column is a prefix of the new
    one. *)
Theorem attendance_table_only_grows (w w' : World) :
  rtc route_step w w' ->
  row_core <$> attendance_records w `prefix_of` row_core <$> attendance_records w'.
Proof.
  intros Hr. induction Hr as [w|w1 w2 w3 Hstep _ IH]; [reflexivity|].
  etrans; [|exact IH]. clear IH.
  destruct Hstep as [w w' He|sid b w|c u w|now c w].
  - apply engine_step_grows, He.
  - unfold put_session. destruct (class_sessions w !! sid); reflexivity.
  - unfold unenroll. destruct (single _); [|reflexivity].
    cbn [snd]. destruct (class_instances _ !! c); reflexivity.
  - unfold backfill_attendance.
    pose proof (grows_backfill_loop now (enrolledStudents c w)
                  (completed_sessions c w) 0 w) as H.
    destruct (backfill_loop _ _ _ _ _) as [[total|] w1]; exact H.
Qed.


(** ** What the scan handler reads *)

Lemma scan_resolve_view (now currentTime : Z) (req : ScanRequest) (w1 w2 : World) :
  scan_view w1 w2 ->
  match scan_resolve now currentTime req w1, scan_resolve now currentTime req w2 with
  | inl r1, inl r2 => r1 = r2
  | inr a1, inr a2 =>
      att_sessionId a1 = att_sessionId a2
      /\ session_view (att_session a1) (att_session a2)
      /\ att_studentId a1 = att_studentId a2
      /\ att_user_id a1 = att_user_id a2
      /\ att_device a1 = att_device a2
      /\ att_ip a1 = att_ip a2
  | _, _ => False
  end.
Proof.
  intros [Hci [Hst [_ [Hs Hen]]]]. unfold scan_resolve.
  destruct (body_qrData req) as [| |p]; [reflexivity| |];
    (destruct (String.eqb (body_studentId req) EmptyString); [reflexivity|]);
    [reflexivity|].
  destruct (validateQR now currentTime p) as [e|sid ts]; [reflexivity|].
  unfold session_with_status. specialize (Hs (js_to_string sid)).
  destruct (class_sessions w1 !! js_to_string sid) as [s1|],
           (class_sessions w2 !! js_to_string sid) as [s2|];
    try contradiction; [|reflexivity].
  destruct Hs as [Hstatus [Hclass [Hdate Hstart]]]. rewrite <- Hstatus.
  destruct (String.eqb (status s1) "active"); [|reflexivity].
  rewrite <- Hci, <- Hclass.
  destruct (class_instances w1 !! class_instance_id s1) as [prof|]; [|reflexivity].
  rewrite <- Hst.
  destruct (single (filter _ (students w1))) as [st|]; [|reflexivity].
  specialize (Hen st.2 (class_instance_id s1)).
  destruct (single (filter _ (enrollments w1))) as [e1|],
           (single (filter _ (enrollments w2))) as [e2|].
  - cbn. repeat split; assumption.
  - destruct (proj1 Hen) as [x Hx]; [eauto|discriminate].
  - destruct (proj2 Hen) as [x Hx]; [eauto|discriminate].
  - reflexivity.
Qed.

(** The answer of a scan is a function of what [scan_view] keeps. *)
Lemma scan_answer_view (now currentTime scanTime : Z) (req : ScanRequest)
    (w1 w2 : World) :
  scan_view w1 w2 ->
  (scan now currentTime scanTime req w1).1 = (scan now currentTime scanTime req w2).1.
Proof.
  intros Hv. pose proof (scan_resolve_view now currentTime req w1 w2 Hv) as Hr.
  destruct Hv as [_ [_ [Hrec _]]]. unfold scan.
  destruct (scan_resolve now currentTime req w1) as [r1|a1],
           (scan_resolve now currentTime req w2) as [r2|a2];
    try contradiction; [exact Hr|].
  destruct Hr as [Hsid [[_ [_ [Hdate Hstart]]] [Hnum [Huid [Hdev Hip]]]]].
  unfold scan_duplicate_check, att_key. rewrite <- Hrec, <- Hsid, <- Huid.
  destruct (single _) as [existing|]; [reflexivity|].
  unfold scan_record, sessionStartTime.
  rewrite <- Hsid, <- Huid, <- Hdev, <- Hip, <- Hdate, <- Hstart, <- Hnum.
  match goal with |- context [insert_attendance [?row] w1] => set (row0 := row) end.
  unfold insert_attendance. rewrite <- Hrec.
  destruct (accept_rows (attendance_records w1) [row0]); reflexivity.
Qed.

Lemma single_fmap_is_Some {A B} (g : A -> B) (l : list A) :
  is_Some (single (g <$> l)) <-> is_Some (single l).
Proof.
  destruct l as [|x [|y rest]]; cbn; split; intros [z Hz]; try discriminate; eauto.
Qed.

Lemma filter_fmap_same {A} (P : A -> Prop) `{!forall x, Decision (P x)}
    (g : A -> A) (l : list A) :
  (forall x, P (g x) <-> P x) -> filter P (g <$> l) = g <$> filter P l.
Proof.
  intros Hg. induction l as [|x rest IH]; [reflexivity|].
  rewrite fmap_cons, !filter_cons.
  destruct (decide (P (g x))) as [Hp|Hp], (decide (P x)) as [Hq|Hq].
  - rewrite fmap_cons, IH. reflexivity.
  - exfalso. apply Hq, Hg, Hp.
  - exfalso. apply Hp, Hg, Hq.
  - exact IH.
Qed.

(** X9: the scan handler never reads the token stored in the session
    row: a rotation tick, which replaces [qr_secret] and [qr_expires_at]
    of the row, changes the answer to no scan request, so an earlier
    token stays redeemable until its own 30 seconds are over. *)
Theorem rotation_keeps_earlier_tokens (now currentTime scanTime tick : Z)
    (nb sb : list Byte.byte) (h : nat) (req : ScanRequest) (w : World) :
  (scan now currentTime scanTime req (rotation_tick tick nb sb h w)).1
  = (scan now currentTime scanTime req w).1.
Proof.
  apply scan_answer_view. unfold rotation_tick.
  destruct (intervals w !! h) as [sid|];
    (split; [reflexivity|split; [reflexivity|split; [reflexivity|split;
       [|intros; reflexivity]]]]).
  - intros k. wsimpl. rewrite lookup_alter. case_decide as Hk.
    + subst k. destruct (class_sessions w !! sid); cbn; repeat split.
    + destruct (class_sessions w !! k); repeat split.
  - intros k. destruct (class_sessions w !! k); repeat split.
Qed.

(** X10: dropping an enrollment does not keep the student from
    scanning: the enrollment check of the scan handler does not look at
    the status of the enrollment row, so every scan request is answered
    after the unenroll route as it would have been before it. *)
Theorem dropped_student_can_still_scan (now currentTime scanTime : Z)
    (req : ScanRequest) (instanceId student_id : string) (w : World) :
  (scan now currentTime scanTime req (unenroll instanceId student_id w).2).1
  = (scan now currentTime scanTime req w).1.
Proof.
  apply scan_answer_view. unfold unenroll.
  assert (Hrefl : forall k,
             match class_sessions w !! k, class_sessions w !! k with
             | Some s1, Some s2 => session_view s1 s2
             | None, None => True
             | _, _ => False
             end).
  { intros k. destruct (class_sessions w !! k); repeat split. }
  destruct (single _) as [e0|];
    [|split; [reflexivity|split; [reflexivity|split; [reflexivity|split;
        [apply Hrefl|intros; reflexivity]]]]].
  cbn [snd].
  assert (Hen : forall u c,
             is_Some (single (filter (fun e => enr_student_id e = u
                                               /\ enr_class_instance_id e = c)
                                ((fun e => if decide (enr_class_instance_id e = instanceId
                                                      /\ enr_student_id e = student_id)
                                           then set_dropped e else e) <$> enrollments w)))
             <-> is_Some (single (filter (fun e => enr_student_id e = u
                                                   /\ enr_class_instance_id e = c)
                                    (enrollments w)))).
  { intros u c. rewrite filter_fmap_same; [apply single_fmap_is_Some|].
    intros e. destruct (decide _); reflexivity. }
  destruct (class_instances _ !! instanceId);
    (split; [reflexivity|split; [reflexivity|split; [reflexivity|split;
       [apply Hrefl|apply Hen]]]]).
Qed.

(** X11: of the codes the routes hand out, two can never be redeemed.
    The image answered by GET /api/sessions/:sessionId/qr encodes a
    payload without [expiresAt], and the rotating code of the legacy
    route has neither [nonce] nor [signature]: the validator rejects
    both at its required-fields check whatever the clock says, and a
    scan request carrying either is answered 400 and stores nothing. *)
Theorem session_qr_payload_is_never_accepted (t0 now currentTime scanTime : Z)
    (nb sb : list Byte.byte) (sid : string) (req : ScanRequest) (w : World)
    (payload : QrData) :
  payload = session_qr_payload t0 nb sb sid
  \/ (exists qr, get_qr_code_legacy t0 sid w = Some qr
                 /\ payload = rotating_qr_payload qr) ->
  (exists field,
      validateQR now currentTime (PObject payload)
      = Invalid ("Missing required field: " +:+ field))
  /\ (body_qrData req = QrValue (PObject payload) ->
      exists error,
        scan now currentTime scanTime req w = (ScanRefused 400 error, w)).
Proof.
  intros Hp.
  assert (Hv : exists field,
             validateQR now currentTime (PObject payload)
             = Invalid ("Missing required field: " +:+ field)).
  { unfold validateQR.
    assert (Hm : is_Some (missing_field payload)).
    { unfold missing_field.
      destruct Hp as [-> | [qr [_ ->]]];
        unfold session_qr_payload, rotating_qr_payload;
        cbn [sessionId timestamp nonce signature expiresAt];
        change (truthy JUndefined) with false; cbn [negb];
        repeat match goal with
               | |- context [if negb (truthy ?v) then _ else _] =>
                   destruct (negb (truthy v)); [eexists; reflexivity|]
               end;
        eexists; reflexivity. }
    destruct Hm as [field ->]. eauto. }
  split; [exact Hv|]. destruct Hv as [field Hv].
  intros Hq. unfold scan, scan_resolve. rewrite Hq.
  destruct (String.eqb (body_studentId req) EmptyString); [eauto|].
  rewrite Hv. eauto.
Qed.


(** ** Instructor override *)

Lemma NoDup_fmap_eq {A B} (f : A -> B) (l : list A) (x y : A) :
  NoDup (f <$> l) -> x ∈ l -> y ∈ l -> f x = f y -> x = y.
Proof.
  induction l as [|z rest IH]; intros Hnd Hx Hy Hf; [inversion Hx|].
  rewrite fmap_cons in Hnd. apply NoDup_cons in Hnd as [Hz Hnd].
  apply elem_of_cons in Hx as [->|Hx]; apply elem_of_cons in Hy as [->|Hy].
  - reflexivity.
  - exfalso. apply Hz. rewrite Hf. apply list_elem_of_fmap. eauto.
  - exfalso. apply Hz. rewrite <- Hf. apply list_elem_of_fmap. eauto.
  - apply IH; assumption.
Qed.

(** Updating by id, when that id belongs to the rows of one key only. *)
Lemma update_record_status_by_key (id : nat) (st : string) (k k' : string * string)
    (l : list AttendanceRecord) :
  (forall r, r ∈ l -> (rec_id r = id <-> rec_key r = k)) ->
  records_of k' (update_record_status id st l)
  = if decide (k' = k) then set_rec_status st <$> records_of k l else records_of k' l.
Proof.
  unfold records_of, update_record_status.
  induction l as [|r rest IH]; intros Hid.
  - destruct (decide (k' = k)); reflexivity.
  - assert (IH' := IH (fun x Hx => Hid x (list_elem_of_further _ _ _ Hx))).
    clear IH. specialize (Hid r (list_elem_of_here _ _)).
    rewrite fmap_cons, !filter_cons.
    destruct (Nat.eqb (rec_id r) id) eqn:E.
    + apply Nat.eqb_eq in E. apply Hid in E.
      change (rec_key (set_rec_status st r)) with (rec_key r).
      destruct (decide (k' = k)) as [->|Hk].
      * rewrite !decide_True by exact E. rewrite fmap_cons, IH'. reflexivity.
      * rewrite !decide_False by congruence. exact IH'.
    + apply Nat.eqb_neq in E.
      assert (Hne : rec_key r <> k) by (intros H; apply E, Hid, H).
      destruct (decide (k' = k)) as [->|Hk].
      * rewrite !decide_False by exact Hne. exact IH'.
      * destruct (decide (rec_key r = k')); rewrite IH'; reflexivity.
Qed.

(** X12: an instructor override on a completed session always succeeds
    for a known student: afterwards the student has exactly one row for
    the session, with the requested status, whether a row existed (it is
    updated in place) or not (one is inserted), and the rows of every
    other (session, student) pair are what they were. *)
Theorem override_sets_the_status (now : Z) (sid studentNumber st : string)
    (w : World) (session : ClassSession) (student : string * string) :
  st ∈ validStatuses ->
  session_with_status sid "completed" w = Some session ->
  single (filter (fun s => s.1 = studentNumber) (students w)) = Some student ->
  unique_records w ->
  NoDup (rec_id <$> attendance_records w) ->
  exists w' r,
    patch_attendance now sid studentNumber st w = (Json200, w')
    /\ records_of (sid, student.2) (attendance_records w') = [r]
    /\ rec_status r = st
    /\ (forall k, k <> (sid, student.2) ->
                  records_of k (attendance_records w') = records_of k (attendance_records w)).
Proof. no_runtime.
  intros Hst Hsess Hstu Hu Hids. unfold patch_attendance.
  rewrite bool_decide_eq_true_2 by exact Hst. cbn [negb]. rewrite Hsess, Hstu.
  set (k := (sid, student.2)).
  destruct (single (records_of k (attendance_records w))) as [existing|] eqn:Hex.
  - apply single_Some_elem in Hex.
    assert (Hin : existing ∈ attendance_records w /\ rec_key existing = k).
    { assert (H : existing ∈ records_of k (attendance_records w)) by (rewrite Hex; left).
      apply list_elem_of_filter in H. tauto. }
    destruct Hin as [Hin Hkey].
    assert (Hid : forall r, r ∈ attendance_records w ->
                            (rec_id r = rec_id existing <-> rec_key r = k)).
    { intros r Hr. split; intros H.
      - rewrite (NoDup_fmap_eq rec_id _ r existing Hids Hr Hin H). exact Hkey.
      - rewrite (NoDup_fmap_eq rec_key _ r existing Hu Hr Hin); [reflexivity|].
        congruence. }
    eexists. exists (set_rec_status st existing). split; [reflexivity|].
    rewrite (proj1 (run_trigger_frame [existing] _)).
    cbn [attendance_records set_attendance_records].
    split; [|split; [reflexivity|]].
    + rewrite (update_record_status_by_key _ st k k _ Hid).
      rewrite decide_True by reflexivity. rewrite Hex. reflexivity.
    + intros k' Hk'. rewrite (update_record_status_by_key _ st k k' _ Hid).
      rewrite decide_False by exact Hk'. reflexivity.
  - assert (Hnil : records_of k (attendance_records w) = []).
    { pose proof (unique_at_most_one k _ Hu) as Hle.
      destruct (records_of k (attendance_records w)) as [|r [|r' rest]];
        [reflexivity|discriminate Hex|cbn in Hle; lia]. }
    match goal with |- context [insert_attendance [?row] w] => set (row0 := row) end.
    assert (Hs : is_Some (insert_attendance [row0] w)).
    { apply insert_attendance_is_Some. split.
      - cbn. apply NoDup_singleton.
      - intros x Hx. apply list_elem_of_singleton in Hx as ->.
        apply records_of_nil. exact Hnil. }
    destruct Hs as [w1 Hw1]. rewrite Hw1.
    exists w1, (with_id (length (attendance_records w)) row0).
    split; [reflexivity|].
    rewrite (insert_attendance_records _ _ _ Hw1). cbn [assign_ids].
    unfold records_of. split; [|split; [reflexivity|]].
    + rewrite filter_app. fold (records_of k (attendance_records w)). rewrite Hnil.
      rewrite filter_cons, decide_True by reflexivity. reflexivity.
    + intros k' Hk'. rewrite filter_app, filter_cons, filter_nil.
      rewrite decide_False; [apply app_nil_r|].
      intros H. apply Hk'. rewrite <- H. reflexivity.
Qed.

(** ** Timers across a pause *)




(** ** Pause and resume *)



(** ** Backfill *)

Lemma absentRecords_keys (sid : string) (now : Z) (l : list Enrollment) :
  rec_key <$> absentRecords sid now l = (fun e => (sid, enr_student_id e)) <$> l.
Proof. unfold absentRecords. rewrite <- list_fmap_compose. reflexivity. Qed.

(** The batch of absent rows for any list of enrollments naming
    distinct students is accepted. *)
Lemma absent_rows_accepted_for (sid : string) (now : Z) (enrolled : list Enrollment)
    (w : World) :
  NoDup (enr_student_id <$> enrolled) ->
  is_Some (insert_attendance
             (absentRecords sid now
                (studentsNeedingRecords enrolled (existingRecords sid w))) w).
Proof.
  intros Hnd. apply insert_attendance_is_Some. split.
  - rewrite absentRecords_keys.
    apply (NoDup_fmap_filter enr_student_id
             (fun e => enr_student_id e ∉ rec_student_id <$> existingRecords sid w))
      in Hnd.
    fold (studentsNeedingRecords enrolled (existingRecords sid w)) in Hnd.
    revert Hnd. generalize (studentsNeedingRecords enrolled (existingRecords sid w)).
    intros l. induction l as [|e rest IH]; intros Hnd; [constructor|].
    rewrite fmap_cons in Hnd. apply NoDup_cons in Hnd as [He Hnd].
    rewrite fmap_cons. apply NoDup_cons. split; [|apply IH, Hnd].
    intros Hin. apply He. apply list_elem_of_fmap in Hin as [e' [Hk He']].
    apply list_elem_of_fmap. exists e'. split; [congruence|exact He'].
  - intros r Hr Hin.
    apply list_elem_of_fmap in Hr as [e [-> He]].
    apply list_elem_of_filter in He as [Hlack _]. apply Hlack.
    apply list_elem_of_fmap in Hin as [r' [Hk Hr']].
    apply list_elem_of_fmap. exists r'. unfold rec_key in Hk. cbn in Hk.
    split; [congruence|].
    apply list_elem_of_filter. split; [congruence | exact Hr'].
Qed.

Lemma existing_student_key (sid u : string) (w : World) :
  u ∈ rec_student_id <$> existingRecords sid w <->
  (sid, u) ∈ rec_key <$> attendance_records w.
Proof.
  unfold existingRecords, records_of_session. split; intros H.
  - apply list_elem_of_fmap in H as [r [-> Hr]].
    apply list_elem_of_filter in Hr as [Hs Hr].
    apply list_elem_of_fmap. exists r. split; [|exact Hr].
    unfold rec_key. rewrite Hs. reflexivity.
  - apply list_elem_of_fmap in H as [r [Hk Hr]].
    unfold rec_key in Hk. injection Hk as Hs Hu.
    apply list_elem_of_fmap. exists r. split; [exact Hu|].
    apply list_elem_of_filter. split; [congruence|exact Hr].
Qed.

(** The loop, for any list of sessions and any list of enrollments
    naming distinct students: it cannot fail, it only appends absent
    rows, and it leaves every listed session with a row for every listed
    student. *)
Lemma backfill_loop_spec (now : string -> Z) (enrolled : list Enrollment)
    (sessions : list (string * ClassSession)) (n : nat) (w : World) :
  NoDup (enr_student_id <$> enrolled) ->
  exists added w',
    backfill_loop now enrolled sessions n w = (Some (n + length added)%nat, w')
    /\ attendance_records w' = attendance_records w ++ added
    /\ Forall (fun r => rec_status r = "absent" /\ minutes_late r = 0) added
    /\ enrollments w' = enrollments w
    /\ (forall k, upto_count (class_sessions w !! k) (class_sessions w' !! k))
    /\ (forall p e, p ∈ sessions -> e ∈ enrolled ->
                    (p.1, enr_student_id e) ∈ rec_key <$> attendance_records w').
Proof. no_runtime.
  intros Hnd. revert n w. induction sessions as [|p rest IH]; intros n w.
  - exists [], w. cbn [backfill_loop length]. rewrite Nat.add_0_r, app_nil_r.
    split; [reflexivity|]. split; [reflexivity|]. split; [constructor|].
    split; [reflexivity|]. split; [intros k; apply upto_count_refl|].
    intros p e Hp. inversion Hp.
  - cbn [backfill_loop].
    pose proof (absent_rows_accepted_for p.1 (now p.1) enrolled w Hnd) as [w1 Hw1].
    set (needing := studentsNeedingRecords enrolled (existingRecords p.1 w)) in *.
    assert (Hcover : forall e, e ∈ enrolled ->
               (p.1, enr_student_id e) ∈ rec_key <$> attendance_records w
               \/ e ∈ needing).
    { intros e He.
      destruct (decide (enr_student_id e ∈ rec_student_id <$> existingRecords p.1 w))
        as [Hin|Hout].
      - left. apply existing_student_key, Hin.
      - right. apply list_elem_of_filter. split; assumption. }
    destruct needing as [|e0 l] eqn:Hneed.
    + destruct (IH n w) as [added [w' [Hrun [Hrows [Hall [Hen [Hup Hcov]]]]]]].
      exists added, w'. split; [exact Hrun|]. split; [exact Hrows|].
      split; [exact Hall|]. split; [exact Hen|]. split; [exact Hup|].
      intros q e Hq He. apply elem_of_cons in Hq as [->|Hq]; [|apply Hcov; assumption].
      destruct (Hcover e He) as [Hin|Hin]; [|inversion Hin].
      rewrite Hrows, fmap_app, elem_of_app. left. exact Hin.
    + rewrite Hw1.
      set (rows := absentRecords p.1 (now p.1) (e0 :: l)) in *.
      pose proof (insert_attendance_records _ _ _ Hw1) as Hrows1.
      destruct (IH (n + length rows)%nat w1)
        as [added [w' [Hrun [Hrows [Hall [Hen [Hup Hcov]]]]]]].
      exists (assign_ids (length (attendance_records w)) rows ++ added), w'.
      split.
      { rewrite Hrun, length_app, assign_ids_length, Nat.add_assoc. reflexivity. }
      split; [rewrite Hrows, Hrows1, app_assoc; reflexivity|].
      split.
      { apply Forall_app. split; [|exact Hall].
        apply assign_ids_Forall; [intros i r H; exact H|].
        eapply Forall_impl; [apply absentRecords_Forall|]. cbn. tauto. }
      split; [rewrite Hen; apply (insert_attendance_frame _ _ _ Hw1)|].
      split.
      { intros k. eapply upto_count_trans; [|apply Hup].
        eapply insert_attendance_sessions, Hw1. }
      intros q e Hq He. apply elem_of_cons in Hq as [->|Hq]; [|apply Hcov; assumption].
      rewrite Hrows, Hrows1, !fmap_app, !elem_of_app. left.
      destruct (Hcover e He) as [Hin|Hin]; [left; exact Hin|right].
      rewrite assign_ids_keys. unfold rows. rewrite absentRecords_keys.
      apply list_elem_of_fmap. exists e. split; [reflexivity|exact Hin].
Qed.

(** When every listed session has a row for every listed student the
    loop inserts nothing. *)
Lemma backfill_loop_noop (now : string -> Z) (enrolled : list Enrollment)
    (sessions : list (string * ClassSession)) (n : nat) (w : World) :
  (forall p e, p ∈ sessions -> e ∈ enrolled ->
               (p.1, enr_student_id e) ∈ rec_key <$> attendance_records w) ->
  backfill_loop now enrolled sessions n w = (Some n, w).
Proof.
  revert n. induction sessions as [|p rest IH]; intros n Hcov; [reflexivity|].
  cbn [backfill_loop].
  assert (Hnil : studentsNeedingRecords enrolled (existingRecords p.1 w) = []).
  { apply filter_nil_intro. intros e He Hlack. apply Hlack.
    apply existing_student_key. apply Hcov; [left|exact He]. }
  rewrite Hnil. apply IH. intros q e Hq He. apply Hcov; [right; exact Hq|exact He].
Qed.

Lemma completed_sessions_elem (c : string) (w : World) (p : string * ClassSession) :
  p ∈ completed_sessions c w <->
  class_sessions w !! p.1 = Some p.2
  /\ class_instance_id p.2 = c /\ status p.2 = "completed".
Proof. no_runtime.
  unfold completed_sessions. rewrite merge_sort_Permutation.
  rewrite list_elem_of_filter, elem_of_map_to_list'. tauto.
Qed.

Lemma backfill_attendance_spec (now : string -> Z) (c : string) (w : World) :
  unique_enrollments w ->
  exists added w',
    backfill_attendance now c w
    = (Backfilled (length added) (length (completed_sessions c w)), w')
    /\ attendance_records w' = attendance_records w ++ added
    /\ Forall (fun r => rec_status r = "absent" /\ minutes_late r = 0) added
    /\ enrollments w' = enrollments w
    /\ (forall k, upto_count (class_sessions w !! k) (class_sessions w' !! k))
    /\ (forall p e, p ∈ completed_sessions c w -> e ∈ enrolledStudents c w ->
                    (p.1, enr_student_id e) ∈ rec_key <$> attendance_records w').
Proof.
  intros Hue. unfold backfill_attendance.
  destruct (backfill_loop_spec now (enrolledStudents c w) (completed_sessions c w) 0 w
              (enrolledStudents_NoDup c w Hue))
    as [added [w' [Hrun H]]].
  exists added, w'. rewrite Hrun. split; [reflexivity|exact H].
Qed.

(** X15: the backfill route cannot fail on a store whose enrollments
    respect their UNIQUE constraint: it answers with the number of rows
    it created and the number of completed sessions of the class, the
    rows it appends are all absent with no minutes late, and afterwards
    every completed session of the class has a row for every actively
    enrolled student. *)
Theorem backfill_fills_completed_sessions (now : string -> Z) (c : string) (w : World) :
  unique_enrollments w ->
  exists added w',
    backfill_attendance now c w
    = (Backfilled (length added) (length (completed_sessions c w)), w')
    /\ attendance_records w' = attendance_records w ++ added
    /\ Forall (fun r => rec_status r = "absent" /\ minutes_late r = 0) added
    /\ (forall sid s e,
           class_sessions w !! sid = Some s ->
           class_instance_id s = c -> status s = "completed" ->
           e ∈ enrollments w ->
           enr_class_instance_id e = c -> enr_status e = "active" ->
           (sid, enr_student_id e) ∈ rec_key <$> attendance_records w').
Proof.
  intros Hue.
  destruct (backfill_attendance_spec now c w Hue)
    as [added [w' [Hrun [Hrows [Hall [_ [_ Hcov]]]]]]].
  exists added, w'. split; [exact Hrun|]. split; [exact Hrows|]. split; [exact Hall|].
  intros sid s e Hs Hc Hst He Hec Hea.
  apply (Hcov (sid, s) e).
  - apply completed_sessions_elem. cbn. auto.
  - apply list_elem_of_filter. split; [split; assumption|exact He].
Qed.

(** X16: the backfill route is idempotent: run again on the store it
    has left, at any later time, it creates no row and changes
    nothing. *)
Theorem backfill_is_idempotent (now later : string -> Z) (c : string) (w : World) :
  unique_enrollments w ->
  exists k,
    backfill_attendance later c (backfill_attendance now c w).2
    = (Backfilled 0 k, (backfill_attendance now c w).2).
Proof.
  intros Hue.
  destruct (backfill_attendance_spec now c w Hue)
    as [added [w' [Hrun [Hrows [_ [Hen [Hup Hcov]]]]]]].
  rewrite Hrun. cbn [snd]. exists (length (completed_sessions c w')).
  unfold backfill_attendance. rewrite backfill_loop_noop; [reflexivity|].
  intros p e Hp He.
  apply completed_sessions_elem in Hp as [Hl [Hc Hst]].
  assert (He' : e ∈ enrolledStudents c w).
  { unfold enrolledStudents in He |- *. rewrite <- Hen. exact He. }
  pose proof (Hup p.1) as Hu. rewrite Hl in Hu. unfold upto_count in Hu.
  destruct (class_sessions w !! p.1) as [s|] eqn:Hs; [|contradiction].
  destruct Hu as [m Hm].
  apply (Hcov (p.1, s) e); [|exact He'].
  apply completed_sessions_elem. cbn. rewrite Hm in Hc, Hst. cbn in Hc, Hst. auto.
Qed.


(** ** From the QR route to the attendance table *)



(** ** Unenrollment *)

(** X18: once the unenroll route has answered 200 for a student and a
    class, the direct attendance POST for that student is refused for
    every session of the class and changes nothing, and the student is no
    longer among the enrolled students of the class that activation
    notifies and that completion and backfill give absent rows. *)
Theorem unenrolled_student_is_not_posted (now : Z) (sid instanceId student_id : string)
    (b : AttendanceBody) (w : World) (session : ClassSession) :
  (unenroll instanceId student_id w).1 = Json200 ->
  class_sessions w !! sid = Some session ->
  class_instance_id session = instanceId ->
  body_student_id b = student_id ->
  let w' := (unenroll instanceId student_id w).2 in
  (exists error, post_attendance now sid b w' = (Refused 400 error, w'))
  /\ student_id ∉ enr_student_id <$> enrolledStudents instanceId w'.
Proof.
  intros Hok Hs Hc Hb w'.
  set (g := fun e => if decide (enr_class_instance_id e = instanceId
                                /\ enr_student_id e = student_id)
                     then set_dropped e else e).
  assert (Hw' : enrollments w' = g <$> enrollments w
                /\ class_sessions w' = class_sessions w).
  { unfold w', unenroll in *. destruct (single _); [|discriminate Hok].
    cbn [snd]. destruct (class_instances _ !! instanceId); split; reflexivity. }
  destruct Hw' as [Hen Hcs]. clearbody w'.
  assert (Hnone : forall e, e ∈ enrollments w' ->
                    enr_student_id e = student_id ->
                    enr_class_instance_id e = instanceId ->
                    enr_status e <> "active").
  { intros e He Hu Hi. rewrite Hen in He.
    apply list_elem_of_fmap in He as [e0 [-> He0]]. unfold g in *.
    destruct (decide (enr_class_instance_id e0 = instanceId
                      /\ enr_student_id e0 = student_id)) as [_|Hn].
    - cbn. discriminate.
    - exfalso. apply Hn. split; assumption. }
  split.
  - unfold post_attendance. rewrite Hcs, Hs.
    destruct (negb _); [eauto|].
    rewrite (filter_nil_intro _ (enrollments w')); [cbn [single]; eauto|].
    intros e He [Hu [Hi Ha]]. apply (Hnone e He); congruence.
  - intros Hin. apply list_elem_of_fmap in Hin as [e [Hu He]].
    apply list_elem_of_filter in He as [[Hi Ha] He].
    apply (Hnone e He); congruence.
Qed.


(** ** Opening a session through the class-management QR route *)

(** X19: GET /api/sessions/:sessionId/qr turns a scheduled session into
    an active one without going through activation: it starts no
    rotation, arms no timeout and notifies nobody, and because the
    session is no longer scheduled every later activation is refused
    with 400 and changes nothing. *)
Theorem session_qr_route_bypasses_activation (now now' : Z) (nb sb nb' sb' : list Byte.byte)
    (sid : string) (notes : option string) (w : World) (s : ClassSession) :
  session_with_status sid "scheduled" w = Some s ->
  let w1 := (get_session_qr now nb sb sid w).2 in
  (exists s1, class_sessions w1 !! sid = Some s1
              /\ status s1 = "active" /\ is_active s1 = true)
  /\ activeRotations w1 = activeRotations w
  /\ intervals w1 = intervals w
  /\ timeouts w1 = timeouts w
  /\ notifications w1 = notifications w
  /\ emitted w1 = emitted w
  /\ activate now' nb' sb' sid notes w1
     = (Status 400 "Session not found or already activated", w1).
Proof.
  intros Hs w1. pose proof Hs as Hs'.
  apply session_with_status_Some in Hs' as [Hl Hst].
  assert (Hw1 : w1 = update_session sid
                       (set_active (toHex sb) (toISOString (now + 30 * 1000))) w).
  { unfold w1, get_session_qr. rewrite Hs. reflexivity. }
  clearbody w1. subst w1.
  assert (Hrow : class_sessions
                   (update_session sid
                      (set_active (toHex sb) (toISOString (now + 30 * 1000))) w) !! sid
                 = Some (set_active (toHex sb) (toISOString (now + 30 * 1000)) s)).
  { wsimpl. rewrite lookup_alter_eq, Hl. reflexivity. }
  split; [eexists; split; [exact Hrow|split; reflexivity]|].
  repeat (split; [reflexivity|]).
  unfold activate.
  rewrite (proj2 (session_with_status_None sid "scheduled" _)); [reflexivity|].
  intros s0 Hs0. rewrite Hrow in Hs0. injection Hs0 as <-. discriminate.
Qed.


(** ** Session templates *)








(** ** Student statistics *)








(** ** Enrollment *)

Lemma accept_enrollments_Some (other : Enrollment -> bool)
    (table rows table' : list Enrollment) :
  accept_enrollments other table rows = Some table' ->
  table' = table ++ rows
  /\ (forall r, r ∈ rows -> enr_key r ∉ enr_key <$> table).
Proof.
  revert table. induction rows as [|r rest IH]; intros table H; cbn in H.
  - injection H as <-. split; [symmetry; apply app_nil_r|]. intros r Hr. inversion Hr.
  - destruct (bool_decide _) eqn:Hk; [|discriminate].
    destruct (other r); [|discriminate]. cbn [andb] in H.
    apply bool_decide_eq_true_1 in Hk.
    apply IH in H as [-> Hrest]. split; [rewrite <- app_assoc; reflexivity|].
    intros x Hx. apply elem_of_cons in Hx as [->|Hx]; [exact Hk|].
    intros Hin. apply (Hrest x Hx). rewrite fmap_app, elem_of_app. left. exact Hin.
Qed.

Lemma recount_enrollments_world (rows : list Enrollment) (d : Desk) :
  desk_world (foldr (fun r => recount_enrollment (enr_class_instance_id r)) d rows)
  = desk_world d.
Proof. induction rows as [|r rest IH]; [reflexivity|exact IH]. Qed.

Lemma recount_enrollments_lookup (rows : list Enrollment) (d : Desk) (c : string) :
  desk_classes (foldr (fun r => recount_enrollment (enr_class_instance_id r)) d rows)
  !! c
  = if decide (c ∈ enr_class_instance_id <$> rows)
    then set_current_enrollment
           (Z.of_nat (length (active_in c (enrollments (desk_world d)))))
         <$> desk_classes d !! c
    else desk_classes d !! c.
Proof. no_runtime.
  induction rows as [|r rest IH].
  - cbn. destruct (decide _) as [H|_]; [inversion H|reflexivity].
  - cbn [foldr]. unfold recount_enrollment at 1. cbn [desk_classes desk_world].
    rewrite lookup_alter, recount_enrollments_world, fmap_cons.
    destruct (decide (enr_class_instance_id r = c)) as [Hr|Hr];
      [subst c|]; rewrite IH.
    + destruct (decide (_ ∈ _ :: _)) as [_|Hn]; [|exfalso; apply Hn; left].
      destruct (decide _); destruct (desk_classes d !! enr_class_instance_id r);
        reflexivity.
    + destruct (decide (c ∈ enr_class_instance_id <$> rest)) as [Hin|Hin].
      * destruct (decide (_ ∈ _ :: _)) as [_|Hn]; [reflexivity|].
        exfalso. apply Hn. right. exact Hin.
      * destruct (decide (_ ∈ _ :: _)) as [H|_]; [|reflexivity].
        apply elem_of_cons in H as [H|H]; [congruence|contradiction].
Qed.

(** What an accepted INSERT into [enrollments] leaves. *)
Lemma insert_enrollments_spec (other : Enrollment -> bool) (rows : list Enrollment)
    (d d' : Desk) :
  insert_enrollments other rows d = Some d' ->
  enrollments (desk_world d') = enrollments (desk_world d) ++ rows
  /\ (forall r, r ∈ rows -> enr_key r ∉ enr_key <$> enrollments (desk_world d))
  /\ (forall c,
         desk_classes d' !! c
         = if decide (c ∈ enr_class_instance_id <$> rows)
           then set_current_enrollment
                  (Z.of_nat (length (active_in c (enrollments (desk_world d) ++ rows))))
                <$> desk_classes d !! c
           else desk_classes d !! c).
Proof.
  unfold insert_enrollments. intros H.
  destruct (accept_enrollments other _ rows) as [table|] eqn:Ha; [|discriminate].
  injection H as <-. apply accept_enrollments_Some in Ha as [-> Hfresh].
  split; [rewrite recount_enrollments_world; reflexivity|]. split; [exact Hfresh|].
  intros c. rewrite recount_enrollments_lookup. reflexivity.
Qed.

Lemma active_in_app (c : string) (l1 l2 : list Enrollment) :
  active_in c (l1 ++ l2) = active_in c l1 ++ active_in c l2.
Proof. apply filter_app. Qed.

Lemma active_in_new (c : string) (ids : list string) :
  active_in c ((fun u => mkEnrollment u c "active") <$> ids)
  = (fun u => mkEnrollment u c "active") <$> ids.
Proof.
  unfold active_in. induction ids as [|u rest IH]; [reflexivity|].
  rewrite fmap_cons, filter_cons_True by (split; reflexivity). f_equal. exact IH.
Qed.

Lemma active_in_other (c : string) (rows : list Enrollment) :
  c ∉ enr_class_instance_id <$> rows -> active_in c rows = [].
Proof.
  intros Hn. apply filter_nil_intro. intros e He [Hc _]. apply Hn.
  apply list_elem_of_fmap. eauto.
Qed.

(** An accepted INSERT of active rows for one class keeps the counts
    exact, and keeps them within capacity when the class has room for
    the rows. *)
Lemma insert_enrollments_ok (other : Enrollment -> bool) (c : string)
    (ids : list string) (ci : ClassInstance) (d d' : Desk) :
  desk_ok d ->
  desk_classes d !! c = Some ci ->
  ci_current_enrollment ci + Z.of_nat (length ids) <= ci_max_students ci ->
  insert_enrollments other ((fun u => mkEnrollment u c "active") <$> ids) d = Some d' ->
  desk_ok d'.
Proof. no_runtime.
  intros Hok Hci Hroom H.
  apply insert_enrollments_spec in H as [Hrows [_ Hlook]].
  intros k ck. rewrite Hlook, Hrows, active_in_app.
  destruct (decide (k ∈ _)) as [Hin|Hout].
  - assert (k = c) as ->.
    { apply list_elem_of_fmap in Hin as [e [-> He]].
      apply list_elem_of_fmap in He as [u [-> _]]. reflexivity. }
    rewrite Hci. cbn. intros E. injection E as <-.
    cbn [ci_current_enrollment ci_max_students set_current_enrollment].
    split; [reflexivity|].
    rewrite active_in_new, length_app, length_fmap.
    destruct (Hok c ci Hci) as [Hcount _]. lia.
  - intros Hk. rewrite (active_in_other k _ Hout), app_nil_r. apply Hok, Hk.
Qed.

Lemma active_in_dropped (c k u : string) (l : list Enrollment) :
  (length (active_in k
             ((fun e => if decide (enr_class_instance_id e = c /\ enr_student_id e = u)
                        then set_dropped e else e) <$> l))
   <= length (active_in k l))%nat
  /\ (k <> c ->
      length (active_in k
                ((fun e => if decide (enr_class_instance_id e = c /\ enr_student_id e = u)
                           then set_dropped e else e) <$> l))
      = length (active_in k l)).
Proof. no_runtime.
  unfold active_in. induction l as [|e rest [IH1 IH2]]; [split; reflexivity|].
  rewrite fmap_cons, !filter_cons.
  destruct (decide (enr_class_instance_id e = c /\ enr_student_id e = u)) as [[Hc Hu]|Hn].
  - rewrite (decide_False (P := _ /\ enr_status (set_dropped e) = "active"))
      by (intros [_ H]; discriminate H).
    destruct (decide (enr_class_instance_id e = k /\ enr_status e = "active"))
      as [[Hk _]|_].
    + split; [cbn [length]; lia|]. intros Hkc. congruence.
    + split; [exact IH1|exact IH2].
  - destruct (decide (enr_class_instance_id e = k /\ enr_status e = "active")).
    + split; [cbn [length]; lia|]. intros Hkc. cbn [length]. rewrite IH2 by exact Hkc.
      reflexivity.
    + split; [exact IH1|exact IH2].
Qed.

Lemma desk_step_ok (other : Enrollment -> bool) (d d' : Desk) :
  desk_ok d -> desk_step other d d' -> desk_ok d'.
Proof. no_runtime.
  intros Hok Hstep. destruct Hstep as [now c ids d|now code u d|c u d].
  - unfold enroll. destruct ids as [[|u0 ids]|]; try exact Hok.
    destruct (desk_classes d !! c) as [ci|] eqn:Hci; [|exact Hok].
    destruct (ci_enrollment_deadline ci <? now); [exact Hok|].
    destruct (ci_max_students ci <? _) eqn:Hcap; [exact Hok|].
    apply Z.ltb_ge in Hcap.
    destruct (insert_enrollments _ _ d) as [d'|] eqn:E; [|exact Hok].
    cbn [snd]. eapply (insert_enrollments_ok other c (u0 :: ids)); eassumption.
  - unfold self_enroll. destruct (_ || _); [exact Hok|].
    destruct (single _) as [[id ci]|] eqn:Hs; [|exact Hok].
    apply single_elem in Hs. apply list_elem_of_filter in Hs as [_ Hs].
    apply elem_of_map_to_list in Hs.
    destruct (ci_enrollment_deadline ci <? now); [exact Hok|].
    destruct (ci_max_students ci <=? ci_current_enrollment ci) eqn:Hcap; [exact Hok|].
    apply Z.leb_gt in Hcap.
    destruct (single _); [exact Hok|].
    destruct (insert_enrollments _ _ d) as [d'|] eqn:E; [|exact Hok].
    cbn [snd]. apply (insert_enrollments_ok other id [u] ci d d' Hok Hs);
      [cbn [length]; lia|exact E].
  - unfold desk_unenroll, unenroll.
    destruct (single _) as [e0|]; [|exact Hok].
    cbn [fst snd].
    assert (Hen : forall w1,
               enrollments
                 (match class_instances w1 !! c with
                  | Some _ =>
                      add_notifications
                        [mkNotification u "system" "You've been removed from a class"] w1
                  | None => w1
                  end) = enrollments w1).
    { intros w1. destruct (class_instances w1 !! c); reflexivity. }
    intros k ck. unfold recount_enrollment. cbn [desk_classes desk_world].
    rewrite Hen. cbn [enrollments set_enrollments]. rewrite lookup_alter.
    destruct (active_in_dropped c k u (enrollments (desk_world d))) as [Hle Heq].
    destruct (decide (c = k)) as [<-|Hk].
    + destruct (desk_classes d !! c) as [ci|] eqn:Hci; [|discriminate].
      cbn. intros E. injection E as <-.
      cbn [ci_current_enrollment ci_max_students set_current_enrollment].
      split; [reflexivity|]. destruct (Hok c ci Hci) as [Hcount Hmax]. lia.
    + intros Hck. destruct (Hok k ck Hck) as [Hcount Hmax].
      split; [|exact Hmax]. rewrite Hcount, Heq by congruence. reflexivity.
Qed.

(** X23: with the enroll, self-enroll and unenroll routes run one at a
    time, [current_enrollment] of every class stays equal to the number
    of its active enrollments and never exceeds [max_students],
    whatever the other constraints of the enrollments table accept or
    reject. *)
Theorem enrollment_within_capacity (other : Enrollment -> bool) (d d' : Desk) :
  desk_ok d -> rtc (desk_step other) d d' -> desk_ok d'.
Proof.
  intros Hok Hr. induction Hr as [|d1 d2 d3 Hstep _ IH]; [exact Hok|].
  apply IH. eapply desk_step_ok; eassumption.
Qed.

(** X24: a student who has an enrollment row for a class, whatever its
    status -- in particular one dropped by the unenroll route -- cannot
    be enrolled in that class through the enroll and self-enroll
    routes: a request of the enroll route that names the student is
    refused as a whole, by its checks or by UNIQUE(student_id,
    class_instance_id), and the self-enroll route answers 400; both
    change nothing. *)
Theorem enrolled_once (other : Enrollment -> bool) (d : Desk) (e : Enrollment) :
  let u := enr_student_id e in
  let c := enr_class_instance_id e in
  unique_enrollments (desk_world d) ->
  e ∈ enrollments (desk_world d) ->
  (forall now ids,
      u ∈ ids ->
      exists code error, enroll other now c (Some ids) d = (Status code error, d))
  /\ (forall now class_code ci,
         single (filter (fun p => ci_class_code p.2 = class_code
                                  /\ ci_is_active p.2 = true)
                   (map_to_list (desk_classes d))) = Some (c, ci) ->
         exists error, self_enroll other now class_code u d = (Status 400 error, d)).
Proof. no_runtime.
  intros u c Hu He. split.
  - intros now ids Hin. unfold enroll.
    destruct ids as [|u0 ids]; [inversion Hin|].
    destruct (desk_classes d !! c) as [ci|]; [|eauto].
    destruct (ci_enrollment_deadline ci <? now); [eauto|].
    destruct (ci_max_students ci <? _); [eauto|].
    destruct (insert_enrollments _ _ d) as [d'|] eqn:E; [|eauto].
    exfalso. apply insert_enrollments_spec in E as [_ [Hfresh _]].
    apply (Hfresh (mkEnrollment u c "active")).
    + apply list_elem_of_fmap. exists u. split; [reflexivity|exact Hin].
    + apply list_elem_of_fmap. exists e. split; [reflexivity|exact He].
  - intros now class_code ci Hs. unfold self_enroll.
    destruct (_ || _); [eauto|]. rewrite Hs.
    destruct (ci_enrollment_deadline ci <? now); [eauto|].
    destruct (ci_max_students ci <=? ci_current_enrollment ci); [eauto|].
    assert (Hone : filter (fun x => enr_student_id x = u /\ enr_class_instance_id x = c)
                     (enrollments (desk_world d)) = [e]).
    { unfold unique_enrollments in Hu. clear Hs.
      induction (enrollments (desk_world d)) as [|x rest IH]; [inversion He|].
      rewrite fmap_cons in Hu. apply NoDup_cons in Hu as [Hx Hnd].
      rewrite filter_cons. apply elem_of_cons in He as [->|He].
      - rewrite decide_True by (split; reflexivity). f_equal.
        apply filter_nil_intro. intros y Hy [Hyu Hyc]. apply Hx.
        apply list_elem_of_fmap. exists y. split; [|exact Hy].
        unfold enr_key. rewrite Hyu, Hyc. reflexivity.
      - rewrite decide_False; [apply IH; assumption|].
        intros [Hxu Hxc]. apply Hx. apply list_elem_of_fmap. exists e.
        split; [|exact He]. unfold enr_key. rewrite Hxu, Hxc. reflexivity. }
    rewrite Hone. cbn [single]. eauto.
Qed.

End Engine.

(** * Worked instances

    A small store: class c1 of professor prof1 with one session s1 that
    starts at the epoch ([date] 0, [start_time] 0), students u1 and u2
    actively enrolled and u3 with a dropped enrollment.  The runtime
    functions are stand-ins that are right on the instants used here:
    00:02:30 and 00:06:30 after the session start. *)

Definition sample_secret : string := "fsas_qr_secret_key_2024_secure".

Definition sample_hmac (key data : string) : string :=
  "hmac(" +:+ key +:+ "," +:+ data +:+ ")".

Definition sample_toISOString (ms : Z) : string :=
  if ms =? 150000 then "1970-01-01T00:02:30.000Z"
  else if ms =? 390000 then "1970-01-01T00:06:30.000Z"
  else EmptyString.

Definition sample_Date_parse (s : string) : option Z :=
  if String.eqb s "1970-01-01T00:02:30.000Z" then Some 150000
  else if String.eqb s "1970-01-01T00:06:30.000Z" then Some 390000
  else None.

Definition sample_nonce : list Byte.byte :=
  [x00; x01; x02; x03; x04; x05; x06; x07; x08; x09; x0a; x0b; x0c; x0d; x0e; x0f].

Definition sample_session (st : string) (act : bool) (exp : option string)
    : ClassSession :=
  mkClassSession "c1" 0 0 3600000 st None None exp act 0 0.

Definition sample_world (s : ClassSession) (recs : list AttendanceRecord) : World :=
  mkWorld {[ "c1" := "prof1" ]} {[ "s1" := s ]}
    [("1001", "u1"); ("1002", "u2"); ("1003", "u3")]
    [mkEnrollment "u1" "c1" "active"; mkEnrollment "u2" "c1" "active";
     mkEnrollment "u3" "c1" "dropped"]
    recs [] ∅ ∅ 0 [] true [].

Definition sample_scheduled : World :=
  sample_world (sample_session "scheduled" false None) [].

Definition sample_open : ClassSession :=
  sample_session "active" true (Some "1970-01-01T00:02:30.000Z").

Definition sample_active : World := sample_world sample_open [].

(** The token issued for s1 two minutes after the start, and the one
    issued six minutes after it. *)
Definition sample_token : QrData :=
  qr_data (generateSecureQR sample_secret sample_hmac sample_toISOString
             120000 sample_nonce sample_nonce "s1").


Definition sample_request (token : QrData) (student : string) : ScanRequest :=
  mkScanRequest (QrValue (PObject token)) student (Some "Mozilla") None.

Definition sample_attempt (student user : string) : Attempt :=
  mkAttempt "s1" sample_open "prof1" student user (Some "Mozilla") None.

Definition sample_record (id : nat) (user : string) (at_ : Z) (st : string) (late : Z)
    : AttendanceRecord :=
  mkAttendanceRecord id "s1" user at_ st late (Some "Mozilla") None None.

Lemma sample_lookup (s : ClassSession) (recs : list AttendanceRecord)
    (sid : string) (s' : ClassSession) :
  class_sessions (sample_world s recs) !! sid = Some s' -> sid = "s1" /\ s' = s.
Proof.
  cbn. intros H. apply lookup_singleton_Some in H as [<- <-]. split; reflexivity.
Qed.


Lemma generateRotatingQR_bucket_witness :
  120001 / 30000 = 149999 / 30000
  /\ generateRotatingQR sample_secret sample_hmac sample_toISOString 120001 "s1"
     = generateRotatingQR sample_secret sample_hmac sample_toISOString 149999 "s1"
  /\ rq_expires_at
       (generateRotatingQR sample_secret sample_hmac sample_toISOString 120001 "s1")
     = "1970-01-01T00:02:30.000Z".
Proof.
  split; [reflexivity|].
  destruct (generateRotatingQR_bucket sample_secret sample_hmac sample_toISOString
              "s1" 120001 149999 eq_refl) as [Hsame [Hexp _]].
  split; [exact Hsame|]. rewrite Hexp. reflexivity.
Defined.

Lemma validateQR_window_witness :
  "s1" <> EmptyString
  /\ 0 < 120000
  /\ length sample_nonce = 16%nat
  /\ sample_hmac sample_secret
       ("s1" +:+ "-" +:+ pretty 120000 +:+ "-" +:+ toHex sample_nonce) <> EmptyString
  /\ sample_toISOString (120000 + 30000) <> EmptyString
  /\ sample_Date_parse (sample_toISOString (120000 + 30000)) = Some (120000 + 30000)
  /\ validateQR sample_secret sample_hmac sample_Date_parse 150000 150000
       (PObject sample_token)
     = Valid (JStr "s1") (JNum 120000)
  /\ (exists error,
         validateQR sample_secret sample_hmac sample_Date_parse 150001 150001
           (PObject sample_token) = Invalid error)
  /\ (exists error,
         validateQR sample_secret sample_hmac sample_Date_parse 150001 150001
           (PObject (with_expiresAt (JStr "1970-01-01T00:06:30.000Z") sample_token))
         = Invalid error).
Proof.
  assert (H1 : "s1" <> EmptyString) by discriminate.
  assert (H2 : 0 < 120000) by lia.
  assert (H3 : length sample_nonce = 16%nat) by reflexivity.
  assert (H4 : sample_hmac sample_secret
                 ("s1" +:+ "-" +:+ pretty 120000 +:+ "-" +:+ toHex sample_nonce) <> EmptyString)
    by (vm_compute; discriminate).
  assert (H5 : sample_toISOString (120000 + 30000) <> EmptyString) by (vm_compute; discriminate).
  assert (H6 : sample_Date_parse (sample_toISOString (120000 + 30000))
               = Some (120000 + 30000)) by reflexivity.
  destruct (validateQR_window sample_secret sample_hmac sample_toISOString
              sample_Date_parse "s1" 120000 sample_nonce sample_nonce
              H1 H2 H3 H4 H5 H6) as [Hvalid [Hlate Hforged]].
  repeat (split; [assumption|]).
  split; [apply Hvalid; lia|].
  split; [apply Hlate; lia|].
  apply Hforged. lia.
Defined.

Lemma scan_already_recorded_witness :
  let w := sample_world sample_open [sample_record 0 "u1" 121000 "present" 0] in
  let existing := sample_record 0 "u1" 121000 "present" 0 in
  unique_records w
  /\ scan_resolve sample_secret sample_hmac sample_Date_parse 125000 125000
       (sample_request sample_token "1001") w
     = inr (sample_attempt "1001" "u1")
  /\ existing ∈ attendance_records w
  /\ rec_key existing = att_key (sample_attempt "1001" "u1")
  /\ scan sample_secret sample_hmac sample_Date_parse 125000 125000 125000
       (sample_request sample_token "1001") w
     = (ScanAlreadyRecorded 0 121000 "present", w).
Proof.
  intros w existing.
  assert (H1 : unique_records w) by compute_done.
  assert (H2 : scan_resolve sample_secret sample_hmac sample_Date_parse 125000 125000
                 (sample_request sample_token "1001") w
               = inr (sample_attempt "1001" "u1")) by (vm_compute; reflexivity).
  assert (H3 : existing ∈ attendance_records w) by (left).
  assert (H4 : rec_key existing = att_key (sample_attempt "1001" "u1")) by reflexivity.
  repeat (split; [assumption|]).
  exact (scan_already_recorded sample_secret sample_hmac sample_Date_parse
           125000 125000 125000 _ w _ existing H1 H2 H3 H4).
Defined.


Lemma reconciliation_fills_absent_witness :
  let w := sample_world sample_open [sample_record 0 "u1" 121000 "present" 0] in
  unique_records w
  /\ unique_enrollments w
  /\ class_sessions w !! "s1" = Some sample_open
  /\ exists w' new,
       complete 3600000 "s1" w = (Json200, w')
       /\ attendance_records w' = attendance_records w ++ new
       /\ rec_student_id <$> new = ["u2"]
       /\ length new = 1%nat.
Proof.
  intros w.
  assert (H1 : unique_records w) by compute_done.
  assert (H2 : unique_enrollments w) by compute_done.
  assert (H3 : class_sessions w !! "s1" = Some sample_open) by reflexivity.
  repeat (split; [assumption|]).
  destruct (reconciliation_fills_absent 3600000 "s1" w sample_open H1 H2 H3)
    as [w' [new [Hc [Hrows [Hst [Hlen _]]]]]].
  exists w', new. repeat (split; [assumption|]). exact Hlen.
Defined.

Lemma timeout_callback_guarded_witness :
  let w := sample_world (sample_session "completed" false None)
             [sample_record 0 "u1" 121000 "present" 0;
              sample_record 1 "u2" 3600000 "absent" 0] in
  (forall s, class_sessions w !! "s1" = Some s -> status s <> "active")
  /\ completeSessionAutomatically 3700000 "s1" w = (Returned, w).
Proof.
  intros w.
  assert (H1 : forall s, class_sessions w !! "s1" = Some s -> status s <> "active").
  { intros s Hs. apply sample_lookup in Hs as [_ ->]. discriminate. }
  split; [exact H1|].
  exact (proj1 (timeout_callback_guarded 3700000 "s1" w) H1).
Defined.

(** s1 once activated, two minutes after its start. *)
Definition sample_activated : World :=
  (activate sample_secret sample_hmac sample_toISOString 120000
     sample_nonce sample_nonce "s1" None sample_scheduled).2.









(** Two enrolled students, one existing row that belongs to the dropped
    student u3: completion inserts two rows, not N - K = 1. *)
Lemma reconciliation_counts_enrolled_only :
  let w := sample_world sample_open [sample_record 0 "u3" 121000 "present" 0] in
  length (enrolledStudents "c1" w) = 2%nat
  /\ length (existingRecords "s1" w) = 1%nat
  /\ (complete 3600000 "s1" w).1 = Json200
  /\ attendance_records (complete 3600000 "s1" w).2
     = [sample_record 0 "u3" 121000 "present" 0;
        mkAttendanceRecord 1 "s1" "u1" 3600000 "absent" 0 None None None;
        mkAttendanceRecord 2 "s1" "u2" 3600000 "absent" 0 None None None].
Proof. vm_compute. repeat split. Qed.

(** A paused session is left paused by the timeout callback. *)
Lemma timeout_skips_paused_session :
  let w := sample_world (sample_session "paused" false None) [] in
  completeSessionAutomatically 3600000 "s1" w = (Returned, w)
  /\ status <$> class_sessions w !! "s1" = Some "paused"
  /\ attendance_records (completeSessionAutomatically 3600000 "s1" w).2 = [].
Proof. vm_compute. repeat split. Qed.



(** C4: complete and cancel carry no status guard.  On a completed s1,
    cancel answers 200 and rewrites the row as cancelled; on a cancelled
    s1, complete answers 200, inserts absent rows and rewrites the row as
    completed. *)
Theorem complete_and_cancel_unguarded :
  let done := sample_world (sample_session "completed" false None) [] in
  let off := sample_world (sample_session "cancelled" false None) [] in
  (cancel "s1" None done).1 = Json200
  /\ status <$> class_sessions (cancel "s1" None done).2 !! "s1" = Some "cancelled"
  /\ (complete 3600000 "s1" off).1 = Json200
  /\ status <$> class_sessions (complete 3600000 "s1" off).2 !! "s1" = Some "completed"
  /\ rec_student_id <$> attendance_records (complete 3600000 "s1" off).2 = ["u1"; "u2"].
Proof. vm_compute. repeat split. Qed.

(** * Worked instances of the further properties *)

Definition sample_scan : Z -> Z -> Z -> ScanRequest -> World -> ScanResult * World :=
  scan sample_secret sample_hmac sample_Date_parse.

Definition sample_engine_step : World -> World -> Prop :=
  engine_step sample_secret sample_hmac sample_toISOString sample_Date_parse.

Definition sample_route_step : World -> World -> Prop :=
  route_step sample_secret sample_hmac sample_toISOString sample_Date_parse.

(** s1 after student 1001 has scanned the token of 00:02:00 five seconds
    after its issue. *)
Definition sample_scanned : World :=
  (sample_scan 125000 125000 125000 (sample_request sample_token "1001")
     sample_active).2.

(** s1 completed, with the row of u1. *)
Definition sample_completed : World :=
  sample_world (sample_session "completed" false None)
    [sample_record 0 "u1" 121000 "present" 0].


Lemma sample_active_counts : counts_ok sample_active.
Proof. intros sid s H. apply sample_lookup in H as [-> ->]. reflexivity. Qed.

Lemma sample_completed_inv : engine_inv sample_completed.
Proof.
  split; [|split].
  - intros sid s H. apply sample_lookup in H as [_ ->].
    split; [split; discriminate|reflexivity].
  - split.
    + intros sid h. cbn. rewrite !lookup_empty. split; discriminate.
    + intros h sid. cbn. rewrite lookup_empty. discriminate.
  - intros sid h s. cbn. rewrite lookup_empty. discriminate.
Qed.

Lemma scan_recorded_sound_witness :
  sample_scan 125000 125000 125000 (sample_request sample_token "1001") sample_active
  = (ScanRecorded (sample_record 0 "u1" 125000 "present" 0) 2, sample_scanned)
  /\ exists q session uid,
       body_qrData (sample_request sample_token "1001") = QrValue (PObject q)
       /\ signature q
          = JStr (sample_hmac sample_secret
                    (js_to_string (sessionId q) +:+ "-" +:+ js_to_string (timestamp q)
                     +:+ "-" +:+ js_to_string (nonce q)))
       /\ class_sessions sample_active !! js_to_string (sessionId q) = Some session
       /\ status session = "active"
       /\ ("1001", uid) ∈ students sample_active
       /\ attendance_records sample_scanned
          = [sample_record 0 "u1" 125000 "present" 0].
Proof.
  assert (H : sample_scan 125000 125000 125000 (sample_request sample_token "1001")
                sample_active
              = (ScanRecorded (sample_record 0 "u1" 125000 "present" 0) 2,
                 sample_scanned)) by (vm_compute; reflexivity).
  split; [exact H|].
  destruct (scan_recorded_sound sample_secret sample_hmac sample_Date_parse
              125000 125000 125000 _ _ _ _ _ H)
    as [q [session [uid [Hq [Hsig [_ [_ [Hs [Hst [Hstu [_ [_ [_ Hrows]]]]]]]]]]]]].
  exists q, session, uid. repeat (split; [assumption|]). exact Hrows.
Defined.

Lemma post_attendance_duplicate_witness :
  let w := sample_world sample_open [sample_record 0 "u1" 121000 "present" 0] in
  let b := mkAttendanceBody "u1" None None None in
  class_sessions w !! "s1" = Some sample_open
  /\ is_active sample_open = true
  /\ status sample_open <> "cancelled"
  /\ single (filter (fun e => enr_student_id e = body_student_id b
                              /\ enr_class_instance_id e = class_instance_id sample_open
                              /\ enr_status e = "active") (enrollments w))
     = Some (mkEnrollment "u1" "c1" "active")
  /\ sample_record 0 "u1" 121000 "present" 0 ∈ attendance_records w
  /\ rec_key (sample_record 0 "u1" 121000 "present" 0) = ("s1", body_student_id b)
  /\ post_attendance 125000 "s1" b w = (Refused 500 store_error, w).
Proof.
  intros w b.
  assert (H1 : class_sessions w !! "s1" = Some sample_open) by reflexivity.
  assert (H2 : is_active sample_open = true) by reflexivity.
  assert (H3 : status sample_open <> "cancelled") by discriminate.
  assert (H4 : single (filter (fun e => enr_student_id e = body_student_id b
                                     /\ enr_class_instance_id e
                                        = class_instance_id sample_open
                                     /\ enr_status e = "active") (enrollments w))
               = Some (mkEnrollment "u1" "c1" "active")) by (vm_compute; reflexivity).
  assert (H5 : sample_record 0 "u1" 121000 "present" 0 ∈ attendance_records w) by left.
  assert (H6 : rec_key (sample_record 0 "u1" 121000 "present" 0)
               = ("s1", body_student_id b)) by reflexivity.
  repeat (split; [assumption|]).
  exact (post_attendance_duplicate 125000 "s1" b w sample_open _ _ H1 H2 H3 H4 H5 H6).
Defined.

Lemma attendance_count_exact_witness :
  counts_ok sample_active
  /\ rtc sample_route_step sample_active sample_scanned
  /\ counts_ok sample_scanned.
Proof.
  assert (H1 : counts_ok sample_active) by exact sample_active_counts.
  assert (H2 : rtc sample_route_step sample_active sample_scanned)
    by (apply rtc_once, route_engine, step_scan).
  repeat (split; [assumption|]).
  exact (attendance_count_exact sample_secret sample_hmac sample_toISOString
           sample_Date_parse _ _ H1 H2).
Defined.


Lemma engine_step_follows_lifecycle_witness :
  sample_engine_step sample_scheduled sample_activated
  /\ class_sessions sample_scheduled !! "s1" = Some (sample_session "scheduled" false None)
  /\ exists s',
       class_sessions sample_activated !! "s1" = Some s'
       /\ same_schedule (sample_session "scheduled" false None) s'
       /\ lifecycle_edge "scheduled" (status s').
Proof.
  assert (H1 : sample_engine_step sample_scheduled sample_activated)
    by apply step_activate.
  assert (H2 : class_sessions sample_scheduled !! "s1"
               = Some (sample_session "scheduled" false None)) by reflexivity.
  repeat (split; [assumption|]).
  exact (engine_step_follows_lifecycle sample_secret sample_hmac sample_toISOString
           sample_Date_parse _ _ "s1" _ H1 H2).
Defined.

Lemma closed_session_takes_no_attendance_witness :
  let w' := (cancel "s1" None sample_completed).2 in
  engine_inv sample_completed
  /\ class_sessions sample_completed !! "s1" = Some (sample_session "completed" false None)
  /\ closed (sample_session "completed" false None)
  /\ rtc sample_engine_step sample_completed w'
  /\ post_attendance 125000 "s1" (mkAttendanceBody "u2" None None None) w'
     = (Refused 400 "Session is not active or cancelled", w')
  /\ exists code error,
       sample_scan 125000 125000 125000 (sample_request sample_token "1002") w'
       = (ScanRefused code error, w').
Proof.
  intros w'.
  assert (H1 : engine_inv sample_completed) by exact sample_completed_inv.
  assert (H2 : class_sessions sample_completed !! "s1"
               = Some (sample_session "completed" false None)) by reflexivity.
  assert (H3 : closed (sample_session "completed" false None)) by (left; reflexivity).
  assert (H4 : rtc sample_engine_step sample_completed w')
    by (apply rtc_once, step_cancel).
  repeat (split; [assumption|]).
  destruct (closed_session_takes_no_attendance sample_secret sample_hmac
              sample_toISOString sample_Date_parse _ _ "s1" _ H1 H2 H3 H4)
    as [_ [Hpost Hscan]].
  split; [apply Hpost|].
  exact (Hscan 125000 125000 125000 (sample_request sample_token "1002") sample_token
           eq_refl eq_refl).
Defined.

Lemma attendance_table_only_grows_witness :
  let w := sample_world sample_open [sample_record 0 "u1" 121000 "present" 0] in
  let w' := (sample_scan 125000 125000 125000 (sample_request sample_token "1002") w).2 in
  rtc sample_route_step w w'
  /\ row_core <$> attendance_records w `prefix_of` row_core <$> attendance_records w'.
Proof.
  intros w w'.
  assert (H1 : rtc sample_route_step w w') by (apply rtc_once, route_engine, step_scan).
  split; [exact H1|].
  exact (attendance_table_only_grows sample_secret sample_hmac sample_toISOString
           sample_Date_parse _ _ H1).
Defined.

Lemma override_sets_the_status_witness :
  "excused" ∈ validStatuses
  /\ session_with_status "s1" "completed" sample_completed
     = Some (sample_session "completed" false None)
  /\ single (filter (fun s => s.1 = "1001") (students sample_completed))
     = Some ("1001", "u1")
  /\ unique_records sample_completed
  /\ NoDup (rec_id <$> attendance_records sample_completed)
  /\ exists w' r,
       patch_attendance 4000000 "s1" "1001" "excused" sample_completed = (Json200, w')
       /\ records_of ("s1", "u1") (attendance_records w') = [r]
       /\ rec_status r = "excused".
Proof.
  assert (H1 : "excused" ∈ validStatuses) by compute_done.
  assert (H2 : session_with_status "s1" "completed" sample_completed
               = Some (sample_session "completed" false None)) by reflexivity.
  assert (H3 : single (filter (fun s => s.1 = "1001") (students sample_completed))
               = Some ("1001", "u1")) by (vm_compute; reflexivity).
  assert (H4 : unique_records sample_completed) by compute_done.
  assert (H5 : NoDup (rec_id <$> attendance_records sample_completed)) by compute_done.
  repeat (split; [assumption|]).
  destruct (override_sets_the_status 4000000 "s1" "1001" "excused" sample_completed
              _ _ H1 H2 H3 H4 H5) as [w' [r [Hp [Hr [Hst _]]]]].
  exists w', r. split; [exact Hp|]. split; [exact Hr|exact Hst].
Defined.




Lemma backfill_fills_completed_sessions_witness :
  unique_enrollments sample_completed
  /\ exists added w',
       backfill_attendance (fun _ => 4000000) "c1" sample_completed
       = (Backfilled (length added) 1, w')
       /\ attendance_records w' = attendance_records sample_completed ++ added
       /\ (("s1", "u2") ∈ rec_key <$> attendance_records w').
Proof.
  assert (H1 : unique_enrollments sample_completed) by compute_done.
  split; [exact H1|].
  destruct (backfill_fills_completed_sessions (fun _ => 4000000) "c1" sample_completed H1)
    as [added [w' [Hrun [Hrows [_ Hcov]]]]].
  exists added, w'. split; [exact Hrun|]. split; [exact Hrows|].
  apply (Hcov "s1" (sample_session "completed" false None)
           (mkEnrollment "u2" "c1" "active"));
    [reflexivity|reflexivity|reflexivity|right; left|reflexivity|reflexivity].
Defined.

Lemma backfill_is_idempotent_witness :
  unique_enrollments sample_completed
  /\ exists k,
       backfill_attendance (fun _ => 5000000) "c1"
         (backfill_attendance (fun _ => 4000000) "c1" sample_completed).2
       = (Backfilled 0 k,
          (backfill_attendance (fun _ => 4000000) "c1" sample_completed).2).
Proof.
  assert (H1 : unique_enrollments sample_completed) by compute_done.
  split; [exact H1|].
  exact (backfill_is_idempotent (fun _ => 4000000) (fun _ => 5000000) "c1"
           sample_completed H1).
Defined.


Lemma unenrolled_student_is_not_posted_witness :
  let w' := (unenroll "c1" "u1" sample_active).2 in
  (unenroll "c1" "u1" sample_active).1 = Json200
  /\ class_sessions sample_active !! "s1" = Some sample_open
  /\ (exists error,
         post_attendance 125000 "s1" (mkAttendanceBody "u1" None None None) w'
         = (Refused 400 error, w'))
  /\ ("u1" ∉ enr_student_id <$> enrolledStudents "c1" w').
Proof.
  intros w'.
  assert (H1 : (unenroll "c1" "u1" sample_active).1 = Json200) by (vm_compute; reflexivity).
  assert (H2 : class_sessions sample_active !! "s1" = Some sample_open) by reflexivity.
  repeat (split; [assumption|]).
  exact (unenrolled_student_is_not_posted 125000 "s1" "c1" "u1"
           (mkAttendanceBody "u1" None None None) sample_active sample_open
           H1 H2 eq_refl eq_refl).
Defined.

Lemma session_qr_payload_is_never_accepted_witness :
  let payload := session_qr_payload sample_secret sample_hmac 120000
                   sample_nonce sample_nonce "s1" in
  (exists field,
      validateQR sample_secret sample_hmac sample_Date_parse 125000 125000
        (PObject payload)
      = Invalid ("Missing required field: " +:+ field))
  /\ exists error,
       sample_scan 125000 125000 125000 (sample_request payload "1001") sample_active
       = (ScanRefused 400 error, sample_active).
Proof.
  intros payload.
  destruct (session_qr_payload_is_never_accepted sample_secret sample_hmac
              sample_toISOString sample_Date_parse 120000 125000 125000 125000 sample_nonce sample_nonce
              "s1" (sample_request payload "1001") sample_active payload
              (or_introl eq_refl)) as [Hv Hs].
  split; [exact Hv|]. apply Hs. reflexivity.
Defined.

Lemma session_qr_route_bypasses_activation_witness :
  let w1 := (get_session_qr sample_toISOString 120000 sample_nonce sample_nonce
               "s1" sample_scheduled).2 in
  session_with_status "s1" "scheduled" sample_scheduled
  = Some (sample_session "scheduled" false None)
  /\ activeRotations w1 = ∅
  /\ timeouts w1 = []
  /\ activate sample_secret sample_hmac sample_toISOString 150000
       sample_nonce sample_nonce "s1" None w1
     = (Status 400 "Session not found or already activated", w1).
Proof.
  intros w1.
  assert (H1 : session_with_status "s1" "scheduled" sample_scheduled
               = Some (sample_session "scheduled" false None)) by reflexivity.
  split; [exact H1|].
  destruct (session_qr_route_bypasses_activation sample_secret sample_hmac
              sample_toISOString 120000 150000 sample_nonce sample_nonce
              sample_nonce sample_nonce "s1" None sample_scheduled _ H1)
    as [_ [Hrot [_ [Ht [_ [_ Hact]]]]]].
  split; [exact Hrot|]. split; [exact Ht|exact Hact].
Defined.



(** Class c1 with room for five students, two places taken. *)
Definition sample_desk : Desk :=
  mkDesk {[ "c1" := mkClassInstance "CSC105-ABC123" true 1000000 5 2 "prof1" ]}
    sample_active.

Lemma sample_desk_ok : desk_ok sample_desk.
Proof.
  intros c ci H. cbn in H. apply lookup_singleton_Some in H as [<- <-].
  split; [reflexivity|]. cbn. lia.
Qed.

Lemma enrollment_within_capacity_witness :
  let d' := (desk_unenroll "c1" "u1" sample_desk).2 in
  desk_ok sample_desk
  /\ rtc (desk_step (fun _ => true)) sample_desk d'
  /\ desk_ok d'.
Proof.
  intros d'.
  assert (H1 : desk_ok sample_desk) by exact sample_desk_ok.
  assert (H2 : rtc (desk_step (fun _ => true)) sample_desk d')
    by (apply rtc_once, desk_step_unenroll).
  repeat (split; [assumption|]).
  exact (enrollment_within_capacity (fun _ => true) _ _ H1 H2).
Defined.

Lemma enrolled_once_witness :
  let e := mkEnrollment "u3" "c1" "dropped" in
  unique_enrollments (desk_world sample_desk)
  /\ e ∈ enrollments (desk_world sample_desk)
  /\ (exists code error,
         enroll (fun _ => true) 0 "c1" (Some ["u3"]) sample_desk
         = (Status code error, sample_desk))
  /\ exists error,
       self_enroll (fun _ => true) 0 "CSC105-ABC123" "u3" sample_desk
       = (Status 400 error, sample_desk).
Proof.
  intros e.
  assert (H1 : unique_enrollments (desk_world sample_desk)) by compute_done.
  assert (H2 : e ∈ enrollments (desk_world sample_desk)) by (right; right; left).
  repeat (split; [assumption|]).
  destruct (enrolled_once (fun _ => true) sample_desk e H1 H2) as [Hen Hself].
  split.
  - apply Hen. left.
  - apply (Hself 0 "CSC105-ABC123"
             (mkClassInstance "CSC105-ABC123" true 1000000 5 2 "prof1")).
    vm_compute. reflexivity.
Defined.
